(** * CortexCrawler: the API-endpoint extraction pipeline

    A shallow embedding of [src/app/api/extract/api-endpoint/route.ts]
    and the properties of its specification.

    Conventions of the embedding.
    - A JavaScript string is a [string]; its characters are the code
      units 0..255.  Code units above 255 are outside the model.
    - A JavaScript number is a [Js.Number]: a double whose value is an
      integer, [NaN] or an infinity.  Sums and [parseInt] round to the
      nearest double, and [toString] prints the shortest numeral that
      reads back.  Fractions are outside the model.
    - A value ([Value]) is JSON data.  An object is the ordered list of
      its own properties, in the order [Object.keys] enumerates them; its
      prototype is not recorded.  An assignment [o[k] = v] is [Obj.assign]:
      for the key [__proto__] it goes to the setter of [Object.prototype]
      and makes no own property.  The functions and the prototype objects
      a read can inherit ([constructor], [toString], [__proto__], the array
      methods) are no values of the model: [xmlToJson] is partial where the
      code would read one, and the reads of [extractDataFromJson] see own
      properties only, which is what the code sees when [ownRead] holds.
    - The platform (URL, JSON.parse) and the network are parameters: a
      [Platform] record and a [World] oracle.  The route runs on the
      server, where no [DOMParser] is defined.
    - Wall-clock readings ([Date.now], [extractedAt], the timings of
      the result) are left out; delays are recorded as trace events. *)

From Stdlib Require Import ZArith List String Ascii Bool Lia.
Import ListNotations.

Local Open Scope list_scope.
Local Open Scope string_scope.

(* ================================================================= *)
(** ** JavaScript strings *)

Module Js.

(** [WhiteSpace] and [LineTerminator] code units below 256:
    what [String.prototype.trim] strips and the regexp class [\s] matches. *)
Definition isWhiteSpace (c : ascii) : bool :=
  match N_of_ascii c with
  | 9 | 10 | 11 | 12 | 13 | 32 | 160 => true
  | _ => false
  end%N.

Fixpoint trimStart (s : string) : string :=
  match s with
  | EmptyString => EmptyString
  | String c s' => if isWhiteSpace c then trimStart s' else s
  end.

Fixpoint trimEnd (s : string) : string :=
  match s with
  | EmptyString => EmptyString
  | String c s' =>
      match trimEnd s' with
      | EmptyString => if isWhiteSpace c then EmptyString else String c EmptyString
      | t => String c t
      end
  end.

(** [s.trim()] *)
Definition trim (s : string) : string := trimEnd (trimStart s).

(** [s.split(sep)] for a one-character separator: never the empty list. *)
Fixpoint split (sep : ascii) (s : string) : list string :=
  match s with
  | EmptyString => [EmptyString]
  | String c s' =>
      if Ascii.eqb c sep then EmptyString :: split sep s'
      else match split sep s' with
           | cell :: rest => String c cell :: rest
           | [] => [String c EmptyString]
           end
  end.

(** [s.replace(/c/g, '')] for a one-character pattern. *)
Fixpoint removeAll (x : ascii) (s : string) : string :=
  match s with
  | EmptyString => EmptyString
  | String c s' => if Ascii.eqb c x then removeAll x s' else String c (removeAll x s')
  end.

(** Occurrence of a code unit in a string. *)
Fixpoint occurs (x : ascii) (s : string) : bool :=
  match s with
  | EmptyString => false
  | String c s' => Ascii.eqb c x || occurs x s'
  end.

(** [xs.join(sep)] on strings. *)
Fixpoint join (sep : string) (xs : list string) : string :=
  match xs with
  | [] => ""
  | [x] => x
  | x :: rest => x ++ sep ++ join sep rest
  end.

Definition digitValue (c : ascii) : option N :=
  let n := N_of_ascii c in
  if ((48 <=? n) && (n <=? 57))%N then Some (n - 48)%N else None.

Fixpoint digitsValue (acc : N) (s : string) : option N :=
  match s with
  | EmptyString => Some acc
  | String c s' =>
      match digitValue c with
      | Some d => digitsValue (10 * acc + d)%N s'
      | None => None
      end
  end.

(** Decimal numeral of a natural number, most significant digit first. *)
Fixpoint digitsOf (fuel : nat) (n : N) (acc : string) : string :=
  match fuel with
  | O => acc
  | S fuel' =>
      let acc' := String (ascii_of_N (48 + N.modulo n 10)) acc in
      if (n <? 10)%N then acc' else digitsOf fuel' (N.div n 10) acc'
  end.

Definition natToString (n : N) : string := digitsOf (S (N.to_nat (N.log2 n))) n "".

(** [n.toString()] for an integer. *)
Definition intToString (z : Z) : string :=
  match z with
  | Z0 => "0"
  | Zpos p => natToString (Npos p)
  | Zneg p => "-" ++ natToString (Npos p)
  end.

Definition hexValue (c : ascii) : option N :=
  let n := N_of_ascii c in
  if ((48 <=? n) && (n <=? 57))%N then Some (n - 48)%N
  else if ((97 <=? n) && (n <=? 102))%N then Some (n - 87)%N
  else if ((65 <=? n) && (n <=? 70))%N then Some (n - 55)%N
  else None.

(** The longest prefix of digits of the radix, as a number; [None] when
    there is no digit at all. *)
Fixpoint leadingDigits (dv : ascii -> option N) (radix : N) (acc : option N) (s : string)
  : option N :=
  match s with
  | EmptyString => acc
  | String c s' =>
      match dv c with
      | Some d =>
          leadingDigits dv radix
            (Some (radix * (match acc with Some a => a | None => 0 end) + d)%N) s'
      | None => acc
      end
  end.

Definition parseUnsigned (s : string) : option N :=
  match s with
  | String "0" (String "x" s') => leadingDigits hexValue 16 None s'
  | String "0" (String "X" s') => leadingDigits hexValue 16 None s'
  | _ => leadingDigits digitValue 10 None s
  end.

(** *** Numbers

    The numbers of the code are the results of [parseInt] and their sums:
    doubles whose value is an integer, [NaN], and the infinities. *)
Inductive Number : Type :=
| Int (z : Z)
| NaN
| Infinity (negative : bool).

(** 2^53: every integer up to it, in absolute value, is a double. *)
Definition maxSafe : Z := 9007199254740992.

(** The double nearest to an integer: the integer itself up to 2^53, and
    above it the integer rounded to 53 significant bits, a tie going to the
    even one; from 2^1024 on, an infinity. *)
Definition roundDouble (z : Z) : Number :=
  let a := Z.abs z in
  if (a <=? maxSafe)%Z then Int z
  else
    let e := (Z.log2 a - 52)%Z in
    let q := Z.shiftr a e in
    let r := (a - Z.shiftl q e)%Z in
    let half := Z.shiftl 1 (e - 1) in
    let q' := if (half <? r)%Z || ((r =? half)%Z && Z.odd q) then (q + 1)%Z else q in
    let m := Z.shiftl q' e in
    if (1024 <=? Z.log2 m)%Z then Infinity (z <? 0)%Z
    else Int (Z.sgn z * m).

(** [parseInt(s)] without a radix argument. *)
Definition parseInt (s : string) : Number :=
  match trimStart s with
  | String "-" s' =>
      match parseUnsigned s' with
      | Some n => roundDouble (- Z.of_N n)
      | None => NaN
      end
  | String "+" s' =>
      match parseUnsigned s' with
      | Some n => roundDouble (Z.of_N n)
      | None => NaN
      end
  | s' =>
      match parseUnsigned s' with
      | Some n => roundDouble (Z.of_N n)
      | None => NaN
      end
  end.

(** [a + b] *)
Definition add (a b : Number) : Number :=
  match a, b with
  | Int x, Int y => roundDouble (x + y)
  | NaN, _ | _, NaN => NaN
  | Infinity s, Int _ | Int _, Infinity s => Infinity s
  | Infinity s, Infinity t => if Bool.eqb s t then Infinity s else NaN
  end.

(** [c] rounds to the double [a]. *)
Definition roundsTo (a c : Z) : bool :=
  match roundDouble c with
  | Int z => (z =? a)%Z
  | _ => false
  end.

(** The integer with the fewest significant digits that rounds to the
    double [a] (of [nd] digits), the nearest to [a] when two have as few:
    the digits [Number.prototype.toString] prints.  [k] is the number of
    significant digits tried, from 1 to 17. *)
Fixpoint shortest (steps k nd : nat) (a : Z) : Z :=
  match steps with
  | O => a
  | S steps' =>
      let unit := (10 ^ Z.of_nat (nd - k))%Z in
      let lo := (a / unit * unit)%Z in
      let hi := (lo + unit)%Z in
      match roundsTo a lo, roundsTo a hi with
      | true, true =>
          if (a - lo <? hi - a)%Z then lo
          else if (hi - a <? a - lo)%Z then hi
          else if Z.even (lo / unit) then lo else hi
      | true, false => lo
      | false, true => hi
      | false, false => shortest steps' (S k) nd a
      end
  end.

Fixpoint dropZerosEnd (s : string) : string :=
  match s with
  | EmptyString => EmptyString
  | String c s' =>
      match dropZerosEnd s' with
      | EmptyString => if Ascii.eqb c "0" then EmptyString else String c EmptyString
      | t => String c t
      end
  end.

(** The exponent notation of a numeral of 22 digits or more. *)
Definition exponential (digits : string) : string :=
  match dropZerosEnd digits with
  | String d EmptyString =>
      String d ("e+" ++ natToString (N.of_nat (String.length digits - 1)))
  | String d rest =>
      String d ("." ++ rest ++ "e+" ++ natToString (N.of_nat (String.length digits - 1)))
  | EmptyString => digits
  end.

(** [n.toString()]: the decimal numeral of an integer up to 2^53; above
    it the shortest digits that read back, in exponent notation from 10^21
    on. *)
Definition numberToString (n : Number) : string :=
  match n with
  | NaN => "NaN"
  | Infinity false => "Infinity"
  | Infinity true => "-Infinity"
  | Int z =>
      let a := Z.abs z in
      if (a <=? maxSafe)%Z then intToString z
      else
        let c := shortest 17 1 (String.length (natToString (Z.to_N a))) a in
        (if (z <? 0)%Z then "-" else "")
        ++ (if (c <? 10 ^ 21)%Z then natToString (Z.to_N c)
            else exponential (natToString (Z.to_N c)))
  end.

Definition lowerChar (c : ascii) : ascii :=
  let n := N_of_ascii c in
  if ((65 <=? n) && (n <=? 90))%N then ascii_of_N (n + 32) else c.

Fixpoint toLowerCase (s : string) : string :=
  match s with
  | EmptyString => EmptyString
  | String c s' => String (lowerChar c) (toLowerCase s')
  end.

(** [s || d] on a string that may be absent ([undefined] or [null]). *)
Definition orElse (s : option string) (d : string) : string :=
  match s with
  | Some (String c r) => String c r
  | _ => d
  end.

(** Truthiness of an optional string: present and not empty. *)
Definition present (s : option string) : bool :=
  match s with
  | Some (String _ _) => true
  | _ => false
  end.

Definition base64Char (n : N) : ascii :=
  if (n <? 26)%N then ascii_of_N (65 + n)
  else if (n <? 52)%N then ascii_of_N (71 + n)
  else if (n <? 62)%N then ascii_of_N (n - 4)
  else if (n =? 62)%N then "+"%char else "/"%char.

(** [btoa(s)] on code units below 256 (it does not throw there). *)
Fixpoint btoa (s : string) : string :=
  match s with
  | EmptyString => EmptyString
  | String a EmptyString =>
      let x := N_of_ascii a in
      String (base64Char (N.div x 4))
        (String (base64Char (N.modulo x 4 * 16)) "==")
  | String a (String b EmptyString) =>
      let x := N_of_ascii a in
      let y := N_of_ascii b in
      String (base64Char (N.div x 4))
        (String (base64Char (N.modulo x 4 * 16 + N.div y 16))
           (String (base64Char (N.modulo y 16 * 4)) "="))
  | String a (String b (String c rest)) =>
      let x := N_of_ascii a in
      let y := N_of_ascii b in
      let z := N_of_ascii c in
      String (base64Char (N.div x 4))
        (String (base64Char (N.modulo x 4 * 16 + N.div y 16))
           (String (base64Char (N.modulo y 16 * 4 + N.div z 64))
              (String (base64Char (N.modulo z 64)) (btoa rest))))
  end.

End Js.

(* ================================================================= *)
(** ** JavaScript objects as ordered property lists *)

Module Obj.

Section Props.
Context {A : Type}.

(** [o[k]]: the own property [k], if any. *)
Fixpoint get (k : string) (o : list (string * A)) : option A :=
  match o with
  | [] => None
  | (k', v) :: o' => if String.eqb k' k then Some v else get k o'
  end.

Definition has (k : string) (o : list (string * A)) : bool :=
  match get k o with Some _ => true | None => false end.

Fixpoint replace (k : string) (v : A) (o : list (string * A)) : list (string * A) :=
  match o with
  | [] => []
  | (k', v') :: o' =>
      if String.eqb k' k then (k', v) :: o' else (k', v') :: replace k v o'
  end.

End Props.

(** An array index: the canonical numeral of an integer below 2^32 - 1.
    [Object.keys] lists such keys first, in increasing order, and the
    other keys after them in the order of their creation. *)
Definition arrayIndex (k : string) : option N :=
  match k with
  | EmptyString => None
  | String "0" EmptyString => Some 0%N
  | String "0" _ => None
  | _ => match Js.digitsValue 0 k with
         | Some n => if (n <? 4294967295)%N then Some n else None
         | None => None
         end
  end.

Section Set_.
Context {A : Type}.

Fixpoint insertIndex (n : N) (k : string) (v : A) (o : list (string * A))
  : list (string * A) :=
  match o with
  | [] => [(k, v)]
  | (k', v') :: o' =>
      match arrayIndex k' with
      | Some m => if (n <? m)%N then (k, v) :: o else (k', v') :: insertIndex n k v o'
      | None => (k, v) :: o
      end
  end.

(** The own property [k] of [o] is given the value [v], and created when
    it is not there: what [Object.fromEntries] and an object literal do for
    every key, and an assignment for every key but [__proto__]. *)
Definition set (k : string) (v : A) (o : list (string * A)) : list (string * A) :=
  if has k o then replace k v o
  else match arrayIndex k with
       | Some n => insertIndex n k v o
       | None => (o ++ [(k, v)])%list
       end.

(** [o[k] = v] on an object that inherits from [Object.prototype].  The
    key [__proto__], when it is not an own property, is the accessor of
    [Object.prototype]: its setter makes no own property (it changes the
    prototype when [v] is an object or [null], and does nothing for
    another [v]). *)
Definition assign (k : string) (v : A) (o : list (string * A)) : list (string * A) :=
  if String.eqb k "__proto__" && negb (has k o) then o else set k v o.

Definition keys (o : list (string * A)) : list string := map fst o.

End Set_.

(** The names [Object.prototype] defines, which every object inherits:
    the accessor [__proto__] and eleven functions. *)
Definition objectPrototypeNames : list string :=
  ["constructor"; "__defineGetter__"; "__defineSetter__"; "hasOwnProperty";
   "__lookupGetter__"; "__lookupSetter__"; "isPrototypeOf"; "propertyIsEnumerable";
   "toString"; "valueOf"; "__proto__"; "toLocaleString"].

Definition inherited (k : string) : bool :=
  existsb (String.eqb k) objectPrototypeNames.

End Obj.

(* ================================================================= *)
(** ** Values: what [JSON.parse] and the decoders produce *)

#[warnings="-register-all"]
Inductive Value : Type :=
| VNull
| VBool (b : bool)
| VNum (z : Z)
| VStr (s : string)
| VArr (items : list Value)
| VObj (props : list (string * Value)).

(** [!!v] *)
Definition truthy (v : Value) : bool :=
  match v with
  | VNull => false
  | VBool b => b
  | VNum z => negb (Z.eqb z 0)
  | VStr s => negb (String.eqb s "")
  | VArr _ | VObj _ => true
  end.

(** [typeof v === 'object'] (true of [null] too). *)
Definition typeofObject (v : Value) : bool :=
  match v with
  | VNull | VArr _ | VObj _ => true
  | _ => false
  end.

Definition isArray (v : Value) : bool :=
  match v with VArr _ => true | _ => false end.

(* ================================================================= *)
(** ** CSV decoding: [parseCsvResponse] *)

(** The cell clean-up of both [map] calls: [trim], then every
    double quote (code unit 34) deleted. *)
Definition cleanCell (s : string) : string := Js.removeAll "034" (Js.trim s).

(** [values[index] || ''] *)
Definition cellAt (values : list string) (index : nat) : string :=
  Js.orElse (nth_error values index) "".

(** [headers.forEach((header, index) => { row[header] = values[index] || '' })],
    from position [index] on. *)
Fixpoint fillRow (values : list string) (index : nat) (headers : list string)
  (row : list (string * Value)) : list (string * Value) :=
  match headers with
  | [] => row
  | header :: headers' =>
      fillRow values (S index) headers' (Obj.assign header (VStr (cellAt values index)) row)
  end.

Definition csvRow (headers : list string) (line : string) : Value :=
  let values := map cleanCell (Js.split "," line) in
  VObj (fillRow values 0 headers []).

Definition parseCsvResponse (csvText : string) : list Value :=
  let lines := Js.split "010" (Js.trim csvText) in
  match lines with
  | [] => []
  | line0 :: dataLines =>
      let headers := map cleanCell (Js.split "," line0) in
      map (csvRow headers) dataLines
  end.


(* ================================================================= *)
(** ** [JSON.stringify(v, null, 2)] and [String(v)] *)

Module Json.

Definition hexDigit (n : N) : ascii :=
  if (n <? 10)%N then ascii_of_N (48 + n) else ascii_of_N (87 + n).

Definition escapeChar (c : ascii) : string :=
  match N_of_ascii c with
  | 8%N => "\b"
  | 9%N => "\t"
  | 10%N => "\n"
  | 12%N => "\f"
  | 13%N => "\r"
  | 34%N => String "\" (String "034" "")
  | 92%N => "\\"
  | n =>
      if (n <? 32)%N
      then "\u00" ++ String (hexDigit (N.div n 16)) (String (hexDigit (N.modulo n 16)) "")
      else String c ""
  end.

Fixpoint escape (s : string) : string :=
  match s with
  | EmptyString => EmptyString
  | String c s' => escapeChar c ++ escape s'
  end.

Definition quote (s : string) : string :=
  String "034" (escape s ++ String "034" "").

Definition newline : string := String "010" "".

(** [JSON.stringify(v, null, 2)] printed at the indentation [indent]. *)
Fixpoint stringifyAt (indent : string) (v : Value) : string :=
  match v with
  | VNull => "null"
  | VBool true => "true"
  | VBool false => "false"
  | VNum z => Js.numberToString (Js.Int z)
  | VStr s => quote s
  | VArr [] => "[]"
  | VArr items =>
      let inner := indent ++ "  " in
      "[" ++ newline
      ++ Js.join ("," ++ newline) (map (fun x => inner ++ stringifyAt inner x) items)
      ++ newline ++ indent ++ "]"
  | VObj [] => "{}"
  | VObj props =>
      let inner := indent ++ "  " in
      "{" ++ newline
      ++ Js.join ("," ++ newline)
           (map (fun kv => match kv with
                           | (k, x) => inner ++ quote k ++ ": " ++ stringifyAt inner x
                           end) props)
      ++ newline ++ indent ++ "}"
  end.

Definition stringify (v : Value) : string := stringifyAt "" v.

(** [String(v)], [v.toString()] for a value that is not [null]. *)
Fixpoint toString (v : Value) : string :=
  match v with
  | VNull => "null"
  | VBool true => "true"
  | VBool false => "false"
  | VNum z => Js.numberToString (Js.Int z)
  | VStr s => s
  | VArr items =>
      Js.join "," (map (fun x => match x with VNull => "" | _ => toString x end) items)
  | VObj _ => "[object Object]"
  end.

End Json.

(* ================================================================= *)
(** ** XML conversion: [xmlToJson], over a DOM tree *)

(** A DOM [Element]: [tagName], [attributes] in document order,
    [children] (the element children only) and [textContent]. *)
#[warnings="-register-all"]
Inductive Element : Type :=
| Elem (tagName : string) (attributes : list (string * string))
       (children : list Element) (textContent : string).

Definition tagName (e : Element) : string :=
  match e with Elem n _ _ _ => n end.

(** The attribute loop: [result['@attributes'][attr.name] = attr.value]. *)
Definition attributesObject (attrs : list (string * string)) : list (string * Value) :=
  fold_left (fun o attr => Obj.assign (fst attr) (VStr (snd attr)) o) attrs [].

(** One turn of the loop over [xml.children], given the converted child.
    When [childName] is not an own property of [result] but a name that
    [Object.prototype] defines, [result[childName]] reads what is
    inherited, a function or the prototype: the code then stores a
    sequence that starts with it, or changes the prototype of [result].
    No [Value] holds that: [None]. *)
Definition addChild (childName : string) (converted : Value)
  (result : list (string * Value)) : option (list (string * Value)) :=
  match Obj.get childName result with
  | Some existing =>
      if truthy existing then
        match existing with
        | VArr items => Some (Obj.set childName (VArr (items ++ [converted])%list) result)
        | _ => Some (Obj.set childName (VArr [existing; converted]) result)
        end
      else Some (Obj.set childName converted result)
  | None =>
      if Obj.inherited childName then None
      else Some (Obj.set childName converted result)
  end.

(** [xmlToJson]; [None] where [addChild] is. *)
Fixpoint xmlToJson (xml : Element) : option Value :=
  match xml with
  | Elem _ attrs children text =>
      let result :=
        match attrs with
        | [] => []
        | _ :: _ => Obj.set "@attributes" (VObj (attributesObject attrs)) []
        end in
      match children with
      | [] => Some (VObj (Obj.set "#text" (VStr text) result))
      | _ :: _ =>
          option_map VObj
            ((fix each (cs : list Element) (result : option (list (string * Value))) :=
                match cs with
                | [] => result
                | child :: cs' =>
                    each cs'
                      match result, xmlToJson child with
                      | Some r, Some converted => addChild (tagName child) converted r
                      | _, _ => None
                      end
                end) children (Some result))
      end
  end.

(* ================================================================= *)
(** ** Field mapping: [extractDataFromJson] *)

Record DataMapping : Type := {
  rootPath : option string;
  fields : option (list (string * string))
}.

(** [k in v] for an object or an array [v]: an own property.  The code
    also finds what [v] inherits; see [ownRead]. *)
Definition hasIn (k : string) (v : Value) : bool :=
  match v with
  | VObj props => Obj.has k props
  | VArr items =>
      String.eqb k "length" ||
      match Obj.arrayIndex k with
      | Some n => (N.to_nat n <? List.length items)%nat
      | None => false
      end
  | _ => false
  end.

(** [v[k]]; [None] is [undefined]. *)
Definition getIn (k : string) (v : Value) : option Value :=
  match v with
  | VObj props => Obj.get k props
  | VArr items =>
      if String.eqb k "length" then Some (VNum (Z.of_nat (List.length items)))
      else match Obj.arrayIndex k with
           | Some n => nth_error items (N.to_nat n)
           | None => None
           end
  | _ => None
  end.

(** The walk along [pathParts]; [None] when a part is not found. *)
Fixpoint walkPath (pathParts : list string) (current : Value) : option Value :=
  match pathParts with
  | [] => Some current
  | part :: rest =>
      if truthy current && typeofObject current && hasIn part current then
        match getIn part current with
        | Some next => walkPath rest next
        | None => None
        end
      else None
  end.

(** The loop over [Object.entries(dataMapping.fields)], from the record
    [mapped] built so far. *)
Definition mapFields (fs : list (string * string)) (item : Value)
  (mapped : list (string * Value)) : list (string * Value) :=
  fold_left (fun mapped entry =>
               match entry with
               | (newKey, oldKey) =>
                   if truthy item && typeofObject item && hasIn oldKey item then
                     match getIn oldKey item with
                     | Some v => Obj.assign newKey v mapped
                     | None => mapped
                     end
                   else mapped
               end) fs mapped.

Definition mapItem (fs : list (string * string)) (item : Value) : Value :=
  match mapFields fs item [] with
  | [] => item
  | mapped => VObj mapped
  end.

Definition extractDataFromJson (data : Value) (dataMapping : option DataMapping) : Value :=
  match dataMapping with
  | None => data
  | Some dm =>
      if negb (Js.present (rootPath dm)) then data
      else
        match walkPath (Js.split "." (Js.orElse (rootPath dm) "")) data with
        | None => data
        | Some current =>
            match fields dm, current with
            | Some fs, VArr items => VArr (map (mapItem fs) items)
            | _, _ => current
            end
        end
  end.

(* ================================================================= *)
(** ** The platform: URL, JSON.parse *)

(** A parsed URL: [protocol] (with its colon), the rest up to the query
    ([location]: host, port and path), the [searchParams] list and the
    fragment. *)
Record Url : Type := {
  protocol : string;
  location : string;
  searchParams : list (string * string);
  hash : string
}.

Record Platform : Type := {
  (** [new URL(s)]; [None] when the constructor throws. *)
  URL_parse : string -> option Url;
  (** [url.toString()] *)
  URL_toString : Url -> string;
  (** [JSON.parse(s)]; [None] when it throws. *)
  JSON_parse : string -> option Value
}.

Module SearchParams.

(** [searchParams.get(name)]: the first value of that name. *)
Fixpoint get (name : string) (ps : list (string * string)) : option string :=
  match ps with
  | [] => None
  | (k, v) :: ps' => if String.eqb k name then Some v else get name ps'
  end.

Definition remove (name : string) (ps : list (string * string)) : list (string * string) :=
  filter (fun kv => negb (String.eqb (fst kv) name)) ps.

(** [searchParams.set(name, value)]: the first pair of that name gets the
    value and the others go; without one, the pair is appended. *)
Fixpoint set (name value : string) (ps : list (string * string)) : list (string * string) :=
  match ps with
  | [] => [(name, value)]
  | (k, v) :: ps' =>
      if String.eqb k name then (k, value) :: remove name ps'
      else (k, v) :: set name value ps'
  end.

End SearchParams.

Definition withParam (name value : string) (u : Url) : Url :=
  {| protocol := protocol u;
     location := location u;
     searchParams := SearchParams.set name value (searchParams u);
     hash := hash u |}.

(** [response.headers.get(name)]: names compare without case. *)
Fixpoint headersGet (name : string) (hs : list (string * string)) : option string :=
  match hs with
  | [] => None
  | (k, v) :: hs' =>
      if String.eqb (Js.toLowerCase k) (Js.toLowerCase name) then Some v
      else headersGet name hs'
  end.

(** [Object.fromEntries(entries)] *)
Definition fromEntries (entries : list (string * string)) : list (string * string) :=
  fold_left (fun o kv => Obj.set (fst kv) (snd kv) o) entries [].

(* ================================================================= *)
(** ** Pagination: [getNextPageUrl] *)

Inductive PaginationType : Type := offset | cursor | page.

Record Pagination : Type := {
  enabled : bool;
  type : option PaginationType;
  pageParam : option string;
  limitParam : option string;
  maxPages : option Z
}.

(** The text up to the first [>] and what follows it. *)
Fixpoint upToGt (s : string) : option (string * string) :=
  match s with
  | EmptyString => None
  | String c s' =>
      if Ascii.eqb c ">" then Some (EmptyString, s')
      else match upToGt s' with
           | Some (g, r) => Some (String c g, r)
           | None => None
           end
  end.

Definition relNext : string := "rel=" ++ String "034" ("next" ++ String "034" "").

(** The regular expression of the [Link] header, tried right after a [<]:
    one or more characters other than [>], then [>;], white space, and
    the text [relNext]. *)
Definition linkMatchAt (s : string) : option string :=
  match upToGt s with
  | Some (String c g, String ";" r) =>
      if String.prefix relNext (Js.trimStart r) then Some (String c g) else None
  | _ => None
  end.

(** [linkHeader.match(...)]: group 1 of the leftmost match. *)
Fixpoint linkNext (s : string) : option string :=
  match s with
  | EmptyString => None
  | String c s' =>
      if Ascii.eqb c "<" then
        match linkMatchAt s' with
        | Some g => Some g
        | None => linkNext s'
        end
      else linkNext s'
  end.

(** The [offset] case on a parsed URL. *)
Definition nextOffsetUrl (pagination : Pagination) (url : Url) : Url :=
  let offsetName := Js.orElse (pageParam pagination) "offset" in
  let limitName := Js.orElse (limitParam pagination) "limit" in
  let currentOffset :=
    Js.parseInt (Js.orElse (SearchParams.get offsetName (searchParams url)) "0") in
  let limit :=
    Js.parseInt (Js.orElse (SearchParams.get limitName (searchParams url)) "10") in
  withParam offsetName (Js.numberToString (Js.add currentOffset limit)) url.

(** The [page] case on a parsed URL. *)
Definition nextPageNumUrl (pagination : Pagination) (url : Url) : Url :=
  let pageName := Js.orElse (pageParam pagination) "page" in
  let currentPageNum :=
    Js.parseInt (Js.orElse (SearchParams.get pageName (searchParams url)) "1") in
  withParam pageName (Js.numberToString (Js.add currentPageNum (Js.Int 1))) url.

Section GetNextPageUrl.
Variable P : Platform.

Definition getNextPageUrl (responseHeaders : list (string * string)) (data : Value)
  (pagination : Pagination) (currentUrl : string) : option string :=
  if negb (enabled pagination) then None
  else
    match URL_parse P currentUrl with
    | None => None
    | Some url =>
        match type pagination with
        | Some offset => Some (URL_toString P (nextOffsetUrl pagination url))
        | Some page => Some (URL_toString P (nextPageNumUrl pagination url))
        | Some cursor =>
            match
              match headersGet "Link" responseHeaders with
              | Some linkHeader =>
                  if negb (String.eqb linkHeader "") then linkNext linkHeader else None
              | None => None
              end
            with
            | Some next => Some next
            | None =>
                match data with
                | VObj props =>
                    match Obj.get "next_cursor" props with
                    | Some c =>
                        if truthy c then
                          Some (URL_toString P
                                  (withParam (Js.orElse (pageParam pagination) "cursor")
                                     (Json.toString c) url))
                        else None
                    | None => None
                    end
                | _ => None
                end
            end
        | None => None
        end
    end.

End GetNextPageUrl.

(* ================================================================= *)
(** ** Exceptions *)

Inductive Exn : Type :=
| RequestFailed (status : Z) (statusText : string)
| FetchRejected (message : string)
| TypeError (message : string)
| SyntaxError (message : string).

(** [error.message] *)
Definition message (e : Exn) : string :=
  match e with
  | RequestFailed status statusText =>
      "API request failed: " ++ Js.intToString status ++ " " ++ statusText
  | FetchRejected m => m
  | TypeError m => m
  | SyntaxError m => m
  end.

Inductive Outcome (A : Type) : Type :=
| Returns (a : A)
| Throws (e : Exn).
Arguments Returns {A} a.
Arguments Throws {A} e.

(* ================================================================= *)
(** ** Rendering: [formatExtractedData] and [analyzeDataStructure] *)

Inductive ResponseFormat : Type := json | xml | csv | text.

Definition formatName (f : ResponseFormat) : string :=
  match f with json => "json" | xml => "xml" | csv => "csv" | text => "text" end.

(** [format.toUpperCase()] *)
Definition formatUpper (f : ResponseFormat) : string :=
  match f with json => "JSON" | xml => "XML" | csv => "CSV" | text => "TEXT" end.

Definition isJson (f : ResponseFormat) : bool :=
  match f with json => true | _ => false end.

Definition showNat (n : nat) : string := Js.intToString (Z.of_nat n).

(** [data.length > 20 ? 10 : Math.min(data.length, 5)] *)
Definition maxRecordsToShow (data : list Value) : nat :=
  if (20 <? List.length data)%nat then 10%nat else Nat.min (List.length data) 5.

(** [data.slice(0, maxRecordsToShow)] *)
Definition sampleData (data : list Value) : list Value :=
  firstn (maxRecordsToShow data) data.

(** [Object.keys(v)]; it throws on [null]. *)
Definition objectKeys (v : Value) : Outcome (list string) :=
  match v with
  | VNull => Throws (TypeError "Cannot convert undefined or null to object")
  | VObj props => Returns (Obj.keys props)
  | VArr items => Returns (map showNat (seq 0 (List.length items)))
  | VStr s => Returns (map showNat (seq 0 (String.length s)))
  | _ => Returns []
  end.

(** [item.userId]; it throws on [null], and [None] is [undefined]. *)
Definition userIdOf (item : Value) : Outcome (option Value) :=
  match item with
  | VNull => Throws (TypeError "Cannot read properties of null (reading 'userId')")
  | VObj props => Returns (Obj.get "userId" props)
  | _ => Returns None
  end.

Fixpoint userIds (data : list Value) : Outcome (list (option Value)) :=
  match data with
  | [] => Returns []
  | item :: rest =>
      match userIdOf item with
      | Throws e => Throws e
      | Returns u =>
          match userIds rest with
          | Throws e => Throws e
          | Returns us => Returns (u :: us)
          end
      end
  end.

(** The equality of [Set]: by value on primitives and [undefined];
    two objects or arrays of the data are never the same object. *)
Definition sameValueZero (a b : option Value) : bool :=
  match a, b with
  | None, None => true
  | Some VNull, Some VNull => true
  | Some (VBool x), Some (VBool y) => Bool.eqb x y
  | Some (VNum x), Some (VNum y) => Z.eqb x y
  | Some (VStr x), Some (VStr y) => String.eqb x y
  | _, _ => false
  end.

(** [[...new Set(xs)].length] *)
Fixpoint countDistinct (seen xs : list (option Value)) : nat :=
  match xs with
  | [] => 0%nat
  | x :: rest =>
      if existsb (sameValueZero x) seen then countDistinct seen rest
      else S (countDistinct (x :: seen) rest)
  end.

Definition nl : string := String "010" "".

Definition truncationNotice (data : list Value) : string :=
  nl ++ nl ++ "... and " ++ showNat (List.length data - maxRecordsToShow data)
  ++ " more records (truncated for display)".

(** The summary block of the JSON branch, after the truncation notice. *)
Definition datasetSummary (data : list Value) : Outcome string :=
  let head := nl ++ nl ++ "DATASET SUMMARY:" ++ nl ++ "Total Records: "
              ++ showNat (List.length data) in
  match data with
  | sampleRecord :: _ =>
      if typeofObject sampleRecord then
        match objectKeys sampleRecord with
        | Throws e => Throws e
        | Returns fs =>
            let head' :=
              head ++ nl ++ "Fields per Record: " ++ showNat (List.length fs)
              ++ nl ++ "Sample Fields: " ++ Js.join ", " (firstn 5 fs)
              ++ (if (5 <? List.length fs)%nat then "..." else "") in
            match
              match sampleRecord with
              | VObj props => option_map truthy (Obj.get "userId" props)
              | _ => None
              end
            with
            | Some true =>
                match userIds data with
                | Throws e => Throws e
                | Returns us =>
                    Returns (head' ++ nl ++ "Unique Users: " ++ showNat (countDistinct [] us))
                end
            | _ => Returns head'
            end
        end
      else Returns head
  | [] => Returns head
  end.

(** One turn of the loop of the other branch: record [i] of the sample. *)
Definition renderRecord (i : nat) (record : Value) : string :=
  nl ++ "Record " ++ showNat (i + 1) ++ ":" ++ nl
  ++ (if typeofObject record then Json.stringify record else Json.toString record).

(** [for (let i = ...; i < maxRecordsToShow; i++)] over the sample. *)
Fixpoint renderRecords (i : nat) (sample : list Value) : string :=
  match sample with
  | [] => ""
  | record :: rest => renderRecord i record ++ renderRecords (S i) rest
  end.

(** The final clamp at 25000 characters. *)
Definition clamp (formattedData : string) : string :=
  if (25000 <? Z.of_nat (String.length formattedData))%Z
  then String.substring 0 (Z.to_nat 25000) formattedData ++ nl ++ nl
       ++ "[Content truncated due to size - full data available for export]"
  else formattedData.

(** The three header lines of the rendering. *)
Definition formatHeader (data : list Value) (format : ResponseFormat) : string :=
  "API ENDPOINT EXTRACTION RESULTS" ++ nl
  ++ "Records Extracted: " ++ showNat (List.length data) ++ nl
  ++ "Response Format: " ++ formatUpper format ++ nl ++ nl.

Definition showingLine (data : list Value) : string :=
  "Showing " ++ showNat (maxRecordsToShow data) ++ " of "
  ++ showNat (List.length data) ++ " records:" ++ nl.

Definition formatExtractedData (data : list Value) (format : ResponseFormat)
  : Outcome string :=
  match data with
  | [] => Returns "No data extracted from API endpoint."
  | _ :: _ =>
      if isJson format then
        let formattedData :=
          formatHeader data format ++ "EXTRACTED DATA (JSON) - " ++ showingLine data
          ++ Json.stringify (VArr (sampleData data)) in
        if (maxRecordsToShow data <? List.length data)%nat then
          match datasetSummary data with
          | Throws e => Throws e
          | Returns summary =>
              Returns (clamp (formattedData ++ truncationNotice data ++ summary))
          end
        else Returns (clamp formattedData)
      else
        let formattedData :=
          formatHeader data format ++ "EXTRACTED DATA - " ++ showingLine data
          ++ renderRecords 0 (sampleData data) in
        Returns (clamp (if (maxRecordsToShow data <? List.length data)%nat
                        then formattedData ++ truncationNotice data
                        else formattedData))
  end.

Definition typeOf (v : Value) : string :=
  match v with
  | VNull | VArr _ | VObj _ => "object"
  | VBool _ => "boolean"
  | VNum _ => "number"
  | VStr _ => "string"
  end.

Definition analyzeDataStructure (data : list Value) : string :=
  match data with
  | [] => "Empty dataset"
  | VArr _ :: _ => "Array of arrays"
  | VObj props :: _ =>
      let keys := Obj.keys props in
      "Object with " ++ showNat (List.length keys) ++ " fields: "
      ++ Js.join ", " (firstn 3 keys)
      ++ (if (3 <? List.length keys)%nat then "..." else "")
  | sample :: _ => "Primitive values (" ++ typeOf sample ++ ")"
  end.

(* ================================================================= *)
(** ** Response decoding: [parseXmlResponse], [parseApiResponse] *)

(** [parseXmlResponse].  The route runs on the server, where no global
    [DOMParser] is defined, and the file imports none: [new DOMParser()]
    throws a ReferenceError, the [catch] logs it and returns the text.
    [xmlToJson] is never reached. *)
Definition parseXmlResponse (xmlText : string) (dataMapping : option DataMapping) : Value :=
  VStr xmlText.

Section Decoding.
Variable P : Platform.

Definition parseApiResponse (responseText : string) (format : ResponseFormat)
  (dataMapping : option DataMapping) : Value :=
  match format with
  | json =>
      match JSON_parse P responseText with
      | Some jsonData => extractDataFromJson jsonData dataMapping
      | None => VStr responseText
      end
  | xml => parseXmlResponse responseText dataMapping
  | csv => VArr (parseCsvResponse responseText)
  | text => VStr responseText
  end.

End Decoding.

(** What [allData.push] adds for one parsed page. *)
Definition pageRecords (parsedData : Value) : list Value :=
  match parsedData with
  | VArr items => items
  | other => [other]
  end.

(* ================================================================= *)
(** ** The request and its options *)

Module Method.
Inductive t : Type := GET | POST | PUT | DELETE | PATCH.

Definition name (m : t) : string :=
  match m with
  | GET => "GET" | POST => "POST" | PUT => "PUT" | DELETE => "DELETE" | PATCH => "PATCH"
  end.

(** [['POST', 'PUT', 'PATCH'].includes(method)] *)
Definition hasBody (m : t) : bool :=
  match m with POST | PUT | PATCH => true | _ => false end.
End Method.

Inductive AuthType : Type := none | api_key | bearer | basic | oauth.

Record Credentials : Type := {
  apiKey : option string;
  apiKeyHeader : option string;
  token : option string;
  username : option string;
  password : option string;
  oauthToken : option string
}.

Record Authentication : Type := {
  authType : AuthType;
  credentials : option Credentials
}.

(** [authentication.credentials?.field] *)
Definition credential (a : Authentication) (field : Credentials -> option string)
  : option string :=
  match credentials a with
  | Some c => field c
  | None => None
  end.

(** The options [POST] hands to [performApiExtraction]. *)
Record Options : Type := {
  url : string;
  method : Method.t;
  headers : list (string * string);
  body : option string;
  authentication : Authentication;
  responseFormat : ResponseFormat;
  dataMapping : option DataMapping;
  pagination : Pagination;
  timeout : Z
}.

(** The body of the request, an object of the interface
    [ApiEndpointRequest], as [request.json()] gives it. *)
Module Request.
Record t : Type := {
  url : string;
  method : option Method.t;
  headers : option (list (string * string));
  body : option string;
  authentication : option Authentication;
  responseFormat : option ResponseFormat;
  dataMapping : option DataMapping;
  pagination : option Pagination;
  timeout : option Z
}.
End Request.

(** The request the handler is given: [await request.json()] resolves to
    a body of the interface, or a statement of the outer [try] throws
    before the extraction is called (the text sent is not JSON, it is the
    JSON [null], or its [url] is a value without [trim]). *)
Inductive NextRequest : Type :=
| Readable (body : Request.t)
| Unreadable (error : Exn).

Coercion Readable : Request.t >-> NextRequest.

(* ================================================================= *)
(** ** The network *)

Module Fetch.

Record Request : Type := {
  url : string;
  method : Method.t;
  headers : list (string * string);
  body : option string;
  timeout : Z
}.

(** [await response.text()]: the text, or a rejection. *)
Inductive Body : Type :=
| Text (s : string)
| BodyFails (message : string).

Record Response : Type := {
  status : Z;
  statusText : string;
  (** [response.headers.entries()] *)
  entries : list (string * string);
  text : Body
}.

(** [response.ok] *)
Definition ok (r : Response) : bool := ((200 <=? status r) && (status r <=? 299))%Z.

(** [await fetch(currentUrl, {...})], its arguments included: a response
    of any status, or a failure (time-out, DNS, connection refused, a URL
    fetch cannot use, a time-out that [AbortSignal.timeout] refuses). *)
Inductive Result : Type :=
| Responded (r : Response)
| Rejected (message : string).

End Fetch.

(** The network: what the call number [n] (from 0) of this run gets for
    the request it sends. *)
Definition World : Type := nat -> Fetch.Request -> Fetch.Result.

(** A network in which the call with a negative time-out fails, as
    [AbortSignal.timeout] makes it. *)
Definition refusesNegativeTimeouts (W : World) : Prop :=
  forall n request,
    (Fetch.timeout request < 0)%Z -> exists m, W n request = Fetch.Rejected m.

(** The effects of a run, in the order they happen.  [pageNo] is the page
    the code is working on: [pagesProcessed + 1]. *)
Inductive Event : Type :=
| EvFetch (pageNo : Z) (request : Fetch.Request) (result : Fetch.Result)
| EvSleep (ms : Z)
| EvWarn (pageNo : Z) (pageError : Exn).

(* ================================================================= *)
(** ** The result *)

Record ApiEndpointResponse : Type := {
  extractedData : string;
  (* metadata *)
  m_url : string;
  m_method : Method.t;
  m_responseFormat : ResponseFormat;
  statusCode : Z;
  responseSize : Z;
  m_pagesProcessed : Z;
  (* performance *)
  p_rateLimitHit : bool;
  p_retryCount : Z;
  (* apiInfo *)
  hasAuthentication : bool;
  responseHeaders : list (string * string);
  contentType : string;
  dataStructure : string;
  recordCount : Z
}.

(** The [metadata] of the failure body of [POST]. *)
Record FailureMetadata : Type := {
  f_url : string;
  f_method : Method.t;
  f_responseFormat : ResponseFormat;
  f_statusCode : Z;
  f_responseSize : Z;
  f_pagesProcessed : Z
}.

Inductive JsonBody : Type :=
| ResultBody (result : ApiEndpointResponse)
| ErrorBody (error : string) (details : option string) (metadata : option FailureMetadata).

(** [NextResponse.json(body, { status })] *)
Record NextResponse : Type := {
  httpStatus : Z;
  json_body : JsonBody
}.

(* ================================================================= *)
(** ** [performApiExtraction] *)

(** The header set sent with every page: the caller's headers, the
    authentication header when the credential of the selected mode is
    there, and the default content type. *)
Definition withAuthentication (a : Authentication) (requestHeaders : list (string * string))
  : list (string * string) :=
  match authType a with
  | api_key =>
      if Js.present (credential a apiKey) then
        Obj.assign (Js.orElse (credential a apiKeyHeader) "X-API-Key")
                   (Js.orElse (credential a apiKey) "") requestHeaders
      else requestHeaders
  | bearer =>
      if Js.present (credential a token) then
        Obj.set "Authorization" ("Bearer " ++ Js.orElse (credential a token) "") requestHeaders
      else requestHeaders
  | basic =>
      if Js.present (credential a username) && Js.present (credential a password) then
        Obj.set "Authorization"
                ("Basic " ++ Js.btoa (Js.orElse (credential a username) "" ++ ":"
                                     ++ Js.orElse (credential a password) ""))
                requestHeaders
      else requestHeaders
  | oauth =>
      if Js.present (credential a oauthToken) then
        Obj.set "Authorization" ("Bearer " ++ Js.orElse (credential a oauthToken) "")
                requestHeaders
      else requestHeaders
  | none => requestHeaders
  end.

Definition withContentType (m : Method.t) (b : option string)
  (requestHeaders : list (string * string)) : list (string * string) :=
  if Method.hasBody m && Js.present b
     && negb (Js.present (Obj.get "Content-Type" requestHeaders))
  then Obj.set "Content-Type" "application/json" requestHeaders
  else requestHeaders.

Definition buildRequestHeaders (o : Options) : list (string * string) :=
  withContentType (method o) (body o) (withAuthentication (authentication o) (headers o)).

(** The locals of [performApiExtraction] that the loop changes, the
    number of [fetch] calls made and the trace of effects. *)
Record LoopState : Type := {
  currentUrl : string;
  hasMorePages : bool;
  pagesProcessed : Z;
  retryCount : Z;
  rateLimitHit : bool;
  allData : list Value;
  finalStatusCode : Z;
  finalResponseHeaders : list (string * string);
  totalResponseSize : Z;
  calls : nat;
  trace : list Event
}.

Inductive Completion : Type :=
| Normal
| Continue
| Abrupt (e : Exn).

(** [pagination.maxPages || 10] *)
Definition effectiveMaxPages (p : Pagination) : Z :=
  match maxPages p with
  | Some 0%Z | None => 10%Z
  | Some n => n
  end.

Definition initialState (o : Options) : LoopState :=
  {| currentUrl := url o; hasMorePages := true; pagesProcessed := 0; retryCount := 0;
     rateLimitHit := false; allData := []; finalStatusCode := 200;
     finalResponseHeaders := []; totalResponseSize := 0; calls := 0; trace := [] |}.

(** [await fetch(...)] has been called and has settled. *)
Definition fetched (ev : Event) (st : LoopState) : LoopState :=
  {| currentUrl := currentUrl st; hasMorePages := hasMorePages st;
     pagesProcessed := pagesProcessed st; retryCount := retryCount st;
     rateLimitHit := rateLimitHit st; allData := allData st;
     finalStatusCode := finalStatusCode st;
     finalResponseHeaders := finalResponseHeaders st;
     totalResponseSize := totalResponseSize st;
     calls := S (calls st); trace := (trace st ++ [ev])%list |}.

(** [finalStatusCode = response.status; finalResponseHeaders = ...] *)
Definition received (r : Fetch.Response) (st : LoopState) : LoopState :=
  {| currentUrl := currentUrl st; hasMorePages := hasMorePages st;
     pagesProcessed := pagesProcessed st; retryCount := retryCount st;
     rateLimitHit := rateLimitHit st; allData := allData st;
     finalStatusCode := Fetch.status r;
     finalResponseHeaders := fromEntries (Fetch.entries r);
     totalResponseSize := totalResponseSize st;
     calls := calls st; trace := trace st |}.

(** [rateLimitHit = true], the 2000 ms wait, [retryCount++] *)
Definition rateLimited (st : LoopState) : LoopState :=
  {| currentUrl := currentUrl st; hasMorePages := hasMorePages st;
     pagesProcessed := pagesProcessed st; retryCount := (retryCount st + 1)%Z;
     rateLimitHit := true; allData := allData st;
     finalStatusCode := finalStatusCode st;
     finalResponseHeaders := finalResponseHeaders st;
     totalResponseSize := totalResponseSize st;
     calls := calls st; trace := (trace st ++ [EvSleep 2000])%list |}.

(** [totalResponseSize += ...; pagesProcessed++; allData.push(...)] *)
Definition processed (responseText : string) (parsedData : Value) (st : LoopState)
  : LoopState :=
  {| currentUrl := currentUrl st; hasMorePages := hasMorePages st;
     pagesProcessed := (pagesProcessed st + 1)%Z; retryCount := retryCount st;
     rateLimitHit := rateLimitHit st;
     allData := (allData st ++ pageRecords parsedData)%list;
     finalStatusCode := finalStatusCode st;
     finalResponseHeaders := finalResponseHeaders st;
     totalResponseSize := (totalResponseSize st + Z.of_nat (String.length responseText))%Z;
     calls := calls st; trace := trace st |}.

(** [currentUrl = nextUrl] *)
Definition movedTo (nextUrl : string) (st : LoopState) : LoopState :=
  {| currentUrl := nextUrl; hasMorePages := hasMorePages st;
     pagesProcessed := pagesProcessed st; retryCount := retryCount st;
     rateLimitHit := rateLimitHit st; allData := allData st;
     finalStatusCode := finalStatusCode st;
     finalResponseHeaders := finalResponseHeaders st;
     totalResponseSize := totalResponseSize st;
     calls := calls st; trace := trace st |}.

(** [hasMorePages = false] *)
Definition stopped (st : LoopState) : LoopState :=
  {| currentUrl := currentUrl st; hasMorePages := false;
     pagesProcessed := pagesProcessed st; retryCount := retryCount st;
     rateLimitHit := rateLimitHit st; allData := allData st;
     finalStatusCode := finalStatusCode st;
     finalResponseHeaders := finalResponseHeaders st;
     totalResponseSize := totalResponseSize st;
     calls := calls st; trace := trace st |}.

(** [console.warn(`Failed to fetch page ${pagesProcessed + 1}:`, pageError)] *)
Definition warned (pageError : Exn) (st : LoopState) : LoopState :=
  {| currentUrl := currentUrl st; hasMorePages := hasMorePages st;
     pagesProcessed := pagesProcessed st; retryCount := retryCount st;
     rateLimitHit := rateLimitHit st; allData := allData st;
     finalStatusCode := finalStatusCode st;
     finalResponseHeaders := finalResponseHeaders st;
     totalResponseSize := totalResponseSize st;
     calls := calls st;
     trace := (trace st ++ [EvWarn (pagesProcessed st + 1) pageError])%list |}.

Section Extraction.
Variable P : Platform.
Variable W : World.
Variable o : Options.

Definition requestFor (st : LoopState) : Fetch.Request :=
  {| Fetch.url := currentUrl st;
     Fetch.method := method o;
     Fetch.headers := buildRequestHeaders o;
     Fetch.body := if Method.hasBody (method o) then body o else None;
     Fetch.timeout := timeout o |}.

(** The pagination step after a page has been processed. *)
Definition paginate (response : Fetch.Response) (parsedData : Value) (st : LoopState)
  : LoopState :=
  if enabled (pagination o) && (pagesProcessed st <? effectiveMaxPages (pagination o))%Z then
    match getNextPageUrl P (Fetch.entries response) parsedData (pagination o) (currentUrl st) with
    | Some nextUrl =>
        if negb (String.eqb nextUrl "") && negb (String.eqb nextUrl (currentUrl st))
        then movedTo nextUrl st
        else stopped st
    | None => stopped st
    end
  else stopped st.

(** The body of the [try] of one turn of the loop. *)
Definition tryPage (st : LoopState) : LoopState * Completion :=
  let request := requestFor st in
  let result := W (calls st) request in
  let st1 := fetched (EvFetch (pagesProcessed st + 1) request result) st in
  match result with
  | Fetch.Rejected m => (st1, Abrupt (FetchRejected m))
  | Fetch.Responded response =>
      let st2 := received response st1 in
      if negb (Fetch.ok response) then
        if (Fetch.status response =? 429)%Z then
          let st3 := rateLimited st2 in
          if (retryCount st3 <? 3)%Z then (st3, Continue)
          else (st3, Abrupt (RequestFailed (Fetch.status response) (Fetch.statusText response)))
        else (st2, Abrupt (RequestFailed (Fetch.status response) (Fetch.statusText response)))
      else
        match Fetch.text response with
        | Fetch.BodyFails m => (st2, Abrupt (FetchRejected m))
        | Fetch.Text responseText =>
            let parsedData := parseApiResponse P responseText (responseFormat o) (dataMapping o) in
            (paginate response parsedData (processed responseText parsedData st2), Normal)
        end
  end.

(** One turn of the loop: the [try] and its [catch (pageError)]. *)
Definition iteration (st : LoopState) : LoopState * Completion :=
  match tryPage st with
  | (st1, Abrupt pageError) =>
      if (pagesProcessed st1 =? 0)%Z then (st1, Abrupt pageError)
      else (stopped (warned pageError st1), Normal)
  | other => other
  end.

(** [hasMorePages && pagesProcessed < maxPages] *)
Definition guard (st : LoopState) : bool :=
  hasMorePages st && (pagesProcessed st <? effectiveMaxPages (pagination o))%Z.

(** The [while] loop; [None] when the fuel runs out before it ends. *)
Fixpoint loop (fuel : nat) (st : LoopState) : option (LoopState * Completion) :=
  if guard st then
    match fuel with
    | O => None
    | S fuel' =>
        match iteration st with
        | (st', Abrupt e) => Some (st', Abrupt e)
        | (st', _) => loop fuel' st'
        end
    end
  else Some (st, Normal).

(** Turns that are enough for every run (see [loop_total]). *)
Definition enoughFuel : nat := (Z.to_nat (effectiveMaxPages (pagination o)) + 4)%nat.

Definition isNone (a : AuthType) : bool :=
  match a with none => true | _ => false end.

(** The result object built after the loop. *)
Definition buildResult (st : LoopState) (formattedData : string) : ApiEndpointResponse :=
  {| extractedData := formattedData;
     m_url := url o;
     m_method := method o;
     m_responseFormat := responseFormat o;
     statusCode := finalStatusCode st;
     responseSize := totalResponseSize st;
     m_pagesProcessed := pagesProcessed st;
     p_rateLimitHit := rateLimitHit st;
     p_retryCount := retryCount st;
     hasAuthentication := negb (isNone (authType (authentication o)));
     responseHeaders := finalResponseHeaders st;
     contentType := Js.orElse (Obj.get "content-type" (finalResponseHeaders st)) "unknown";
     dataStructure := analyzeDataStructure (allData st);
     recordCount := Z.of_nat (List.length (allData st)) |}.

(** What follows the loop: rendering, which may throw, and the result. *)
Definition finish (st : LoopState) : Outcome ApiEndpointResponse :=
  match formatExtractedData (allData st) (responseFormat o) with
  | Throws e => Throws e
  | Returns formattedData => Returns (buildResult st formattedData)
  end.

(** [performApiExtraction]: the last state of its locals, with the
    trace, and how the promise settles. *)
Definition performApiExtraction : option (LoopState * Outcome ApiEndpointResponse) :=
  match loop enoughFuel (initialState o) with
  | None => None
  | Some (st, Abrupt e) => Some (st, Throws e)
  | Some (st, _) => Some (st, finish st)
  end.

End Extraction.

(* ================================================================= *)
(** ** The route handler [POST] *)

Definition defaultAuthentication : Authentication :=
  {| authType := none; credentials := None |}.

Definition defaultPagination : Pagination :=
  {| enabled := false; type := None; pageParam := None; limitParam := None;
     maxPages := None |}.

Definition withDefault {A : Type} (x : option A) (d : A) : A :=
  match x with Some a => a | None => d end.

(** The destructuring of the request body with its defaults. *)
Definition optionsOf (r : Request.t) : Options :=
  {| url := Request.url r;
     method := withDefault (Request.method r) Method.GET;
     headers := withDefault (Request.headers r) [];
     body := Request.body r;
     authentication := withDefault (Request.authentication r) defaultAuthentication;
     responseFormat := withDefault (Request.responseFormat r) json;
     dataMapping := Request.dataMapping r;
     pagination := withDefault (Request.pagination r) defaultPagination;
     timeout := withDefault (Request.timeout r) 30000%Z |}.

Definition badRequest (error : string) : NextResponse :=
  {| httpStatus := 400; json_body := ErrorBody error None None |}.

Definition extractionFailed (o : Options) (apiError : Exn) : NextResponse :=
  {| httpStatus := 500;
     json_body :=
       ErrorBody "API extraction failed" (Some (message apiError))
         (Some {| f_url := url o; f_method := method o;
                  f_responseFormat := responseFormat o;
                  f_statusCode := 0; f_responseSize := 0; f_pagesProcessed := 0 |}) |}.

Definition isHttp (u : Url) : bool :=
  String.eqb (protocol u) "http:" || String.eqb (protocol u) "https:".

(** The answer of the outer [catch]. *)
Definition processingFailed (error : Exn) : NextResponse :=
  {| httpStatus := 500;
     json_body :=
       ErrorBody "Failed to process API endpoint request" (Some (message error)) None |}.

(** The handler once the body has been read: the three checks of the URL,
    then the extraction in its own [try]. *)
Definition handle (P : Platform) (W : World) (r : Request.t)
  : option (list Event * NextResponse) :=
  if String.eqb (Request.url r) "" || (String.length (Js.trim (Request.url r)) =? 0)%nat
  then Some ([], badRequest "API endpoint URL is required")
  else
    match URL_parse P (Request.url r) with
    | None => Some ([], badRequest "Invalid API endpoint URL format")
    | Some validUrl =>
        if negb (isHttp validUrl)
        then Some ([], badRequest "Only HTTP and HTTPS URLs are allowed")
        else
          match performApiExtraction P W (optionsOf r) with
          | None => None
          | Some (st, Returns result) =>
              Some (trace st, {| httpStatus := 200; json_body := ResultBody result |})
          | Some (st, Throws apiError) =>
              Some (trace st, extractionFailed (optionsOf r) apiError)
          end
    end.

(** [POST]: the trace of the effects of the call and the response.  An
    exception of the statement that reads the body goes to the outer
    [catch]. *)
Definition POST (P : Platform) (W : World) (request : NextRequest)
  : option (list Event * NextResponse) :=
  match request with
  | Readable r => handle P W r
  | Unreadable error => Some ([], processingFailed error)
  end.

(* ================================================================= *)
(** ** Vocabulary of the properties *)

(** The lines, the header row and the cells of a line, as
    [parseCsvResponse] computes them. *)
Definition csvLines (csvText : string) : list string :=
  Js.split "010" (Js.trim csvText).

Definition csvCells (line : string) : list string :=
  map cleanCell (Js.split "," line).

Definition csvHeaders (csvText : string) : list string :=
  match csvLines csvText with
  | line0 :: _ => csvCells line0
  | [] => []
  end.

(** A cell value that is a string free of commas and double quotes. *)
Definition cleanValue (v : Value) : Prop :=
  exists s, v = VStr s /\ Js.occurs "," s = false /\ Js.occurs "034" s = false.

(** The CSV body of the specification: three lines. *)
Definition csvExample : string :=
  "name,age" ++ nl ++ "Alice,30" ++ nl ++ "Bob,25".

(** The headers a and __proto__, and a line of one cell. *)
Definition csvProtoExample : string := "a,__proto__" ++ nl ++ "1".

(** A header row and a row whose first cell is quoted and holds a comma. *)
Definition csvQuotedExample : string :=
  "a,b,c" ++ nl ++ String "034" ("x,y" ++ String "034" ",z").

(** The loop over [xml.children] of [xmlToJson], as a fold. *)
Definition convertChildren (children : list Element) (result : option (list (string * Value)))
  : option (list (string * Value)) :=
  fold_left (fun result child =>
               match result, xmlToJson child with
               | Some r, Some converted => addChild (tagName child) converted r
               | _, _ => None
               end) children result.

(** No element of the tree has a child named as [Object.prototype] names
    a member. *)
Fixpoint plainTags (e : Element) : bool :=
  match e with
  | Elem _ _ children _ =>
      forallb (fun child => negb (Obj.inherited (tagName child)) && plainTags child) children
  end.

(** The blocks of the records of a sample, numbered from [i + 1]. *)
Definition recordBlocks (i : nat) (sample : list Value) : list string :=
  map (fun ir => renderRecord (fst ir) (snd ir)) (combine (seq i (List.length sample)) sample).

Definition appendAll (blocks : list string) : string :=
  fold_right String.append "" blocks.

(** The rendering of [sixRecords] in the text format. *)
Definition sixRecordsRendering : string :=
  "API ENDPOINT EXTRACTION RESULTS" ++ nl
  ++ "Records Extracted: 6" ++ nl
  ++ "Response Format: TEXT" ++ nl ++ nl
  ++ "EXTRACTED DATA - Showing 5 of 6 records:" ++ nl
  ++ nl ++ "Record 1:" ++ nl ++ "r1"
  ++ nl ++ "Record 2:" ++ nl ++ "r2"
  ++ nl ++ "Record 3:" ++ nl ++ "r3"
  ++ nl ++ "Record 4:" ++ nl ++ "r4"
  ++ nl ++ "Record 5:" ++ nl ++ "r5"
  ++ nl ++ nl ++ "... and 1 more records (truncated for display)".

(** Six text records. *)
Definition sixRecords : list Value :=
  [VStr "r1"; VStr "r2"; VStr "r3"; VStr "r4"; VStr "r5"; VStr "r6"].

(** The XML body of the specification and its DOM tree. *)
Definition xmlExampleText : string := "<root><item>1</item><item>2</item></root>".

Definition xmlExampleTree : Element :=
  Elem "root" [] [Elem "item" [] [] "1"; Elem "item" [] [] "2"] "12".

(** What the specification expects under [item], and what [xmlToJson] puts there. *)
Definition xmlExpectedBySpec : Value := VArr [VStr "1"; VStr "2"].

Definition xmlDecoded : Value :=
  VObj [("item", VArr [VObj [("#text", VStr "1")]; VObj [("#text", VStr "2")]])].

(** A credential of the selected mode is missing (or empty). *)
Definition missingCredential (a : Authentication) : bool :=
  match authType a with
  | none => false
  | api_key => negb (Js.present (credential a apiKey))
  | bearer => negb (Js.present (credential a token))
  | basic => negb (Js.present (credential a username) && Js.present (credential a password))
  | oauth => negb (Js.present (credential a oauthToken))
  end.

Definition statusOfEvent (ev : Event) : option Z :=
  match ev with
  | EvFetch _ _ (Fetch.Responded r) => Some (Fetch.status r)
  | _ => None
  end.

(** The status of the last response of a trace; [initial] without one. *)
Definition lastStatus (tr : list Event) (initial : Z) : Z :=
  fold_left (fun acc ev => match statusOfEvent ev with Some s => s | None => acc end)
            tr initial.

(** *** The loop, one attempt at a time *)

Section Semantics.
Variable P : Platform.
Variable W : World.
Variable o : Options.

(** The [fetch] call of the turn that starts in [st], with its result. *)
Definition thisFetch (st : LoopState) : Event :=
  EvFetch (pagesProcessed st + 1) (requestFor o st) (W (calls st) (requestFor o st)).

(** The ways through the [try] of one turn: the state it leaves and how
    it completes. *)
Inductive Attempt (st : LoopState) : LoopState -> Completion -> Prop :=
| attempt_rejected (m : string) :
    W (calls st) (requestFor o st) = Fetch.Rejected m ->
    Attempt st (fetched (thisFetch st) st) (Abrupt (FetchRejected m))
| attempt_refused (r : Fetch.Response) :
    W (calls st) (requestFor o st) = Fetch.Responded r ->
    Fetch.ok r = false ->
    Fetch.status r <> 429%Z ->
    Attempt st (received r (fetched (thisFetch st) st))
            (Abrupt (RequestFailed (Fetch.status r) (Fetch.statusText r)))
| attempt_retry (r : Fetch.Response) :
    W (calls st) (requestFor o st) = Fetch.Responded r ->
    Fetch.status r = 429%Z ->
    (retryCount st + 1 < 3)%Z ->
    Attempt st (rateLimited (received r (fetched (thisFetch st) st))) Continue
| attempt_exhausted (r : Fetch.Response) :
    W (calls st) (requestFor o st) = Fetch.Responded r ->
    Fetch.status r = 429%Z ->
    (3 <= retryCount st + 1)%Z ->
    Attempt st (rateLimited (received r (fetched (thisFetch st) st)))
            (Abrupt (RequestFailed (Fetch.status r) (Fetch.statusText r)))
| attempt_body_fails (r : Fetch.Response) (m : string) :
    W (calls st) (requestFor o st) = Fetch.Responded r ->
    Fetch.ok r = true ->
    Fetch.text r = Fetch.BodyFails m ->
    Attempt st (received r (fetched (thisFetch st) st)) (Abrupt (FetchRejected m))
| attempt_page (r : Fetch.Response) (responseText : string) :
    W (calls st) (requestFor o st) = Fetch.Responded r ->
    Fetch.ok r = true ->
    Fetch.text r = Fetch.Text responseText ->
    Attempt st
      (paginate P o r (parseApiResponse P responseText (responseFormat o) (dataMapping o))
         (processed responseText
            (parseApiResponse P responseText (responseFormat o) (dataMapping o))
            (received r (fetched (thisFetch st) st))))
      Normal.

(** The state after [n] whole turns of the loop, none of which threw. *)
Fixpoint after (n : nat) (st : LoopState) : option LoopState :=
  match n with
  | O => Some st
  | S n' =>
      if guard o st then
        match iteration P W o st with
        | (_, Abrupt _) => None
        | (st', _) => after n' st'
        end
      else None
  end.

(** A bound on the turns the loop still makes from [st]. *)
Definition turnsLeft (st : LoopState) : nat :=
  if guard o st
  then (Z.to_nat (effectiveMaxPages (pagination o) - pagesProcessed st)
        + Z.to_nat (3 - retryCount st) + 1)%nat
  else 0%nat.

(** The page bound: the counter stays between 0 and the page limit (or 0
    when the limit is negative), and every call was made for a page within
    the limit. *)
Definition withinPages (st : LoopState) : Prop :=
  (0 <= pagesProcessed st <= Z.max 0 (effectiveMaxPages (pagination o)))%Z
  /\ forall n request result,
       In (EvFetch n request result) (trace st) ->
       (1 <= n /\ n - 1 < effectiveMaxPages (pagination o))%Z.

(** The records of the page an event brought, if it brought one. *)
Definition pageOfEvent (ev : Event) : list (list Value) :=
  match ev with
  | EvFetch _ _ (Fetch.Responded r) =>
      if Fetch.ok r then
        match Fetch.text r with
        | Fetch.Text responseText =>
            [pageRecords (parseApiResponse P responseText (responseFormat o) (dataMapping o))]
        | Fetch.BodyFails _ => []
        end
      else []
  | _ => []
  end.

(** The pages of a trace, in the order of their arrival. *)
Definition pagesOf (tr : list Event) : list (list Value) := flat_map pageOfEvent tr.

(** What the loop keeps true of the status, the data and the counter:
    they are those of the trace. *)
Definition tracksTrace (st : LoopState) : Prop :=
  finalStatusCode st = lastStatus (trace st) 200
  /\ allData st = List.concat (pagesOf (trace st))
  /\ pagesProcessed st = Z.of_nat (List.length (pagesOf (trace st))).

End Semantics.

Definition isWarning (ev : Event) : bool :=
  match ev with EvWarn _ _ => true | _ => false end.

(** The parameter names and readings of the [offset] case. *)
Definition offsetName (p : Pagination) : string := Js.orElse (pageParam p) "offset".
Definition limitName (p : Pagination) : string := Js.orElse (limitParam p) "limit".

Definition offsetOf (p : Pagination) (u : Url) : Js.Number :=
  Js.parseInt (Js.orElse (SearchParams.get (offsetName p) (searchParams u)) "0").

Definition limitOf (p : Pagination) (u : Url) : Js.Number :=
  Js.parseInt (Js.orElse (SearchParams.get (limitName p) (searchParams u)) "10").

(** The URL of page [k + 1] when page 1 has the URL [u0]. *)
Fixpoint urlSeq (p : Pagination) (u0 : Url) (k : nat) : Url :=
  match k with
  | O => u0
  | S k' => nextOffsetUrl p (urlSeq p u0 k')
  end.

(** Offset pagination as the property states it: every call of the trace
    was made to a URL whose offset reads (page number - 1) * limit. *)
Definition offsetsFollow (P : Platform) (p : Pagination) (L : Z) (tr : list Event) : Prop :=
  forall n request result,
    In (EvFetch n request result) tr ->
    exists u,
      URL_parse P (Fetch.url request) = Some u
      /\ offsetOf p u = Js.Int ((n - 1) * L)
      /\ limitOf p u = Js.Int L.

(** The text of the URL of page [k + 1] under the [offset] strategy: the
    URL of the options for page 1, and for the others what the platform
    writes for the URL the code computes. *)
Definition offsetUrlText (P : Platform) (o : Options) (u0 : Url) (k : nat) : string :=
  match k with
  | O => url o
  | S _ => URL_toString P (urlSeq (pagination o) u0 k)
  end.

(** Every call of the trace was made for a page within the limit, to the
    URL of that page. *)
Definition callsFollow (limit : Z) (urlOf : nat -> string) (tr : list Event) : Prop :=
  forall n request result,
    In (EvFetch n request result) tr ->
    (1 <= n /\ n - 1 < limit)%Z /\ Fetch.url request = urlOf (Z.to_nat (n - 1)).

(** The page numbers of the calls of a trace, in the order of the calls. *)
Definition pagesAsked (tr : list Event) : list Z :=
  flat_map (fun ev => match ev with EvFetch n _ _ => [n] | _ => [] end) tr.

(** A network that answers every call with a page. *)
Definition everyCallBringsAPage (W : World) : Prop :=
  forall n request,
    exists r responseText,
      W n request = Fetch.Responded r
      /\ Fetch.ok r = true
      /\ Fetch.text r = Fetch.Text responseText.

(** What the loop keeps true when [urlOf] lists the URLs of the pages:
    the calls made so far went to them, and while the loop goes on the
    current URL is that of the page to come. *)
Definition chainInvariant (o : Options) (urlOf : nat -> string) (st : LoopState) : Prop :=
  callsFollow (effectiveMaxPages (pagination o)) urlOf (trace st)
  /\ (guard o st = true ->
      exists k, pagesProcessed st = Z.of_nat k /\ currentUrl st = urlOf k).

(** What it keeps true, besides, when every call brings a page: the loop
    is left only at the page limit, and the pages were asked for one after
    the other, once each. *)
Definition chainProgress (o : Options) (urlOf : nat -> string) (st : LoopState) : Prop :=
  chainInvariant o urlOf st
  /\ (0 <= pagesProcessed st <= Z.max 0 (effectiveMaxPages (pagination o)))%Z
  /\ (hasMorePages st = true \/ (effectiveMaxPages (pagination o) <= pagesProcessed st)%Z)
  /\ pagesAsked (trace st) = map Z.of_nat (seq 1 (Z.to_nat (pagesProcessed st))).

(** The URL passes the three checks of [POST]. *)
Definition acceptsUrl (P : Platform) (u : string) : bool :=
  negb (String.eqb u "" || (String.length (Js.trim u) =? 0)%nat)
  && match URL_parse P u with
     | Some validUrl => isHttp validUrl
     | None => false
     end.

(** The same options and the same request without authentication. *)
Definition withoutAuthentication (o : Options) : Options :=
  {| url := url o; method := method o; headers := headers o; body := body o;
     authentication := defaultAuthentication;
     responseFormat := responseFormat o; dataMapping := dataMapping o;
     pagination := pagination o; timeout := timeout o |}.

Definition requestWithoutAuthentication (r : Request.t) : Request.t :=
  {| Request.url := Request.url r; Request.method := Request.method r;
     Request.headers := Request.headers r; Request.body := Request.body r;
     Request.authentication := None;
     Request.responseFormat := Request.responseFormat r;
     Request.dataMapping := Request.dataMapping r;
     Request.pagination := Request.pagination r;
     Request.timeout := Request.timeout r |}.

Definition withHasAuthentication (b : bool) (r : ApiEndpointResponse) : ApiEndpointResponse :=
  {| extractedData := extractedData r; m_url := m_url r; m_method := m_method r;
     m_responseFormat := m_responseFormat r; statusCode := statusCode r;
     responseSize := responseSize r; m_pagesProcessed := m_pagesProcessed r;
     p_rateLimitHit := p_rateLimitHit r; p_retryCount := p_retryCount r;
     hasAuthentication := b; responseHeaders := responseHeaders r;
     contentType := contentType r; dataStructure := dataStructure r;
     recordCount := recordCount r |}.

(** The response that differs only by reporting authentication. *)
Definition reportingAuthentication (resp : NextResponse) : NextResponse :=
  match json_body resp with
  | ResultBody result =>
      {| httpStatus := httpStatus resp;
         json_body := ResultBody (withHasAuthentication true result) |}
  | ErrorBody _ _ _ => resp
  end.

(** A function of the result that tells whether a page failed during
    the run: what a warning flag of the result would be. *)
Definition WarningFlag (warn : ApiEndpointResponse -> bool) : Prop :=
  forall (P : Platform) (W : World) (o : Options) (st : LoopState)
         (result : ApiEndpointResponse),
    performApiExtraction P W o = Some (st, Returns result) ->
    (warn result = true <-> existsb isWarning (trace st) = true).

(* ================================================================= *)
(** ** A small platform and small worlds, to run the model *)

Module Example.

(** The text before the first [sep], and the text after it if there is one. *)
Fixpoint splitFirst (sep : ascii) (s : string) : string * option string :=
  match s with
  | EmptyString => (EmptyString, None)
  | String c s' =>
      if Ascii.eqb c sep then (EmptyString, Some s')
      else let (before, after) := splitFirst sep s' in (String c before, after)
  end.

Definition parseQuery (q : string) : list (string * string) :=
  match q with
  | EmptyString => []
  | _ => map (fun kv => let (k, v) := splitFirst "=" kv in (k, withDefault v ""))
             (Js.split "&" q)
  end.

(** A URL of the shape scheme:rest?query#fragment, read without any
    normalisation or decoding. *)
Definition parseUrl (s : string) : option Url :=
  let (beforeHash, fragment) := splitFirst "#" s in
  let (beforeQuery, query) := splitFirst "?" beforeHash in
  match splitFirst ":" beforeQuery with
  | (String c scheme, Some rest) =>
      Some {| protocol := String c scheme ++ ":";
              location := rest;
              searchParams := parseQuery (withDefault query "");
              hash := match fragment with Some f => "#" ++ f | None => "" end |}
  | _ => None
  end.

Definition showUrl (u : Url) : string :=
  protocol u ++ location u
  ++ match searchParams u with
     | [] => ""
     | ps => "?" ++ Js.join "&" (map (fun kv => fst kv ++ "=" ++ snd kv) ps)
     end
  ++ hash u.

(** Two JSON texts and what they parse to: a page of two items, and a
    page that names a cursor. *)
Definition itemsText : string :=
  "{" ++ String "034" ("items" ++ String "034" ":[1,2]}").

Definition itemsValue : Value := VObj [("items", VArr [VNum 1; VNum 2])].

Definition cursorText : string :=
  "{" ++ String "034" ("next_cursor" ++ String "034" ":7}").

Definition cursorValue : Value := VObj [("next_cursor", VNum 7)].

(** The platform of the examples.  Its JSON parser knows the two texts
    above. *)
Definition platform : Platform :=
  {| URL_parse := parseUrl;
     URL_toString := showUrl;
     JSON_parse :=
       fun s => if String.eqb s itemsText then Some itemsValue
                else if String.eqb s cursorText then Some cursorValue
                else None |}.

Definition respond (status : Z) (statusText : string) (responseText : string)
  : Fetch.Result :=
  Fetch.Responded
    {| Fetch.status := status; Fetch.statusText := statusText;
       Fetch.entries := [("content-type", "text/plain")];
       Fetch.text := Fetch.Text responseText |}.

(** Every call is answered 429. *)
Definition alwaysRateLimited : World :=
  fun _ _ => respond 429 "Too Many Requests" "".

(** Every call is answered 200 with the same text. *)
Definition alwaysOk : World :=
  fun _ _ => respond 200 "OK" "hello".

(** Every call is answered 200 with the JSON page of two items. *)
Definition itemsWorld : World :=
  fun _ _ => respond 200 "OK" itemsText.

(** The first call is answered 200, the next ones are refused. *)
Definition secondCallRejected : World :=
  fun n _ => match n with
             | O => respond 200 "OK" "hello"
             | _ => Fetch.Rejected "fetch failed"
             end.

(** The first call is answered 200, the next ones 500. *)
Definition secondCallFails : World :=
  fun n _ => match n with
             | O => respond 200 "OK" "hello"
             | _ => respond 500 "Internal Server Error" "oops"
             end.

(** Every call is answered 200 with the XML body of the specification. *)
Definition xmlWorld : World :=
  fun _ _ => respond 200 "OK" xmlExampleText.

Definition options (u : string) (a : Authentication) (p : Pagination) : Options :=
  {| url := u; method := Method.GET; headers := []; body := None;
     authentication := a; responseFormat := text; dataMapping := None;
     pagination := p; timeout := 30000 |}.

Definition request (u : string) (a : option Authentication) (p : option Pagination)
  : Request.t :=
  {| Request.url := u; Request.method := None; Request.headers := None;
     Request.body := None; Request.authentication := a;
     Request.responseFormat := Some text; Request.dataMapping := None;
     Request.pagination := p; Request.timeout := None |}.

(** One page in the XML format, without pagination. *)
Definition xmlOnePage : Options :=
  {| url := "http://api.test/items"; method := Method.GET; headers := []; body := None;
     authentication := defaultAuthentication; responseFormat := xml; dataMapping := None;
     pagination := defaultPagination; timeout := 30000 |}.

(** Two pages by offset from a URL whose limit is 2^53 + 1. *)
Definition bigLimitUrl : string := "http://api.test/items?limit=9007199254740993".

Definition offsetPages (n : Z) : Pagination :=
  {| enabled := true; type := Some offset; pageParam := None; limitParam := None;
     maxPages := Some n |}.

Definition bearerWithoutToken : Authentication :=
  {| authType := bearer; credentials := None |}.

Definition itemsUrl : string := "http://api.test/items".

(** Three pages by offset, without authentication. *)
Definition threePages : Options :=
  options itemsUrl defaultAuthentication (offsetPages 3).

(** Two pages by offset, and one page without pagination. *)
Definition twoPages : Options :=
  options itemsUrl defaultAuthentication (offsetPages 2).

Definition onePage : Options :=
  options itemsUrl defaultAuthentication defaultPagination.

Definition bigLimitPages : Options :=
  options bigLimitUrl defaultAuthentication (offsetPages 2).

End Example.

(* ================================================================= *)
(** ** Further vocabulary *)

(** The time waited along a trace, in milliseconds. *)
Definition totalDelay (tr : list Event) : Z :=
  fold_left (fun acc ev => match ev with EvSleep ms => (acc + ms)%Z | _ => acc end) tr 0%Z.

(** The number of waits along a trace. *)
Definition waits (tr : list Event) : Z :=
  fold_left (fun acc ev => match ev with EvSleep _ => (acc + 1)%Z | _ => acc end) tr 0%Z.

(** The number of [fetch] calls along a trace. *)
Definition fetchCalls (tr : list Event) : Z :=
  fold_left (fun acc ev => match ev with EvFetch _ _ _ => (acc + 1)%Z | _ => acc end) tr 0%Z.

(** The length of the text an event brought, for the event of a page. *)
Definition sizeOfEvent (ev : Event) : Z :=
  match ev with
  | EvFetch _ _ (Fetch.Responded r) =>
      if Fetch.ok r then
        match Fetch.text r with
        | Fetch.Text responseText => Z.of_nat (String.length responseText)
        | Fetch.BodyFails _ => 0%Z
        end
      else 0%Z
  | _ => 0%Z
  end.

Definition sizeOfPages (tr : list Event) : Z :=
  fold_left (fun acc ev => (acc + sizeOfEvent ev)%Z) tr 0%Z.

(** What the loop keeps true of the retry counter in every state: the
    counter is between 0 and 3, it counts the waits, each wait is of
    2000 ms, the flag tells whether there was one, every call of the trace
    is counted, and there are at most three calls more than pages. *)
Definition retriesBounded (st : LoopState) : Prop :=
  (0 <= retryCount st <= 3)%Z
  /\ waits (trace st) = retryCount st
  /\ totalDelay (trace st) = (2000 * retryCount st)%Z
  /\ rateLimitHit st = (0 <? retryCount st)%Z
  /\ fetchCalls (trace st) = Z.of_nat (calls st)
  /\ (Z.of_nat (calls st) <= pagesProcessed st + 3)%Z.

(** What it keeps true while the loop goes on: every call so far brought
    a page or a 429 answer that is retried. *)
Definition retriesOpen (o : Options) (st : LoopState) : Prop :=
  retriesBounded st
  /\ (guard o st = true ->
      (retryCount st <= 2)%Z
      /\ Z.of_nat (calls st) = (pagesProcessed st + retryCount st)%Z).

(** No page yet and the loop open, or one page and the loop closed. *)
Definition onePageOnly (st : LoopState) : Prop :=
  (pagesProcessed st = 0%Z /\ hasMorePages st = true)
  \/ (pagesProcessed st = 1%Z /\ hasMorePages st = false).

(** [data.next_cursor] when [data] is an object and the cursor is truthy. *)
Definition nextCursor (data : Value) : option Value :=
  match data with
  | VObj props =>
      match Obj.get "next_cursor" props with
      | Some c => if truthy c then Some c else None
      | None => None
      end
  | _ => None
  end.

(** Pagination by cursor, five pages at most. *)
Definition cursorPages : Pagination :=
  {| enabled := true; type := Some cursor; pageParam := None; limitParam := None;
     maxPages := Some 5%Z |}.

(** A request for JSON pages under that pagination. *)
Definition cursorJsonOptions : Options :=
  {| url := Example.itemsUrl; method := Method.GET; headers := []; body := None;
     authentication := defaultAuthentication; responseFormat := json;
     dataMapping := None; pagination := cursorPages; timeout := 30000 |}.

(** A string of white space only. *)
Fixpoint allWhiteSpace (s : string) : bool :=
  match s with
  | EmptyString => true
  | String c s' => Js.isWhiteSpace c && allWhiteSpace s'
  end.

(** A Link header that names [target] as the next page: text without [<],
    the target between [<] and [>], a semicolon, white space, the relation
    next, and whatever follows. *)
Definition linkHeaderFor (before target space rest : string) : string :=
  before ++ "<" ++ target ++ ">;" ++ space ++ relNext ++ rest.

(** The parameter name and the reading of the [page] case. *)
Definition pageName (p : Pagination) : string := Js.orElse (pageParam p) "page".

Definition pageNumOf (p : Pagination) (u : Url) : Js.Number :=
  Js.parseInt (Js.orElse (SearchParams.get (pageName p) (searchParams u)) "1").

(** The URL of page [k + 1] under the [page] strategy when page 1 has the
    URL [u0]. *)
Fixpoint pageSeq (p : Pagination) (u0 : Url) (k : nat) : Url :=
  match k with
  | O => u0
  | S k' => nextPageNumUrl p (pageSeq p u0 k')
  end.

(** Every call of the trace was made to a URL whose page parameter reads
    the number of the page asked for. *)
Definition pageNumbersFollow (P : Platform) (p : Pagination) (tr : list Event) : Prop :=
  forall n request result,
    In (EvFetch n request result) tr ->
    exists u, URL_parse P (Fetch.url request) = Some u /\ pageNumOf p u = Js.Int n.

(** The text of the URL of page [k + 1] under the [page] strategy. *)
Definition pageUrlText (P : Platform) (o : Options) (u0 : Url) (k : nat) : string :=
  match k with
  | O => url o
  | S _ => URL_toString P (pageSeq (pagination o) u0 k)
  end.

(** Pagination by page number, three pages at most. *)
Definition numberedPages : Pagination :=
  {| enabled := true; type := Some page; pageParam := None; limitParam := None;
     maxPages := Some 3%Z |}.

Definition numberedOptions : Options :=
  Example.options Example.itemsUrl defaultAuthentication numberedPages.

(** What [xmlToJson] keeps under a tag name for the converted children of
    that name: nothing, the one value, or the sequence of two or more. *)
Definition groupValue (vs : list Value) : option Value :=
  match vs with
  | [] => None
  | [v] => Some v
  | _ :: _ :: _ => Some (VArr vs)
  end.

(** The children of a given tag name, in document order. *)
Definition childrenNamed (name : string) (children : list Element) : list Element :=
  filter (fun child => String.eqb (tagName child) name) children.

(** An element with two attributes, a text child and three children of
    two names. *)
Definition xmlMixedTree : Element :=
  Elem "order" [("id", "7"); ("lang", "en")]
    [Elem "line" [] [] "a"; Elem "note" [("by", "x")] [] "n"; Elem "line" [] [] "b"]
    "anb".

(** A record, without the key [__proto__], made of declared output keys
    only, each holding the value the item has under the source key
    declared for it. *)
Definition projectionOf (fs : list (string * string)) (item : Value)
  (mapped : list (string * Value)) : Prop :=
  mapped <> []
  /\ Obj.get "__proto__" mapped = None
  /\ forall k v,
       Obj.get k mapped = Some v ->
       exists oldKey, In (k, oldKey) fs /\ getIn oldKey item = Some v.

(** The read of [k] in [v] is a read of own properties: [k] is an own
    property of the object [v], or no name that [Object.prototype] gives
    it; and for an array, [k] is [length] or an index.  There [hasIn] and
    [getIn] are the operator [in] and the read [v[k]] of the code. *)
Definition ownRead (k : string) (v : Value) : bool :=
  match v with
  | VObj props => Obj.has k props || negb (Obj.inherited k)
  | VArr _ =>
      String.eqb k "length"
      || match Obj.arrayIndex k with Some _ => true | None => false end
  | _ => true
  end.

(** The value [v] under the keys, each the one own key of an object. *)
Fixpoint nest (keys : list string) (v : Value) : Value :=
  match keys with
  | [] => v
  | k :: rest => VObj [(k, nest rest v)]
  end.

(** The rest of [extractDataFromJson] once the root has been reached. *)
Definition applyFields (dm : DataMapping) (current : Value) : Value :=
  match fields dm, current with
  | Some fs, VArr items => VArr (map (mapItem fs) items)
  | _, _ => current
  end.

(** A mapping that renames two keys, and a page to apply it to. *)
Definition renameMapping : DataMapping :=
  {| rootPath := Some "data.items";
     fields := Some [("title", "name"); ("years", "age")] |}.

Definition nestedPage : Value :=
  VObj [("data",
         VObj [("items",
                VArr [VObj [("name", VStr "Alice"); ("age", VNum 30); ("x", VNull)];
                      VObj [("other", VBool true)];
                      VNum 5])])].

(** The size counter is the total length of the texts of the pages. *)
Definition tracksSize (st : LoopState) : Prop :=
  totalResponseSize st = sizeOfPages (trace st).

Definition isNull (v : Value) : bool :=
  match v with VNull => true | _ => false end.

(** The datasets on which the summary of the JSON branch throws: the
    first record is [null], or it has a truthy [userId] and some record
    is [null]. *)
Definition summaryFails (data : list Value) : bool :=
  match data with
  | VNull :: _ => true
  | VObj props :: _ =>
      match Obj.get "userId" props with
      | Some c => truthy c && existsb isNull data
      | None => false
      end
  | _ => false
  end.

Definition throws {A : Type} (out : Outcome A) : bool :=
  match out with Throws _ => true | Returns _ => false end.

(** Twenty-five records that are the same text. *)
Definition twentyFiveRecords : list Value := repeat (VStr "r") 25.

(** Six records, the first of which is [null]. *)
Definition nullFirstRecords : list Value :=
  [VNull; VNum 1; VNum 2; VNum 3; VNum 4; VNum 5].

(** The name of the header of the api-key mode. *)
Definition apiKeyHeaderName (a : Authentication) : string :=
  Js.orElse (credential a apiKeyHeader) "X-API-Key".

(** A request with a bearer token and headers of the caller's own,
    among them an Authorization header and one in lower case. *)
Definition bearerOverCaller : Options :=
  {| url := Example.itemsUrl; method := Method.POST;
     headers := [("Accept", "text/csv"); ("Authorization", "Basic old");
                 ("authorization", "Basic low")];
     body := Some "{}";
     authentication :=
       {| authType := bearer;
          credentials :=
            Some {| apiKey := None; apiKeyHeader := None; token := Some "t0k";
                    username := None; password := None; oauthToken := None |} |};
     responseFormat := text; dataMapping := None;
     pagination := defaultPagination; timeout := 30000 |}.

(** A request with an API key to be sent in a header named __proto__. *)
Definition protoKeyHeader : Options :=
  {| url := Example.itemsUrl; method := Method.GET;
     headers := [("Accept", "text/csv")];
     body := None;
     authentication :=
       {| authType := api_key;
          credentials :=
            Some {| apiKey := Some "k3y"; apiKeyHeader := Some "__proto__"; token := None;
                    username := None; password := None; oauthToken := None |} |};
     responseFormat := text; dataMapping := None;
     pagination := defaultPagination; timeout := 30000 |}.

(** The body the dashboard sends to the handler in its API endpoint mode. *)
Definition dashboardRequest (u : string) : Request.t :=
  {| Request.url := u;
     Request.method := Some Method.GET;
     Request.headers := None;
     Request.body := None;
     Request.authentication := Some {| authType := none; credentials := None |};
     Request.responseFormat := Some json;
     Request.dataMapping := None;
     Request.pagination :=
       Some {| enabled := false; type := None; pageParam := None; limitParam := None;
               maxPages := None |};
     Request.timeout := Some 30000%Z |}.

(** [response.ok] of the answer of the handler. *)
Definition answerOk (resp : NextResponse) : bool :=
  ((200 <=? httpStatus resp) && (httpStatus resp <=? 299))%Z.

(** What the dashboard throws, and then shows, when the answer is not ok:
    [errorData.error || 'API endpoint extraction failed']. *)
Definition dashboardError (resp : NextResponse) : option string :=
  if answerOk resp then None
  else Some (match json_body resp with
             | ErrorBody error _ _ => Js.orElse (Some error) "API endpoint extraction failed"
             | ResultBody _ => "API endpoint extraction failed"
             end).

(** Every call of the trace carried the method, the headers, the body and
    the time-out of the options. *)
Definition requestsUniform (o : Options) (tr : list Event) : Prop :=
  forall n request result,
    In (EvFetch n request result) tr ->
    Fetch.method request = method o
    /\ Fetch.headers request = buildRequestHeaders o
    /\ Fetch.body request = (if Method.hasBody (method o) then body o else None)
    /\ Fetch.timeout request = timeout o.

(** The header entries of the last response of a trace; none without one. *)
Definition lastEntries (tr : list Event) : list (string * string) :=
  fold_left (fun acc ev =>
               match ev with
               | EvFetch _ _ (Fetch.Responded r) => Fetch.entries r
               | _ => acc
               end) tr [].

(** The headers kept are those of the last response. *)
Definition tracksHeaders (st : LoopState) : Prop :=
  finalResponseHeaders st = fromEntries (lastEntries (trace st)).

(** The URL an event fetched a page from, if it brought one. *)
Definition pageUrlOfEvent (ev : Event) : list string :=
  match ev with
  | EvFetch _ request (Fetch.Responded r) =>
      if Fetch.ok r then
        match Fetch.text r with
        | Fetch.Text _ => [Fetch.url request]
        | Fetch.BodyFails _ => []
        end
      else []
  | _ => []
  end.

(** The URLs of the pages of a trace, in the order of their arrival. *)
Definition pageUrls (tr : list Event) : list string := flat_map pageUrlOfEvent tr.

(** No two neighbours of a list are the same. *)
Fixpoint noRepeat (urls : list string) : Prop :=
  match urls with
  | a :: ((b :: _) as rest) => a <> b /\ noRepeat rest
  | _ => True
  end.

(** The pages so far came from URLs that change from each page to the
    next, and while the loop goes on the current URL is not that of the
    page fetched last. *)
Definition urlsAdvance (o : Options) (st : LoopState) : Prop :=
  noRepeat (pageUrls (trace st))
  /\ (guard o st = true ->
      forall before lastUrl,
        pageUrls (trace st) = (before ++ [lastUrl])%list -> currentUrl st <> lastUrl).

(* ================================================================= *)
(** * Properties *)

(** ** Strings *)

Module JsFacts.
Import Js.

Lemma split_not_nil (sep : ascii) (s : string) : split sep s <> [].
Proof.
  destruct s as [|c s]; simpl; [discriminate|].
  destruct (Ascii.eqb c sep); [discriminate|].
  destruct (split sep s); discriminate.
Qed.

Lemma split_cells_free (sep : ascii) (s cell : string) :
  In cell (split sep s) -> occurs sep cell = false.
Proof.
  revert cell; induction s as [|c s IH]; simpl; intros cell Hin.
  - destruct Hin as [<-|[]]; reflexivity.
  - destruct (Ascii.eqb c sep) eqn:Ec.
    + destruct Hin as [<-|Hin]; [reflexivity|auto].
    + destruct (split sep s) as [|c0 rest] eqn:Es.
      * destruct Hin as [<-|[]]; simpl; rewrite Ec; reflexivity.
      * destruct Hin as [<-|Hin].
        -- simpl; rewrite Ec; simpl; apply IH; left; reflexivity.
        -- apply IH; right; exact Hin.
Qed.

Lemma occurs_trimStart (x : ascii) (s : string) :
  occurs x s = false -> occurs x (trimStart s) = false.
Proof.
  induction s as [|c s IH]; simpl; intros H; [reflexivity|].
  apply orb_false_iff in H as [Hc Hs].
  destruct (isWhiteSpace c); [auto|].
  simpl; rewrite Hc, Hs; reflexivity.
Qed.

Lemma occurs_trimEnd (x : ascii) (s : string) :
  occurs x s = false -> occurs x (trimEnd s) = false.
Proof.
  induction s as [|c s IH]; simpl; intros H; [reflexivity|].
  apply orb_false_iff in H as [Hc Hs].
  specialize (IH Hs).
  destruct (trimEnd s) as [|d t].
  - destruct (isWhiteSpace c); simpl; [reflexivity|rewrite Hc; reflexivity].
  - simpl in *; rewrite Hc; exact IH.
Qed.

Lemma occurs_trim (x : ascii) (s : string) :
  occurs x s = false -> occurs x (trim s) = false.
Proof. intros H; apply occurs_trimEnd, occurs_trimStart, H. Qed.

Lemma occurs_removeAll_same (x : ascii) (s : string) : occurs x (removeAll x s) = false.
Proof.
  induction s as [|c s IH]; simpl; [reflexivity|].
  destruct (Ascii.eqb c x) eqn:Ec; [exact IH|].
  simpl; rewrite Ec; exact IH.
Qed.

Lemma occurs_removeAll_other (x y : ascii) (s : string) :
  occurs y s = false -> occurs y (removeAll x s) = false.
Proof.
  induction s as [|c s IH]; simpl; intros H; [reflexivity|].
  apply orb_false_iff in H as [Hc Hs].
  destruct (Ascii.eqb c x); [auto|].
  simpl; rewrite Hc; auto.
Qed.

Lemma append_assoc (a b c : string) : (a ++ b) ++ c = a ++ (b ++ c).
Proof. induction a as [|x a IH]; simpl; [reflexivity|rewrite IH; reflexivity]. Qed.

Lemma append_empty (s : string) : s ++ "" = s.
Proof. induction s as [|x s IH]; simpl; [reflexivity|rewrite IH; reflexivity]. Qed.

End JsFacts.

(** ** Objects *)

Module ObjFacts.
Import Obj.

Section Facts.
Context {A : Type}.
Implicit Types (o : list (string * A)) (k : string) (v : A).

Lemma get_replace_same k v o : has k o = true -> get k (replace k v o) = Some v.
Proof.
  unfold has; induction o as [|[k' v'] o IH]; simpl; [discriminate|].
  destruct (String.eqb k' k) eqn:E; simpl; rewrite E; auto.
Qed.

Lemma get_replace_other k k' v o : k' <> k -> get k' (replace k v o) = get k' o.
Proof.
  intros Hne; induction o as [|[k0 v0] o IH]; simpl; [reflexivity|].
  destruct (String.eqb k0 k) eqn:E; simpl.
  - apply String.eqb_eq in E; subst k0.
    apply not_eq_sym, String.eqb_neq in Hne; rewrite Hne; reflexivity.
  - rewrite IH; reflexivity.
Qed.

Lemma get_insertIndex_same n k v o :
  get k o = None -> get k (insertIndex n k v o) = Some v.
Proof.
  induction o as [|[k0 v0] o IH]; simpl; intros Hnone.
  - rewrite String.eqb_refl; reflexivity.
  - destruct (String.eqb k0 k) eqn:E; [discriminate|].
    destruct (arrayIndex k0) as [m|]; [destruct (n <? m)%N|]; simpl;
      rewrite ?String.eqb_refl, ?E; auto.
Qed.

Lemma get_insertIndex_other n k k' v o :
  k' <> k -> get k' (insertIndex n k v o) = get k' o.
Proof.
  intros Hne; apply not_eq_sym, String.eqb_neq in Hne.
  induction o as [|[k0 v0] o IH]; simpl.
  - rewrite Hne; reflexivity.
  - destruct (arrayIndex k0) as [m|]; [destruct (n <? m)%N|]; simpl;
      rewrite ?Hne, ?IH; reflexivity.
Qed.

Lemma get_app_same k v o : get k o = None -> get k (o ++ [(k, v)])%list = Some v.
Proof.
  induction o as [|[k0 v0] o IH]; simpl; intros Hnone.
  - rewrite String.eqb_refl; reflexivity.
  - destruct (String.eqb k0 k); [discriminate|auto].
Qed.

Lemma get_app_other k k' v o : k' <> k -> get k' (o ++ [(k, v)])%list = get k' o.
Proof.
  intros Hne; apply not_eq_sym, String.eqb_neq in Hne.
  induction o as [|[k0 v0] o IH]; simpl.
  - rewrite Hne; reflexivity.
  - rewrite IH; reflexivity.
Qed.

(** Reading back what was written. *)
Lemma get_set_same k v o : get k (set k v o) = Some v.
Proof.
  unfold set; destruct (has k o) eqn:Hhas.
  - apply get_replace_same, Hhas.
  - assert (Hnone : get k o = None)
      by (unfold has in Hhas; destruct (get k o); [discriminate|reflexivity]).
    destruct (arrayIndex k).
    + apply get_insertIndex_same, Hnone.
    + apply get_app_same, Hnone.
Qed.

(** Writing a key leaves the other keys alone. *)
Lemma get_set_other k k' v o : k' <> k -> get k' (set k v o) = get k' o.
Proof.
  intros Hne; unfold set; destruct (has k o).
  - apply get_replace_other, Hne.
  - destruct (arrayIndex k).
    + apply get_insertIndex_other, Hne.
    + apply get_app_other, Hne.
Qed.

Lemma In_replace k v o k' v' :
  In (k', v') (replace k v o) -> v' = v \/ In (k', v') o.
Proof.
  induction o as [|[k0 v0] o IH]; simpl; [tauto|].
  destruct (String.eqb k0 k); simpl.
  - intros [H|H]; [left; congruence|right; right; exact H].
  - intros [H|H]; [right; left; exact H|].
    destruct (IH H); [left|right; right]; assumption.
Qed.

Lemma In_insertIndex n k v o k' v' :
  In (k', v') (insertIndex n k v o) -> v' = v \/ In (k', v') o.
Proof.
  induction o as [|[k0 v0] o IH]; simpl.
  - intros [H|[]]; left; congruence.
  - destruct (arrayIndex k0) as [m|]; [destruct (n <? m)%N|]; simpl.
    + intros [H|H]; [left; congruence|right; exact H].
    + intros [H|H]; [right; left; exact H|].
      destruct (IH H); [left|right; right]; assumption.
    + intros [H|H]; [left; congruence|right; exact H].
Qed.

(** Every property of [set k v o] is the new one or was in [o]. *)
Lemma In_set k v o k' v' : In (k', v') (set k v o) -> v' = v \/ In (k', v') o.
Proof.
  unfold set; destruct (has k o).
  - apply In_replace.
  - destruct (arrayIndex k).
    + apply In_insertIndex.
    + intros H; apply in_app_or in H as [H|[H|[]]]; [right; exact H|left; congruence].
Qed.

Lemma has_set k k' v o : has k' (set k v o) = String.eqb k' k || has k' o.
Proof.
  unfold has at 1 2.
  destruct (String.eqb k' k) eqn:E.
  - apply String.eqb_eq in E; subst k'; rewrite get_set_same; reflexivity.
  - apply String.eqb_neq in E; rewrite (get_set_other _ _ _ _ E); reflexivity.
Qed.

(** An assignment creates or changes the own property, but for the
    accessor [__proto__]. *)
Lemma assign_set k v o :
  k <> "__proto__" \/ has k o = true -> assign k v o = set k v o.
Proof.
  intros [Hk|Hhas]; unfold assign.
  - apply String.eqb_neq in Hk; rewrite Hk; reflexivity.
  - rewrite Hhas, andb_false_r; reflexivity.
Qed.

Lemma assign_proto v o : has "__proto__" o = false -> assign "__proto__" v o = o.
Proof. intros Hhas; unfold assign; rewrite Hhas; reflexivity. Qed.

Lemma get_assign_same k v o : k <> "__proto__" -> get k (assign k v o) = Some v.
Proof. intros Hk; rewrite assign_set by (left; exact Hk); apply get_set_same. Qed.

Lemma get_assign_other k k' v o : k' <> k -> get k' (assign k v o) = get k' o.
Proof.
  intros Hne; unfold assign.
  destruct (String.eqb k "__proto__" && negb (has k o)); [reflexivity|].
  apply get_set_other, Hne.
Qed.

Lemma In_assign k v o k' v' : In (k', v') (assign k v o) -> v' = v \/ In (k', v') o.
Proof.
  unfold assign.
  destruct (String.eqb k "__proto__" && negb (has k o)); [auto|apply In_set].
Qed.

Lemma has_assign k k' v o :
  has k' (assign k v o)
  = (String.eqb k' k && negb (String.eqb k "__proto__")) || has k' o.
Proof.
  unfold assign.
  destruct (String.eqb_spec k "__proto__") as [->|Hk]; cbn [andb negb].
  - rewrite andb_false_r; cbn [orb].
    destruct (has "__proto__" o) eqn:Hhas; cbn [negb]; [|reflexivity].
    rewrite has_set.
    destruct (String.eqb_spec k' "__proto__") as [->|_]; [rewrite Hhas|]; reflexivity.
  - rewrite andb_true_r; apply has_set.
Qed.

End Facts.
End ObjFacts.

(** ** CSV decoding *)

Module CsvFacts.

Lemma cellAt_short (values : list string) (i : nat) :
  (List.length values <= i)%nat -> cellAt values i = "".
Proof.
  intros H; unfold cellAt.
  rewrite (proj2 (nth_error_None values i) H); reflexivity.
Qed.

Lemma fillRow_other (values headers : list string) :
  forall index row k,
    ~ In k headers ->
    Obj.get k (fillRow values index headers row) = Obj.get k row.
Proof.
  induction headers as [|h hs IH]; simpl; intros index row k Hk; [reflexivity|].
  rewrite IH by tauto.
  apply ObjFacts.get_assign_other; intros ->; tauto.
Qed.

(** A header that does not come again later gets the cell of its column. *)
Lemma fillRow_last (values headers : list string) :
  forall index row i header,
    header <> "__proto__" ->
    nth_error headers i = Some header ->
    (forall j, (i < j)%nat -> nth_error headers j <> Some header) ->
    Obj.get header (fillRow values index headers row)
    = Some (VStr (cellAt values (index + i))).
Proof.
  induction headers as [|h hs IH]; intros index row [|i] header Hproto Hi Hlast;
    simpl in *; try discriminate.
  - injection Hi as ->.
    rewrite fillRow_other.
    + rewrite ObjFacts.get_assign_same, Nat.add_0_r by exact Hproto; reflexivity.
    + intros Hin; apply In_nth_error in Hin as [j Hj].
      apply (Hlast (S j)); [lia|exact Hj].
  - rewrite (IH (S index) _ i header Hproto Hi).
    + f_equal; f_equal; f_equal; lia.
    + intros j Hj; apply (Hlast (S j)); lia.
Qed.

(** A header whose column the row does not reach gets the empty string. *)
Lemma fillRow_fill (values headers : list string) :
  forall index row i header,
    header <> "__proto__" ->
    nth_error headers i = Some header ->
    (List.length values <= index + i)%nat ->
    Obj.get header (fillRow values index headers row) = Some (VStr "").
Proof.
  induction headers as [|h hs IH]; intros index row [|i] header Hproto Hi Hlen;
    simpl in *; try discriminate.
  - injection Hi as ->.
    destruct (in_dec string_dec header hs) as [Hin|Hout].
    + apply In_nth_error in Hin as [j Hj].
      apply (IH (S index) _ j header Hproto Hj); lia.
    + rewrite fillRow_other by exact Hout.
      rewrite ObjFacts.get_assign_same, cellAt_short by (exact Hproto || lia); reflexivity.
  - apply (IH (S index) _ i header Hproto Hi); lia.
Qed.

(** The keys of a row: the headers, but for [__proto__]. *)
Lemma fillRow_has (values headers : list string) :
  forall index row k,
    Obj.has k (fillRow values index headers row) = true
    <-> (In k headers /\ k <> "__proto__") \/ Obj.has k row = true.
Proof.
  induction headers as [|h hs IH]; simpl; intros index row k; [tauto|].
  rewrite IH, ObjFacts.has_assign, orb_true_iff, andb_true_iff, negb_true_iff,
    String.eqb_eq, String.eqb_neq.
  intuition congruence.
Qed.

Lemma cleanCell_clean (line cell : string) :
  In cell (Js.split "," line) -> cleanValue (VStr (cleanCell cell)).
Proof.
  intros Hin; exists (cleanCell cell); split; [reflexivity|]; unfold cleanCell; split.
  - apply JsFacts.occurs_removeAll_other, JsFacts.occurs_trim.
    exact (JsFacts.split_cells_free _ _ _ Hin).
  - apply JsFacts.occurs_removeAll_same.
Qed.

Lemma cellAt_clean (line : string) (i : nat) :
  cleanValue (VStr (cellAt (map cleanCell (Js.split "," line)) i)).
Proof.
  unfold cellAt.
  destruct (nth_error (map cleanCell (Js.split "," line)) i) as [c|] eqn:E.
  - apply nth_error_In, in_map_iff in E as [cell [<- Hcell]].
    destruct (cleanCell_clean _ _ Hcell) as [s [Hs Hfree]].
    destruct (cleanCell cell) as [|a r] eqn:Ec; simpl.
    + exists ""; repeat split; reflexivity.
    + exists s; split; [exact Hs|exact Hfree].
  - exists ""; repeat split; reflexivity.
Qed.

Lemma fillRow_clean (line : string) (headers : list string) :
  forall index row,
    (forall k v, In (k, v) row -> cleanValue v) ->
    forall k v,
      In (k, v) (fillRow (map cleanCell (Js.split "," line)) index headers row) ->
      cleanValue v.
Proof.
  induction headers as [|h hs IH]; simpl; intros index row Hrow k v Hin; [eauto|].
  apply (IH _ _ ) in Hin; [exact Hin|].
  intros k' v' Hin'.
  apply ObjFacts.In_assign in Hin' as [->|Hin']; [apply cellAt_clean|eauto].
Qed.

End CsvFacts.

Lemma parseCsvResponse_rows (csvText : string) :
  parseCsvResponse csvText = map (csvRow (csvHeaders csvText)) (tl (csvLines csvText)).
Proof.
  unfold parseCsvResponse, csvHeaders, csvLines, csvCells.
  destruct (Js.split "010" (Js.trim csvText)); reflexivity.
Qed.

(** C6.  The CSV body of the specification decodes to its two records, in
    order.  For every CSV text there is one record per line after the
    first, and the keys of each record are the cells of the first line
    other than __proto__: a header other than __proto__ (at its last
    position) maps to the cell of its column, and to the empty string
    when the line does not reach its column.  The header __proto__ gets no
    key at all: the line 1 under the headers a and __proto__ decodes to
    the record of the one key a, without the empty string the
    specification promises for the missing cell. *)
Theorem csv_header_row_and_fill :
  parseCsvResponse csvExample
  = [ VObj [("name", VStr "Alice"); ("age", VStr "30")];
      VObj [("name", VStr "Bob"); ("age", VStr "25")] ]
  /\ (forall csvText : string,
         List.length (parseCsvResponse csvText) = (List.length (csvLines csvText) - 1)%nat
         /\ forall (r : nat) (line : string),
              nth_error (csvLines csvText) (S r) = Some line ->
              exists row,
                nth_error (parseCsvResponse csvText) r = Some (VObj row)
                /\ (forall k, Obj.has k row = true
                               <-> In k (csvHeaders csvText) /\ k <> "__proto__")
                /\ (forall i header,
                       header <> "__proto__" ->
                       nth_error (csvHeaders csvText) i = Some header ->
                       (forall j, (i < j)%nat ->
                                  nth_error (csvHeaders csvText) j <> Some header) ->
                       Obj.get header row = Some (VStr (cellAt (csvCells line) i)))
                /\ (forall i header,
                       header <> "__proto__" ->
                       nth_error (csvHeaders csvText) i = Some header ->
                       (List.length (csvCells line) <= i)%nat ->
                       Obj.get header row = Some (VStr "")))
  /\ csvHeaders csvProtoExample = ["a"; "__proto__"]
  /\ parseCsvResponse csvProtoExample = [ VObj [("a", VStr "1")] ].
Proof.
  split; [reflexivity|].
  split; [|split; reflexivity].
  intros csvText; rewrite parseCsvResponse_rows; split.
  - rewrite length_map; destruct (csvLines csvText); simpl; lia.
  - intros r line Hline.
    exists (fillRow (csvCells line) 0 (csvHeaders csvText) []).
    repeat split.
    + rewrite nth_error_map.
      destruct (csvLines csvText) as [|l0 ls]; [discriminate|].
      simpl in *; rewrite Hline; reflexivity.
    + destruct (proj1 (CsvFacts.fillRow_has _ _ _ _ _) H) as [H'|H'];
        [apply H'|discriminate].
    + destruct (proj1 (CsvFacts.fillRow_has _ _ _ _ _) H) as [H'|H'];
        [apply H'|discriminate].
    + intros H; apply (proj2 (CsvFacts.fillRow_has _ _ _ _ _)); left; exact H.
    + intros i header Hproto Hi Hlast.
      apply (CsvFacts.fillRow_last _ _ 0%nat _ _ _ Hproto Hi Hlast).
    + intros i header Hproto Hi Hshort.
      apply (CsvFacts.fillRow_fill _ _ 0%nat _ _ _ Hproto Hi); simpl; exact Hshort.
Qed.

(** C10.  For every CSV text, every record is an object and every value
    in it is a string with no comma and no double quote; and the line
    whose first cell is the quoted text x,y gives the three cells
    x, y and z. *)
Theorem csv_cells_have_no_comma_no_quote :
  (forall (csvText : string) (record : Value),
      In record (parseCsvResponse csvText) ->
      exists row, record = VObj row
                  /\ forall k v, In (k, v) row -> cleanValue v)
  /\ parseCsvResponse csvQuotedExample
     = [ VObj [("a", VStr "x"); ("b", VStr "y"); ("c", VStr "z")] ].
Proof.
  split; [|reflexivity].
  intros csvText record Hin.
  rewrite parseCsvResponse_rows in Hin.
  apply in_map_iff in Hin as [line [<- _]].
  eexists; split; [reflexivity|].
  intros k v Hkv.
  apply (CsvFacts.fillRow_clean line (csvHeaders csvText) 0%nat []
           (fun _ _ H => match H with end) k v Hkv).
Qed.

(** ** XML decoding *)

Module XmlFacts.

(** Induction on a tree: a property of an element follows from the
    property of its children. *)
Lemma Element_induction (Q : Element -> Prop) :
  (forall tag attrs children text,
      Forall Q children -> Q (Elem tag attrs children text)) ->
  forall e, Q e.
Proof.
  intros Hstep; fix IH 1; intros [tag attrs children text].
  apply Hstep.
  induction children as [|child children IHchildren]; constructor;
    [apply IH|exact IHchildren].
Qed.

Lemma convertChildren_none (children : list Element) :
  convertChildren children None = None.
Proof. induction children as [|child children IH]; [reflexivity|exact IH]. Qed.

Lemma convertChildren_cons (child : Element) (children : list Element)
  (result : list (string * Value)) :
  convertChildren (child :: children) (Some result)
  = match xmlToJson child with
    | Some converted =>
        convertChildren children (addChild (tagName child) converted result)
    | None => None
    end.
Proof.
  unfold convertChildren at 1; cbn [fold_left].
  destruct (xmlToJson child) as [converted|]; [reflexivity|].
  apply convertChildren_none.
Qed.

Lemma xmlToJson_children (tag : string) (attrs : list (string * string))
  (c : Element) (cs : list Element) (text : string) :
  xmlToJson (Elem tag attrs (c :: cs) text)
  = option_map VObj
      (convertChildren (c :: cs)
         (Some match attrs with
               | [] => []
               | _ :: _ => Obj.set "@attributes" (VObj (attributesObject attrs)) []
               end)).
Proof.
  assert (Heach : forall children result,
             (fix each (cs : list Element) (result : option (list (string * Value))) :=
                match cs with
                | [] => result
                | child :: cs' =>
                    each cs'
                      match result, xmlToJson child with
                      | Some r, Some converted => addChild (tagName child) converted r
                      | _, _ => None
                      end
                end) children result
             = convertChildren children result).
  { induction children as [|child children IH]; intros result; [reflexivity|].
    simpl; rewrite IH; reflexivity. }
  cbn [xmlToJson]; f_equal; exact (Heach (c :: cs) _).
Qed.

(** What the conversion returns is an object. *)
Lemma xmlToJson_object (e : Element) (v : Value) :
  xmlToJson e = Some v -> exists props, v = VObj props.
Proof.
  destruct e as [tag attrs [|c cs] text].
  - intros H; injection H as <-; eexists; reflexivity.
  - rewrite xmlToJson_children.
    destruct (convertChildren _ _) as [r|]; [|discriminate].
    intros H; injection H as <-; eexists; reflexivity.
Qed.

Lemma convertChildren_plain (children : list Element) :
  forall result,
    Forall (fun child => Obj.inherited (tagName child) = false
                         /\ exists v, xmlToJson child = Some v) children ->
    exists r, convertChildren children (Some result) = Some r.
Proof.
  induction children as [|child children IH]; intros result Hall.
  - eexists; reflexivity.
  - inversion Hall as [|? ? [Hname [v Hv]] Hrest]; subst.
    rewrite convertChildren_cons, Hv.
    unfold addChild; rewrite Hname.
    destruct (Obj.get (tagName child) result) as [existing|];
      [destruct (truthy existing); [destruct existing|]|]; apply IH; exact Hrest.
Qed.

(** The conversion is defined on a tree of plain tag names. *)
Lemma xmlToJson_plain (e : Element) :
  plainTags e = true -> exists v, xmlToJson e = Some v.
Proof.
  induction e as [tag attrs children text IH] using Element_induction.
  intros Hplain; destruct children as [|c cs]; [eexists; reflexivity|].
  rewrite xmlToJson_children.
  destruct (convertChildren_plain (c :: cs)
              match attrs with
              | [] => []
              | _ :: _ => Obj.set "@attributes" (VObj (attributesObject attrs)) []
              end) as [r Hr].
  - cbn [plainTags] in Hplain; rewrite forallb_forall in Hplain.
    rewrite Forall_forall in IH |- *.
    intros child Hin.
    pose proof (Hplain child Hin) as Hchild.
    apply andb_true_iff in Hchild as [Hname Hsub].
    split; [apply negb_true_iff; exact Hname|apply IH; assumption].
  - rewrite Hr; eexists; reflexivity.
Qed.

End XmlFacts.

(** C5 (a defect of the code).  Whatever the platform and the mapping, a
    body of the XML format is not decoded: it comes back as its text.  In
    a run that is answered the XML body of the specification, the data is
    one record, that text, and the result reports primitive values.  The
    conversion that is never reached would give, on the tree of that body,
    one record whose key item holds the two objects with the key #text,
    not the two strings. *)
Theorem xml_body_is_returned_as_text :
  (forall (P : Platform) (xmlText : string) (dm : option DataMapping),
      parseApiResponse P xmlText xml dm = VStr xmlText
      /\ pageRecords (parseApiResponse P xmlText xml dm) = [VStr xmlText])
  /\ (exists st result,
         performApiExtraction Example.platform Example.xmlWorld Example.xmlOnePage
         = Some (st, Returns result)
         /\ allData st = [VStr xmlExampleText]
         /\ recordCount result = 1%Z
         /\ dataStructure result = "Primitive values (string)")
  /\ xmlToJson xmlExampleTree = Some xmlDecoded
  /\ getIn "item" xmlDecoded
     = Some (VArr [VObj [("#text", VStr "1")]; VObj [("#text", VStr "2")]])
  /\ getIn "item" xmlDecoded <> Some xmlExpectedBySpec.
Proof.
  split; [intros P xmlText dm; split; reflexivity|].
  split; [eexists; eexists; split; [vm_compute; reflexivity|repeat split]|].
  repeat split; discriminate.
Qed.

(** ** Rendering *)

Module FormatFacts.

Lemma Returns_inj {A : Type} (a b : A) : Returns a = Returns b -> a = b.
Proof. intros H; congruence. Qed.

Lemma maxRecordsToShow_small (data : list Value) :
  (List.length data <= 20)%nat ->
  maxRecordsToShow data = Nat.min (List.length data) 5.
Proof.
  intros H; unfold maxRecordsToShow.
  destruct (Nat.ltb_spec 20 (List.length data)); [lia|reflexivity].
Qed.

Lemma maxRecordsToShow_large (data : list Value) :
  (20 < List.length data)%nat -> maxRecordsToShow data = 10%nat.
Proof.
  intros H; unfold maxRecordsToShow.
  destruct (Nat.ltb_spec 20 (List.length data)); [reflexivity|lia].
Qed.

Lemma maxRecordsToShow_le (data : list Value) :
  (maxRecordsToShow data <= List.length data)%nat.
Proof.
  unfold maxRecordsToShow.
  destruct (Nat.ltb_spec 20 (List.length data)); lia.
Qed.

Lemma length_sampleData (data : list Value) :
  List.length (sampleData data) = maxRecordsToShow data.
Proof.
  unfold sampleData; rewrite length_firstn.
  pose proof (maxRecordsToShow_le data); lia.
Qed.

(** The loop renders one block per record of the sample. *)
Lemma renderRecords_blocks (sample : list Value) :
  forall i, renderRecords i sample = appendAll (recordBlocks i sample).
Proof.
  induction sample as [|record rest IH]; intros i; [reflexivity|].
  simpl; rewrite IH; reflexivity.
Qed.

Lemma length_recordBlocks (i : nat) (sample : list Value) :
  List.length (recordBlocks i sample) = List.length sample.
Proof.
  unfold recordBlocks.
  rewrite length_map, length_combine, length_seq; lia.
Qed.

End FormatFacts.

(** C4 (as amended).  For every non-empty dataset of at most 20 records
    the formatter samples exactly min(recordCount, 5) records, the first
    ones.  Outside the JSON format the text is the header, one block per
    sampled record and, above five records, the notice of those left out.
    In the JSON format the text is the header and the array of the sampled
    records, which is the whole dataset up to five records; above five it
    is followed by the notice and the summary, and by nothing else; it
    throws only where the summary does. *)
Theorem formatter_samples_five_of_a_small_dataset
  (data : list Value) (format : ResponseFormat) :
  data <> [] ->
  (List.length data <= 20)%nat ->
  maxRecordsToShow data = Nat.min (List.length data) 5
  /\ sampleData data = firstn (Nat.min (List.length data) 5) data
  /\ List.length (sampleData data) = Nat.min (List.length data) 5
  /\ (isJson format = false ->
      formatExtractedData data format
      = Returns
          (clamp (formatHeader data format ++ "EXTRACTED DATA - " ++ showingLine data
                  ++ appendAll (recordBlocks 0 (sampleData data))
                  ++ (if (5 <? List.length data)%nat then truncationNotice data else "")))
      /\ List.length (recordBlocks 0 (sampleData data)) = Nat.min (List.length data) 5)
  /\ (isJson format = true ->
      ((List.length data <= 5)%nat ->
       formatExtractedData data format
       = Returns
           (clamp (formatHeader data format ++ "EXTRACTED DATA (JSON) - "
                   ++ showingLine data ++ Json.stringify (VArr data))))
      /\ ((5 < List.length data)%nat ->
          formatExtractedData data format
          = match datasetSummary data with
            | Returns summary =>
                Returns (clamp (formatHeader data format ++ "EXTRACTED DATA (JSON) - "
                                ++ showingLine data
                                ++ Json.stringify (VArr (firstn 5 data))
                                ++ truncationNotice data ++ summary))
            | Throws e => Throws e
            end)).
Proof.
  intros Hne Hsmall.
  pose proof (FormatFacts.maxRecordsToShow_small data Hsmall) as Hmax.
  assert (Hsample : sampleData data = firstn (Nat.min (List.length data) 5) data)
    by (unfold sampleData; rewrite Hmax; reflexivity).
  assert (Hlt : (maxRecordsToShow data <? List.length data)%nat
                = (5 <? List.length data)%nat).
  { rewrite Hmax.
    destruct (Nat.ltb_spec 5 (List.length data));
      destruct (Nat.ltb_spec (Nat.min (List.length data) 5) (List.length data));
      try reflexivity; lia. }
  split; [exact Hmax|].
  split; [exact Hsample|].
  split; [rewrite FormatFacts.length_sampleData; exact Hmax|].
  split.
  - intros Hfmt; split.
    + unfold formatExtractedData.
      destruct data as [|d data']; [congruence|].
      rewrite Hfmt, Hlt, FormatFacts.renderRecords_blocks.
      destruct (5 <? List.length (d :: data'))%nat.
      * rewrite !JsFacts.append_assoc; reflexivity.
      * rewrite JsFacts.append_empty; reflexivity.
    + rewrite FormatFacts.length_recordBlocks, FormatFacts.length_sampleData; exact Hmax.
  - intros Hfmt; split.
    + intros Hfive; unfold formatExtractedData.
      destruct data as [|d data']; [congruence|].
      rewrite Hfmt, Hlt, Hsample.
      destruct (Nat.ltb_spec 5 (List.length (d :: data'))); [lia|].
      rewrite Nat.min_l, firstn_all by exact Hfive.
      rewrite ?JsFacts.append_assoc; reflexivity.
    + intros Hmore; unfold formatExtractedData.
      destruct data as [|d data']; [congruence|].
      rewrite Hfmt, Hlt, Hsample.
      destruct (Nat.ltb_spec 5 (List.length (d :: data'))); [|lia].
      rewrite Nat.min_r by lia.
      destruct (datasetSummary (d :: data')) as [summary|e]; [|reflexivity].
      rewrite !JsFacts.append_assoc; reflexivity.
Qed.

Lemma formatter_samples_five_of_a_small_dataset_witness :
  exists summary out,
    datasetSummary sixRecords = Returns summary
    /\ formatExtractedData sixRecords json = Returns out
    /\ out = clamp (formatHeader sixRecords json ++ "EXTRACTED DATA (JSON) - "
                    ++ showingLine sixRecords
                    ++ Json.stringify (VArr (firstn 5 sixRecords))
                    ++ truncationNotice sixRecords ++ summary).
Proof.
  destruct (formatter_samples_five_of_a_small_dataset sixRecords json
              ltac:(discriminate) ltac:(cbn; lia)) as (_ & _ & _ & _ & Hjson).
  destruct (Hjson eq_refl) as [_ Hmore].
  specialize (Hmore ltac:(cbn; lia)).
  destruct (datasetSummary sixRecords) as [summary|e] eqn:Hsummary;
    [|vm_compute in Hsummary; discriminate Hsummary].
  exists summary; eexists; split; [reflexivity|]. split; [exact Hmore|reflexivity].
Defined.

(** C4, as stated, fails: of six records the formatter renders five, not
    min(6, 10) = 6. *)
Lemma six_records_render_five :
  formatExtractedData sixRecords text = Returns sixRecordsRendering
  /\ List.length (sampleData sixRecords) = 5%nat
  /\ List.length (sampleData sixRecords) <> Nat.min (List.length sixRecords) 10.
Proof. repeat split; vm_compute; discriminate. Qed.

(** ** The fetch loop *)

Section LoopFacts.
Variable P : Platform.
Variable W : World.
Variable o : Options.

Local Abbreviation M := (effectiveMaxPages (pagination o)).

Lemma tryPage_attempt (st : LoopState) :
  Attempt P W o st (fst (tryPage P W o st)) (snd (tryPage P W o st)).
Proof.
  unfold tryPage.
  change (EvFetch (pagesProcessed st + 1) (requestFor o st) (W (calls st) (requestFor o st)))
    with (thisFetch W o st).
  destruct (W (calls st) (requestFor o st)) as [r|m] eqn:Ew.
  - destruct (Fetch.ok r) eqn:Eok; cbn [negb].
    + destruct (Fetch.text r) as [responseText|m] eqn:Et.
      * exact (attempt_page P W o st r responseText Ew Eok Et).
      * exact (attempt_body_fails P W o st r m Ew Eok Et).
    + destruct (Z.eqb_spec (Fetch.status r) 429) as [E429|N429].
      * destruct (Z.ltb_spec (retryCount (rateLimited (received r (fetched (thisFetch W o st) st)))) 3)
          as [Hlt|Hge]; cbn [retryCount rateLimited received fetched] in *.
        -- exact (attempt_retry P W o st r Ew E429 Hlt).
        -- exact (attempt_exhausted P W o st r Ew E429 Hge).
      * exact (attempt_refused P W o st r Ew Eok N429).
  - exact (attempt_rejected P W o st m Ew).
Qed.

(** An attempt leaves the page counter, the data and the URL alone unless
    it brings a page. *)
Lemma attempt_without_page (st st1 : LoopState) (c : Completion) :
  Attempt P W o st st1 c ->
  c <> Normal ->
  pagesProcessed st1 = pagesProcessed st
  /\ allData st1 = allData st
  /\ currentUrl st1 = currentUrl st
  /\ hasMorePages st1 = hasMorePages st.
Proof.
  intros Ha Hc; destruct Ha; try (repeat split; reflexivity).
  congruence.
Qed.

(** What a property needs to hold along the loop. *)
Section Invariant.
Variable Inv : LoopState -> Prop.
Hypothesis Inv_attempt :
  forall st st1 c, Inv st -> guard o st = true -> Attempt P W o st st1 c -> Inv st1.
Hypothesis Inv_warned :
  forall st e, Inv st -> Inv (stopped (warned e st)).

Lemma iteration_invariant (st : LoopState) :
  Inv st -> guard o st = true -> Inv (fst (iteration P W o st)).
Proof.
  intros Hinv Hguard; unfold iteration.
  pose proof (Inv_attempt _ _ _ Hinv Hguard (tryPage_attempt st)) as H1.
  destruct (tryPage P W o st) as [st1 [| |e]]; cbn [fst snd] in *; try exact H1.
  destruct (pagesProcessed st1 =? 0)%Z; cbn [fst]; auto.
Qed.

Lemma loop_invariant (fuel : nat) :
  forall st r, Inv st -> loop P W o fuel st = Some r -> Inv (fst r).
Proof.
  induction fuel as [|fuel IH]; intros st r Hinv Hloop; simpl in Hloop.
  - destruct (guard o st); [discriminate|].
    injection Hloop as <-; exact Hinv.
  - destruct (guard o st) eqn:Hguard.
    + pose proof (iteration_invariant st Hinv Hguard) as Hnext.
      destruct (iteration P W o st) as [st' [| |e]]; cbn [fst] in Hnext.
      * exact (IH _ _ Hnext Hloop).
      * exact (IH _ _ Hnext Hloop).
      * injection Hloop as <-; exact Hnext.
    + injection Hloop as <-; exact Hinv.
Qed.

Lemma after_invariant (n : nat) :
  forall st st', Inv st -> after P W o n st = Some st' -> Inv st'.
Proof.
  induction n as [|n IH]; intros st st' Hinv Hafter; simpl in Hafter.
  - injection Hafter as <-; exact Hinv.
  - destruct (guard o st) eqn:Hguard; [|discriminate].
    pose proof (iteration_invariant st Hinv Hguard) as Hnext.
    destruct (iteration P W o st) as [st1 [| |e]]; cbn [fst] in Hnext;
      [eauto|eauto|discriminate].
Qed.

Lemma performApiExtraction_invariant (st : LoopState) (out : Outcome ApiEndpointResponse) :
  Inv (initialState o) ->
  performApiExtraction P W o = Some (st, out) ->
  Inv st.
Proof.
  intros Hinit Hrun; unfold performApiExtraction in Hrun.
  destruct (loop P W o (enoughFuel o) (initialState o)) as [[st' c]|] eqn:Hloop;
    [|discriminate].
  pose proof (loop_invariant _ _ _ Hinit Hloop) as H; cbn [fst] in H.
  destruct c; injection Hrun as <- _; exact H.
Qed.

End Invariant.

(** *** Termination *)

Lemma guard_true (st : LoopState) :
  guard o st = true -> hasMorePages st = true /\ (pagesProcessed st < M)%Z.
Proof.
  unfold guard; intros H; apply andb_true_iff in H as [H1 H2].
  split; [exact H1|apply Z.ltb_lt; exact H2].
Qed.

Lemma turnsLeft_stopped (st : LoopState) : turnsLeft o (stopped st) = 0%nat.
Proof. reflexivity. Qed.

Lemma turnsLeft_paginate (r : Fetch.Response) (parsedData : Value) (st : LoopState) :
  (turnsLeft o (paginate P o r parsedData st)
   <= Z.to_nat (M - pagesProcessed st) + Z.to_nat (3 - retryCount st) + 1)%nat.
Proof.
  unfold paginate.
  assert (Hst : (turnsLeft o st
                 <= Z.to_nat (M - pagesProcessed st) + Z.to_nat (3 - retryCount st) + 1)%nat)
    by (unfold turnsLeft; destruct (guard o st); lia).
  destruct (enabled (pagination o) && (pagesProcessed st <? M)%Z);
    [|rewrite turnsLeft_stopped; lia].
  destruct (getNextPageUrl P (Fetch.entries r) parsedData (pagination o) (currentUrl st))
    as [nextUrl|]; [|rewrite turnsLeft_stopped; lia].
  destruct (negb (nextUrl =? "") && negb (nextUrl =? currentUrl st));
    [|rewrite turnsLeft_stopped; lia].
  unfold turnsLeft, guard; cbn [movedTo hasMorePages pagesProcessed retryCount].
  destruct (hasMorePages st && (pagesProcessed st <? M)%Z); lia.
Qed.

Lemma iteration_decreases (st : LoopState) :
  guard o st = true ->
  (exists e, snd (iteration P W o st) = Abrupt e)
  \/ (turnsLeft o (fst (iteration P W o st)) < turnsLeft o st)%nat.
Proof.
  intros Hguard.
  destruct (guard_true st Hguard) as [Hmore Hlt].
  assert (Hleft : turnsLeft o st
                  = (Z.to_nat (M - pagesProcessed st) + Z.to_nat (3 - retryCount st) + 1)%nat)
    by (unfold turnsLeft; rewrite Hguard; reflexivity).
  unfold iteration.
  pose proof (tryPage_attempt st) as Ha.
  destruct (tryPage P W o st) as [st1 c]; cbn [fst snd] in Ha.
  destruct Ha.
  1, 2, 4, 5:
    match goal with
    | |- context [(pagesProcessed ?s =? 0)%Z] => destruct (pagesProcessed s =? 0)%Z
    end; cbn [fst snd]; [left; eexists; reflexivity|right; rewrite turnsLeft_stopped; lia].
  - right; cbn [fst].
    unfold turnsLeft at 1.
    unfold guard; cbn [rateLimited received fetched hasMorePages pagesProcessed retryCount].
    fold (guard o st); rewrite Hguard, Hleft; lia.
  - right; cbn [fst].
    match goal with
    | |- (turnsLeft o (paginate P o ?r ?d ?s) < _)%nat =>
        pose proof (turnsLeft_paginate r d s) as Hp
    end.
    cbn [processed received fetched pagesProcessed retryCount] in Hp.
    rewrite Hleft; lia.
Qed.

(** The loop ends when it is given the turns left, or more. *)
Lemma loop_terminates (fuel : nat) :
  forall st, (turnsLeft o st <= fuel)%nat -> exists r, loop P W o fuel st = Some r.
Proof.
  induction fuel as [|fuel IH]; intros st Hfuel; simpl.
  - destruct (guard o st) eqn:Hguard; [|eexists; reflexivity].
    unfold turnsLeft in Hfuel; rewrite Hguard in Hfuel; lia.
  - destruct (guard o st) eqn:Hguard; [|eexists; reflexivity].
    destruct (iteration_decreases st Hguard) as [[e He]|Hless];
      destruct (iteration P W o st) as [st' c]; cbn [fst snd] in *.
    + subst c; eexists; reflexivity.
    + destruct c; [apply IH; lia|apply IH; lia|eexists; reflexivity].
Qed.

Lemma turnsLeft_initial : (turnsLeft o (initialState o) <= enoughFuel o)%nat.
Proof.
  unfold turnsLeft, enoughFuel.
  destruct (guard o (initialState o)); cbn [initialState pagesProcessed retryCount]; lia.
Qed.

(** [performApiExtraction] always settles. *)
Lemma performApiExtraction_total :
  exists st out, performApiExtraction P W o = Some (st, out).
Proof.
  unfold performApiExtraction.
  destruct (loop_terminates _ _ turnsLeft_initial) as [[st c] Hloop].
  rewrite Hloop; destruct c; eexists; eexists; reflexivity.
Qed.

(** More fuel does not change a result. *)
Lemma loop_more_fuel (fuel : nat) :
  forall st r k, loop P W o fuel st = Some r -> loop P W o (fuel + k) st = Some r.
Proof.
  induction fuel as [|fuel IH]; intros st r k Hloop; simpl in Hloop.
  - destruct (guard o st) eqn:Hguard; [discriminate|].
    destruct k; simpl; rewrite Hguard; exact Hloop.
  - simpl; destruct (guard o st); [|exact Hloop].
    destruct (iteration P W o st) as [st' [| |e]]; auto.
Qed.

(** The loop goes through the states that [after] lists. *)
Lemma loop_after (n : nat) :
  forall st st' fuel,
    after P W o n st = Some st' ->
    loop P W o (n + fuel) st = loop P W o fuel st'.
Proof.
  induction n as [|n IH]; intros st st' fuel Hafter; simpl in Hafter.
  - injection Hafter as <-; reflexivity.
  - simpl; destruct (guard o st); [|discriminate].
    destruct (iteration P W o st) as [st1 [| |e]]; [auto|auto|discriminate].
Qed.

(** The result of the loop is the result from any state on its way. *)
Lemma loop_from_after (n : nat) (st : LoopState) (r : LoopState * Completion) :
  after P W o n (initialState o) = Some st ->
  (exists fuel, loop P W o fuel st = Some r) ->
  loop P W o (enoughFuel o) (initialState o) = Some r.
Proof.
  intros Hafter [fuel Hloop].
  destruct (loop_terminates _ _ turnsLeft_initial) as [r0 Hr0].
  pose proof (loop_more_fuel _ _ _ (n + fuel) Hr0) as H0.
  pose proof (loop_after n _ _ fuel Hafter) as H1.
  rewrite Hloop in H1.
  pose proof (loop_more_fuel _ _ _ (enoughFuel o) H1) as H2.
  replace (n + fuel + enoughFuel o)%nat with (enoughFuel o + (n + fuel))%nat in H2 by lia.
  congruence.
Qed.

End LoopFacts.

Section RunFacts.
Variable P : Platform.
Variable W : World.
Variable o : Options.

Local Abbreviation M := (effectiveMaxPages (pagination o)).

(** Pagination stops the loop or moves it to another URL, and changes
    nothing else. *)
Lemma paginate_cases (r : Fetch.Response) (parsedData : Value) (st : LoopState) :
  paginate P o r parsedData st = stopped st
  \/ exists nextUrl,
       paginate P o r parsedData st = movedTo nextUrl st
       /\ (pagesProcessed st < M)%Z
       /\ getNextPageUrl P (Fetch.entries r) parsedData (pagination o) (currentUrl st)
          = Some nextUrl.
Proof.
  unfold paginate.
  destruct (enabled (pagination o)); cbn [andb]; [|left; reflexivity].
  destruct (Z.ltb_spec (pagesProcessed st) M); [|left; reflexivity].
  destruct (getNextPageUrl P (Fetch.entries r) parsedData (pagination o) (currentUrl st))
    as [nextUrl|]; [|left; reflexivity].
  destruct (negb (nextUrl =? "") && negb (nextUrl =? currentUrl st));
    [right; exists nextUrl; auto|left; reflexivity].
Qed.

Lemma paginate_keeps (r : Fetch.Response) (parsedData : Value) (st : LoopState) :
  pagesProcessed (paginate P o r parsedData st) = pagesProcessed st
  /\ allData (paginate P o r parsedData st) = allData st
  /\ trace (paginate P o r parsedData st) = trace st
  /\ finalStatusCode (paginate P o r parsedData st) = finalStatusCode st
  /\ retryCount (paginate P o r parsedData st) = retryCount st
  /\ rateLimitHit (paginate P o r parsedData st) = rateLimitHit st.
Proof.
  destruct (paginate_cases r parsedData st) as [->|[nextUrl [-> _]]];
    repeat split; reflexivity.
Qed.

(** The trace after an attempt: the call, and the wait if there was one. *)
Lemma attempt_trace (st st1 : LoopState) (c : Completion) :
  Attempt P W o st st1 c ->
  trace st1 = (trace st ++ [thisFetch W o st])%list
  \/ trace st1 = ((trace st ++ [thisFetch W o st]) ++ [EvSleep 2000])%list.
Proof.
  intros Ha; destruct Ha; cbn [trace rateLimited received fetched]; auto.
  left; destruct (paginate_keeps r
                    (parseApiResponse P responseText (responseFormat o) (dataMapping o))
                    (processed responseText
                       (parseApiResponse P responseText (responseFormat o) (dataMapping o))
                       (received r (fetched (thisFetch W o st) st))))
    as (_ & _ & -> & _); reflexivity.
Qed.

Lemma attempt_pagesProcessed (st st1 : LoopState) (c : Completion) :
  Attempt P W o st st1 c ->
  (c <> Normal /\ pagesProcessed st1 = pagesProcessed st)
  \/ (c = Normal /\ pagesProcessed st1 = (pagesProcessed st + 1)%Z).
Proof.
  intros Ha; destruct Ha; try (left; split; [discriminate|reflexivity]).
  right; split; [reflexivity|].
  match goal with
  | |- pagesProcessed (paginate P o ?r ?d ?s) = _ =>
      destruct (paginate_keeps r d s) as (-> & _)
  end; reflexivity.
Qed.

(** *** The page bound *)

Lemma withinPages_initial : withinPages o (initialState o).
Proof. split; cbn; [lia|tauto]. Qed.

Lemma withinPages_attempt (st st1 : LoopState) (c : Completion) :
  withinPages o st -> guard o st = true -> Attempt P W o st st1 c -> withinPages o st1.
Proof.
  intros [Hpages Hevents] Hguard Ha.
  destruct (guard_true o st Hguard) as [_ Hlt].
  split.
  - destruct (attempt_pagesProcessed _ _ _ Ha) as [[_ ->]|[_ ->]]; lia.
  - intros n request result Hin.
    assert (Hcases : In (EvFetch n request result) (trace st)
                     \/ EvFetch n request result = thisFetch W o st).
    { destruct (attempt_trace _ _ _ Ha) as [Ht|Ht]; rewrite Ht in Hin;
        repeat (apply in_app_or in Hin as [Hin|Hin]); auto;
        destruct Hin as [Hin|[]]; auto; discriminate. }
    destruct Hcases as [Hold|Hnew]; [eauto|].
    unfold thisFetch in Hnew; injection Hnew as -> _ _; lia.
Qed.

Lemma withinPages_warned (st : LoopState) (e : Exn) :
  withinPages o st -> withinPages o (stopped (warned e st)).
Proof.
  intros [Hpages Hevents]; split; [exact Hpages|].
  cbn [trace stopped warned]; intros n request result Hin.
  apply in_app_or in Hin as [Hin|[Hin|[]]]; [eauto|discriminate].
Qed.

End RunFacts.

(** C8 (as amended).  Every run settles; each request is issued for a
    page within the limit (that is, while pagesProcessed < maxPages); the
    number of pages fetched is never above the limit when the limit is not
    negative, and never above 0 when it is; and a returned result reports
    that number.  The limit is pagination.maxPages, or 10 when it is
    unset or 0. *)
Theorem pages_fetched_within_max_pages (P : Platform) (W : World) (o : Options) :
  exists st out,
    performApiExtraction P W o = Some (st, out)
    /\ (forall n request result,
           In (EvFetch n request result) (trace st) ->
           (n - 1 < effectiveMaxPages (pagination o))%Z)
    /\ (0 <= pagesProcessed st <= Z.max 0 (effectiveMaxPages (pagination o)))%Z
    /\ ((0 <= effectiveMaxPages (pagination o))%Z ->
        (pagesProcessed st <= effectiveMaxPages (pagination o))%Z)
    /\ (forall result, out = Returns result -> m_pagesProcessed result = pagesProcessed st)
    /\ (maxPages (pagination o) = None -> effectiveMaxPages (pagination o) = 10%Z).
Proof.
  destruct (performApiExtraction_total P W o) as (st & out & Hrun).
  exists st, out; split; [exact Hrun|].
  destruct (performApiExtraction_invariant P W o (withinPages o)
              (withinPages_attempt P W o) (withinPages_warned o) st out
              (withinPages_initial o) Hrun) as [Hpages Hevents].
  split; [intros n request result Hin; apply (Hevents n request result Hin)|].
  split; [exact Hpages|].
  split; [lia|].
  split.
  - intros result ->.
    unfold performApiExtraction in Hrun.
    destruct (loop P W o (enoughFuel o) (initialState o)) as [[st' c]|]; [|discriminate].
    assert (Hfin : finish o st = Returns result /\ st' = st).
    { destruct c; try discriminate; injection Hrun as -> Hf; auto. }
    destruct Hfin as [Hfin _]; unfold finish in Hfin.
    destruct (formatExtractedData (allData st) (responseFormat o)); [|discriminate].
    apply FormatFacts.Returns_inj in Hfin; rewrite <- Hfin; reflexivity.
  - intros Hnone; unfold effectiveMaxPages; rewrite Hnone; reflexivity.
Qed.

(** C8, as stated, fails for a negative page limit: no page is fetched,
    and 0 is above the limit.  It also fails for a page limit set to 0,
    which the code replaces by 10: ten pages are fetched. *)
Lemma negative_max_pages_is_exceeded :
  (exists st result,
      performApiExtraction Example.platform Example.alwaysOk
        (Example.options Example.itemsUrl defaultAuthentication (Example.offsetPages (-1)))
      = Some (st, Returns result)
      /\ effectiveMaxPages (Example.offsetPages (-1)) = (-1)%Z
      /\ m_pagesProcessed result = 0%Z
      /\ ~ (m_pagesProcessed result <= effectiveMaxPages (Example.offsetPages (-1)))%Z)
  /\ (exists st result,
        performApiExtraction Example.platform Example.alwaysOk
          (Example.options Example.itemsUrl defaultAuthentication (Example.offsetPages 0))
        = Some (st, Returns result)
        /\ maxPages (Example.offsetPages 0) = Some 0%Z
        /\ m_pagesProcessed result = 10%Z).
Proof.
  split.
  - eexists; eexists; split; [vm_compute; reflexivity|].
    repeat split; cbn; lia.
  - eexists; eexists; split; [vm_compute; reflexivity|].
    repeat split.
Qed.

Section TraceFacts.
Variable P : Platform.
Variable W : World.
Variable o : Options.

Lemma lastStatus_snoc (tr : list Event) (ev : Event) (initial : Z) :
  lastStatus (tr ++ [ev]) initial
  = match statusOfEvent ev with
    | Some s => s
    | None => lastStatus tr initial
    end.
Proof. unfold lastStatus; rewrite fold_left_app; reflexivity. Qed.

Lemma pagesOf_snoc (tr : list Event) (ev : Event) :
  pagesOf P o (tr ++ [ev]) = (pagesOf P o tr ++ pageOfEvent P o ev)%list.
Proof. unfold pagesOf; rewrite flat_map_app; simpl; rewrite app_nil_r; reflexivity. Qed.

Lemma ok_429 (r : Fetch.Response) : Fetch.status r = 429%Z -> Fetch.ok r = false.
Proof. unfold Fetch.ok; intros ->; reflexivity. Qed.

Lemma tracksTrace_initial : tracksTrace P o (initialState o).
Proof. repeat split. Qed.

Lemma tracksTrace_attempt (st st1 : LoopState) (c : Completion) :
  tracksTrace P o st -> guard o st = true -> Attempt P W o st st1 c -> tracksTrace P o st1.
Proof.
  intros (Hstatus & Hdata & Hpages) _ Ha; unfold tracksTrace.
  destruct Ha as [m Ew|r Ew Eok _|r Ew E429 _|r Ew E429 _|r m Ew Eok Et|r t Ew Eok Et];
    try (pose proof (ok_429 r E429) as Eok);
    try (destruct (paginate_keeps P o r
                     (parseApiResponse P t (responseFormat o) (dataMapping o))
                     (processed t (parseApiResponse P t (responseFormat o) (dataMapping o))
                        (received r (fetched (thisFetch W o st) st))))
           as (-> & -> & -> & -> & _));
    cbn [finalStatusCode allData pagesProcessed trace rateLimited received fetched processed];
    rewrite ?lastStatus_snoc, ?pagesOf_snoc, ?lastStatus_snoc, ?pagesOf_snoc;
    unfold thisFetch; rewrite Ew; cbn [statusOfEvent pageOfEvent];
    rewrite ?Eok, ?Et, ?app_nil_r; auto.
  rewrite concat_app, length_app; cbn [List.concat List.length].
  rewrite app_nil_r, Hdata, Hpages; repeat split; lia.
Qed.

Lemma tracksTrace_warned (st : LoopState) (e : Exn) :
  tracksTrace P o st -> tracksTrace P o (stopped (warned e st)).
Proof.
  intros (Hstatus & Hdata & Hpages); unfold tracksTrace.
  cbn [finalStatusCode allData pagesProcessed trace stopped warned].
  rewrite lastStatus_snoc, pagesOf_snoc; cbn [statusOfEvent pageOfEvent].
  rewrite app_nil_r; auto.
Qed.

End TraceFacts.

(** ** Results and responses *)

Section ResultFacts.
Variable P : Platform.
Variable W : World.

Lemma performApiExtraction_returns (o : Options) (st : LoopState)
  (result : ApiEndpointResponse) :
  performApiExtraction P W o = Some (st, Returns result) ->
  exists formattedData,
    formatExtractedData (allData st) (responseFormat o) = Returns formattedData
    /\ result = buildResult o st formattedData.
Proof.
  unfold performApiExtraction; intros Hrun.
  destruct (loop P W o (enoughFuel o) (initialState o)) as [[st' c]|]; [|discriminate].
  assert (Hfin : finish o st = Returns result).
  { destruct c; try discriminate; injection Hrun as -> Hf; exact Hf. }
  unfold finish in Hfin.
  destruct (formatExtractedData (allData st) (responseFormat o)) as [formattedData|];
    [|discriminate].
  exists formattedData; split; [reflexivity|].
  apply FormatFacts.Returns_inj in Hfin; auto.
Qed.

Lemma performApiExtraction_of_loop (o : Options) (st : LoopState) (c : Completion) :
  loop P W o (enoughFuel o) (initialState o) = Some (st, c) ->
  performApiExtraction P W o
  = Some (st, match c with Abrupt e => Throws e | _ => finish o st end).
Proof.
  unfold performApiExtraction; intros ->; destruct c; reflexivity.
Qed.

(** [POST] on a URL that passes the checks. *)
Lemma POST_accepted (r : Request.t) :
  acceptsUrl P (Request.url r) = true ->
  POST P W r
  = match performApiExtraction P W (optionsOf r) with
    | None => None
    | Some (st, Returns result) =>
        Some (trace st, {| httpStatus := 200; json_body := ResultBody result |})
    | Some (st, Throws apiError) =>
        Some (trace st, extractionFailed (optionsOf r) apiError)
    end.
Proof.
  unfold acceptsUrl, POST, handle; intros H.
  apply andb_true_iff in H as [Hblank Hhttp].
  apply negb_true_iff in Hblank; rewrite Hblank.
  destruct (URL_parse P (Request.url r)) as [validUrl|]; [|discriminate].
  rewrite Hhttp; reflexivity.
Qed.

(** [POST] on a URL that fails a check: status 400, and no effect. *)
Lemma POST_refused (r : Request.t) :
  acceptsUrl P (Request.url r) = false ->
  exists error, POST P W r = Some ([], badRequest error).
Proof.
  unfold acceptsUrl, POST, handle; intros H.
  destruct (String.eqb (Request.url r) "" || (String.length (Js.trim (Request.url r)) =? 0)%nat);
    [eexists; reflexivity|].
  destruct (URL_parse P (Request.url r)) as [validUrl|]; [|eexists; reflexivity].
  cbn [negb andb] in H; rewrite H; eexists; reflexivity.
Qed.

End ResultFacts.

(** C9.  Every run settles with the status code of the last response it
    received (200 when it received none), and a returned result reports
    it.  The response of a failed later page counts: there is a run that
    returns the data of page 1 with the status 500 of page 2. *)
Theorem status_code_is_the_last_response_status :
  (forall (P : Platform) (W : World) (o : Options),
      exists st out,
        performApiExtraction P W o = Some (st, out)
        /\ finalStatusCode st = lastStatus (trace st) 200
        /\ forall result,
             out = Returns result -> statusCode result = lastStatus (trace st) 200)
  /\ exists st result,
       performApiExtraction Example.platform Example.secondCallFails
         (Example.options Example.itemsUrl defaultAuthentication (Example.offsetPages 3))
       = Some (st, Returns result)
       /\ existsb isWarning (trace st) = true
       /\ statusCode result = 500%Z
       /\ m_pagesProcessed result = 1%Z
       /\ recordCount result = 1%Z
       /\ allData st = [VStr "hello"].
Proof.
  split.
  - intros P W o.
    destruct (performApiExtraction_total P W o) as (st & out & Hrun).
    exists st, out; split; [exact Hrun|].
    destruct (performApiExtraction_invariant P W o (tracksTrace P o)
                (tracksTrace_attempt P W o) (tracksTrace_warned P o) st out
                (tracksTrace_initial P o) Hrun) as (Hstatus & _).
    split; [exact Hstatus|].
    intros result ->.
    destruct (performApiExtraction_returns P W o st result Hrun) as (text & _ & ->).
    exact Hstatus.
  - eexists; eexists; split; [vm_compute; reflexivity|].
    repeat split.
Qed.

(** ** Page failures *)

Section PageFailure.
Variable P : Platform.
Variable W : World.
Variable o : Options.

Lemma tryPage_abrupt_keeps (st st1 : LoopState) (e : Exn) :
  tryPage P W o st = (st1, Abrupt e) ->
  pagesProcessed st1 = pagesProcessed st /\ allData st1 = allData st.
Proof.
  intros Htry.
  pose proof (tryPage_attempt P W o st) as Ha; rewrite Htry in Ha; cbn [fst snd] in Ha.
  destruct (attempt_without_page P W o _ _ _ Ha) as (Hp & Hd & _); [discriminate|auto].
Qed.

(** The failure of the first page ends the loop with the exception. *)
Lemma first_page_failure_propagates (st st1 : LoopState) (e : Exn) :
  guard o st = true ->
  tryPage P W o st = (st1, Abrupt e) ->
  pagesProcessed st = 0%Z ->
  loop P W o 1 st = Some (st1, Abrupt e).
Proof.
  intros Hguard Htry Hzero.
  destruct (tryPage_abrupt_keeps _ _ _ Htry) as [Hp _].
  cbn [loop]; rewrite Hguard; unfold iteration; rewrite Htry, Hp, Hzero; reflexivity.
Qed.

(** The failure of a later page ends the loop normally, with a warning. *)
Lemma later_page_failure_stops (st st1 : LoopState) (e : Exn) :
  guard o st = true ->
  tryPage P W o st = (st1, Abrupt e) ->
  pagesProcessed st <> 0%Z ->
  loop P W o 1 st = Some (stopped (warned e st1), Normal).
Proof.
  intros Hguard Htry Hnz.
  destruct (tryPage_abrupt_keeps _ _ _ Htry) as [Hp _].
  cbn [loop]; rewrite Hguard; unfold iteration; rewrite Htry, Hp.
  destruct (Z.eqb_spec (pagesProcessed st) 0); [contradiction|reflexivity].
Qed.

End PageFailure.




(** ** Rate limiting *)

Section RateLimit.
Variable P : Platform.
Variable W : World.
Variable o : Options.

Lemma tryPage_rate_limited (st : LoopState) (r : Fetch.Response) :
  W (calls st) (requestFor o st) = Fetch.Responded r ->
  Fetch.status r = 429%Z ->
  tryPage P W o st
  = (rateLimited (received r (fetched (EvFetch (pagesProcessed st + 1) (requestFor o st)
                                         (Fetch.Responded r)) st)),
     if (retryCount st + 1 <? 3)%Z then Continue
     else Abrupt (RequestFailed 429 (Fetch.statusText r))).
Proof.
  intros Ew E429; unfold tryPage; rewrite Ew, (ok_429 r E429), E429.
  cbn [negb Z.eqb Pos.eqb retryCount rateLimited received fetched].
  destruct (retryCount st + 1 <? 3)%Z; reflexivity.
Qed.

End RateLimit.

(** C1 (as amended).  If the first three calls of an extraction, all for
    page 1, are answered 429, the pipeline sends the same request three
    times (two retries), waits 2000 ms after each of the three answers,
    and then fails as a whole with the error of the last answer.  At that
    point rateLimitHit is true and retryCount is 3 (one per 429 answer),
    nothing has been gathered, and the handler answers 500 with the
    failure body, which has no field for either counter. *)
Theorem three_429_on_the_first_page_fail_the_extraction
  (P : Platform) (W : World) (o : Options) (r1 r2 r3 : Fetch.Response) :
  (0 < effectiveMaxPages (pagination o))%Z ->
  W 0%nat (requestFor o (initialState o)) = Fetch.Responded r1 ->
  W 1%nat (requestFor o (initialState o)) = Fetch.Responded r2 ->
  W 2%nat (requestFor o (initialState o)) = Fetch.Responded r3 ->
  Fetch.status r1 = 429%Z -> Fetch.status r2 = 429%Z -> Fetch.status r3 = 429%Z ->
  exists st,
    performApiExtraction P W o
    = Some (st, Throws (RequestFailed 429 (Fetch.statusText r3)))
    /\ trace st
       = [ EvFetch 1 (requestFor o (initialState o)) (Fetch.Responded r1); EvSleep 2000;
           EvFetch 1 (requestFor o (initialState o)) (Fetch.Responded r2); EvSleep 2000;
           EvFetch 1 (requestFor o (initialState o)) (Fetch.Responded r3); EvSleep 2000 ]
    /\ rateLimitHit st = true
    /\ retryCount st = 3%Z
    /\ pagesProcessed st = 0%Z
    /\ allData st = []
    /\ forall r, optionsOf r = o ->
         acceptsUrl P (Request.url r) = true ->
         POST P W r
         = Some (trace st,
                 {| httpStatus := 500;
                    json_body :=
                      ErrorBody "API extraction failed"
                        (Some ("API request failed: 429 " ++ Fetch.statusText r3))
                        (Some {| f_url := url o; f_method := method o;
                                 f_responseFormat := responseFormat o;
                                 f_statusCode := 0; f_responseSize := 0;
                                 f_pagesProcessed := 0 |}) |}).
Proof.
  intros Hmax E1 E2 E3 S1 S2 S3.
  set (request := requestFor o (initialState o)) in *.
  set (s1 := rateLimited (received r1 (fetched (EvFetch 1 request (Fetch.Responded r1))
                                         (initialState o)))).
  set (s2 := rateLimited (received r2 (fetched (EvFetch 1 request (Fetch.Responded r2)) s1))).
  set (s3 := rateLimited (received r3 (fetched (EvFetch 1 request (Fetch.Responded r3)) s2))).
  assert (Hguard : forall s, hasMorePages s = true -> pagesProcessed s = 0%Z ->
                             guard o s = true).
  { intros s Hm Hp; unfold guard; rewrite Hm, Hp; cbn [andb].
    apply Z.ltb_lt; exact Hmax. }
  assert (T1 : tryPage P W o (initialState o) = (s1, Continue)).
  { rewrite (tryPage_rate_limited P W o (initialState o) r1 E1 S1); reflexivity. }
  assert (T2 : tryPage P W o s1 = (s2, Continue)).
  { rewrite (tryPage_rate_limited P W o s1 r2 E2 S2); reflexivity. }
  assert (T3 : tryPage P W o s2
               = (s3, Abrupt (RequestFailed 429 (Fetch.statusText r3)))).
  { rewrite (tryPage_rate_limited P W o s2 r3 E3 S3); reflexivity. }
  assert (Hloop : loop P W o 3 (initialState o)
                  = Some (s3, Abrupt (RequestFailed 429 (Fetch.statusText r3)))).
  { cbn [loop].
    rewrite (Hguard (initialState o) eq_refl eq_refl).
    unfold iteration at 1; rewrite T1.
    rewrite (Hguard s1 eq_refl eq_refl).
    unfold iteration at 1; rewrite T2.
    rewrite (Hguard s2 eq_refl eq_refl).
    unfold iteration at 1; rewrite T3; reflexivity. }
  assert (Hrun : performApiExtraction P W o
                 = Some (s3, Throws (RequestFailed 429 (Fetch.statusText r3)))).
  { apply (performApiExtraction_of_loop P W o s3 (Abrupt _)).
    apply (loop_from_after P W o 0 (initialState o) _ eq_refl).
    exists 3%nat; exact Hloop. }
  exists s3; split; [exact Hrun|].
  repeat split.
  intros r <- Hurl.
  rewrite (POST_accepted P W r Hurl), Hrun; reflexivity.
Qed.

Lemma three_429_on_the_first_page_fail_the_extraction_witness :
  exists st,
    performApiExtraction Example.platform Example.alwaysRateLimited Example.onePage
    = Some (st, Throws (RequestFailed 429 "Too Many Requests"))
    /\ rateLimitHit st = true
    /\ retryCount st = 3%Z
    /\ List.length (trace st) = 6%nat.
Proof.
  destruct (three_429_on_the_first_page_fail_the_extraction
              Example.platform Example.alwaysRateLimited Example.onePage
              _ _ _ eq_refl eq_refl eq_refl eq_refl eq_refl eq_refl eq_refl)
    as (st & Hrun & Htrace & Hhit & Hcount & _).
  exists st; split; [exact Hrun|].
  split; [exact Hhit|]. split; [exact Hcount|].
  rewrite Htrace; reflexivity.
Defined.

(** C1, as stated, fails on the retry count: after three 429 answers on
    page 1 the counter is 3, not 2, and the failure body reports neither
    the counter nor the rate-limit flag. *)
Lemma retry_count_is_three_after_exhaustion :
  exists st,
    performApiExtraction Example.platform Example.alwaysRateLimited Example.onePage
    = Some (st, Throws (RequestFailed 429 "Too Many Requests"))
    /\ rateLimitHit st = true
    /\ retryCount st = 3%Z
    /\ retryCount st <> 2%Z
    /\ POST Example.platform Example.alwaysRateLimited
         (Example.request Example.itemsUrl None None)
       = Some (trace st,
               {| httpStatus := 500;
                  json_body :=
                    ErrorBody "API extraction failed"
                      (Some "API request failed: 429 Too Many Requests")
                      (Some {| f_url := Example.itemsUrl; f_method := Method.GET;
                               f_responseFormat := text;
                               f_statusCode := 0; f_responseSize := 0;
                               f_pagesProcessed := 0 |}) |}).
Proof.
  eexists; split; [vm_compute; reflexivity|].
  repeat split; try discriminate.
Qed.

(** ** Authentication *)

Section MissingCredential.
Variable P : Platform.
Variable W : World.
Variable o : Options.
Hypothesis Hmissing : missingCredential (authentication o) = true.

Local Abbreviation o' := (withoutAuthentication o).

(** No header is added for a mode whose credential is missing. *)
Lemma withAuthentication_missing (hs : list (string * string)) :
  withAuthentication (authentication o) hs = hs.
Proof.
  unfold missingCredential in Hmissing; unfold withAuthentication.
  destruct (authType (authentication o)); try discriminate;
    apply negb_true_iff in Hmissing; rewrite Hmissing; reflexivity.
Qed.

Lemma buildRequestHeaders_missing : buildRequestHeaders o = buildRequestHeaders o'.
Proof. unfold buildRequestHeaders; rewrite withAuthentication_missing; reflexivity. Qed.

Lemma requestFor_missing (st : LoopState) : requestFor o st = requestFor o' st.
Proof. unfold requestFor; rewrite buildRequestHeaders_missing; reflexivity. Qed.

Lemma tryPage_missing (st : LoopState) : tryPage P W o st = tryPage P W o' st.
Proof. unfold tryPage; rewrite requestFor_missing; reflexivity. Qed.

Lemma iteration_missing (st : LoopState) : iteration P W o st = iteration P W o' st.
Proof. unfold iteration; rewrite tryPage_missing; reflexivity. Qed.

Lemma loop_missing (fuel : nat) : forall st, loop P W o fuel st = loop P W o' fuel st.
Proof.
  induction fuel as [|fuel IH]; intros st; [reflexivity|].
  cbn [loop]; change (guard o' st) with (guard o st).
  destruct (guard o st); [|reflexivity].
  rewrite iteration_missing.
  destruct (iteration P W o' st) as [st' [| |e]]; auto.
Qed.

Lemma hasAuthentication_missing : negb (isNone (authType (authentication o))) = true.
Proof.
  unfold missingCredential in Hmissing.
  destruct (authType (authentication o)); [discriminate|reflexivity..].
Qed.

Lemma finish_missing (st : LoopState) :
  finish o st
  = match finish o' st with
    | Returns result => Returns (withHasAuthentication true result)
    | Throws e => Throws e
    end.
Proof.
  unfold finish; change (responseFormat o') with (responseFormat o).
  destruct (formatExtractedData (allData st) (responseFormat o)); [|reflexivity].
  unfold buildResult, withHasAuthentication; cbn.
  rewrite hasAuthentication_missing; reflexivity.
Qed.

(** The run is the run without authentication, but for the flag of the
    result. *)
Lemma performApiExtraction_missing :
  performApiExtraction P W o
  = match performApiExtraction P W o' with
    | Some (st, Returns result) => Some (st, Returns (withHasAuthentication true result))
    | other => other
    end.
Proof.
  unfold performApiExtraction; change (enoughFuel o') with (enoughFuel o).
  change (initialState o') with (initialState o).
  rewrite loop_missing.
  destruct (loop P W o' (enoughFuel o) (initialState o)) as [[st [| |e]]|];
    try reflexivity; rewrite finish_missing; destruct (finish o' st); reflexivity.
Qed.

End MissingCredential.




(** ** Numbers as text *)

Module NumberFacts.
Import Js.

Lemma digitValue_digit (d : N) :
  (d < 10)%N -> digitValue (ascii_of_N (48 + d)) = Some d.
Proof.
  intros Hd; unfold digitValue.
  rewrite N_ascii_embedding by lia.
  destruct (N.leb_spec 48 (48 + d)); [|lia].
  destruct (N.leb_spec (48 + d) 57); [|lia].
  cbn [andb]; f_equal; lia.
Qed.

Lemma digitsOf_step (f : nat) (n : N) (acc : string) :
  digitsOf (S f) n acc
  = if (n <? 10)%N then String (ascii_of_N (48 + n mod 10)) acc
    else digitsOf f (n / 10) (String (ascii_of_N (48 + n mod 10)) acc).
Proof. reflexivity. Qed.

(** Reading the numeral of [n] in front of [acc] is reading [acc] with
    [n] as the number read so far. *)
Lemma leadingDigits_digitsOf (f : nat) :
  forall (n : N) (acc : string),
    (n < 2 ^ N.of_nat (S f))%N ->
    leadingDigits digitValue 10 None (digitsOf (S f) n acc)
    = leadingDigits digitValue 10 (Some n) acc.
Proof.
  induction f as [|f IH]; intros n acc Hn; rewrite digitsOf_step.
  - assert (Hlt : (n < 10)%N) by (cbn in Hn; lia).
    destruct (N.ltb_spec n 10); [|lia].
    cbn [leadingDigits].
    rewrite digitValue_digit by (apply N.mod_lt; lia).
    rewrite N.mod_small by lia.
    f_equal; f_equal; lia.
  - destruct (N.ltb_spec n 10) as [Hlt|Hge].
    + cbn [leadingDigits].
      rewrite digitValue_digit by (apply N.mod_lt; lia).
      rewrite N.mod_small by lia.
      f_equal; f_equal; lia.
    + rewrite IH.
      * cbn [leadingDigits].
        rewrite digitValue_digit by (apply N.mod_lt; lia).
        f_equal; f_equal.
        pose proof (N.div_mod n 10); lia.
      * apply N.Div0.div_lt_upper_bound.
        replace (N.of_nat (S (S f))) with (N.succ (N.of_nat (S f))) in Hn by lia.
        rewrite N.pow_succ_r' in Hn; lia.
Qed.

(** The numeral of a positive number starts with a digit from 1 to 9. *)
Lemma digitsOf_first (f : nat) :
  forall (n : N) (acc : string),
    (0 < n)%N ->
    (n < 2 ^ N.of_nat (S f))%N ->
    exists d rest,
      digitsOf (S f) n acc = String (ascii_of_N (48 + d)) rest /\ (1 <= d <= 9)%N.
Proof.
  induction f as [|f IH]; intros n acc Hpos Hn; rewrite digitsOf_step.
  - assert (Hlt : (n < 10)%N) by (cbn in Hn; lia).
    destruct (N.ltb_spec n 10); [|lia].
    exists (n mod 10)%N, acc; split; [reflexivity|].
    rewrite N.mod_small by lia; lia.
  - destruct (N.ltb_spec n 10) as [Hlt|Hge].
    + exists (n mod 10)%N, acc; split; [reflexivity|].
      rewrite N.mod_small by lia; lia.
    + apply IH.
      * apply N.div_str_pos; lia.
      * apply N.Div0.div_lt_upper_bound.
        replace (N.of_nat (S (S f))) with (N.succ (N.of_nat (S f))) in Hn by lia.
        rewrite N.pow_succ_r' in Hn; lia.
Qed.

Lemma enough_digits (p : positive) :
  (N.pos p < 2 ^ N.of_nat (S (N.to_nat (N.log2 (N.pos p)))))%N.
Proof.
  replace (N.of_nat (S (N.to_nat (N.log2 (N.pos p))))) with (N.succ (N.log2 (N.pos p)))
    by lia.
  apply N.log2_spec; lia.
Qed.

Lemma parseUnsigned_natToString (p : positive) :
  exists c rest,
    natToString (N.pos p) = String c rest
    /\ isWhiteSpace c = false
    /\ parseInt (String c rest) = roundDouble (Z.pos p)
    /\ parseUnsigned (String c rest) = Some (N.pos p).
Proof.
  unfold natToString.
  destruct (digitsOf_first _ (N.pos p) "" ltac:(lia) (enough_digits p))
    as (d & rest & Hdigits & Hd).
  pose proof (leadingDigits_digitsOf _ (N.pos p) "" (enough_digits p)) as Hread.
  rewrite Hdigits in Hread |- *; cbn [leadingDigits] in Hread.
  exists (ascii_of_N (48 + d)), rest; split; [reflexivity|].
  assert (Hcases : (d = 1 \/ d = 2 \/ d = 3 \/ d = 4 \/ d = 5 \/ d = 6 \/ d = 7
                    \/ d = 8 \/ d = 9)%N) by lia.
  assert (Hun : parseUnsigned (String (ascii_of_N (48 + d)) rest) = Some (N.pos p))
    by (repeat (destruct Hcases as [->|Hcases]); try subst d; exact Hread).
  split; [|split; [|exact Hun]].
  - repeat (destruct Hcases as [->|Hcases]); try subst d; reflexivity.
  - assert (Hparse : parseInt (String (ascii_of_N (48 + d)) rest)
                     = match parseUnsigned (String (ascii_of_N (48 + d)) rest) with
                       | Some n => roundDouble (Z.of_N n)
                       | None => NaN
                       end)
      by (repeat (destruct Hcases as [->|Hcases]); try subst d; reflexivity).
    rewrite Hparse, Hun; reflexivity.
Qed.

(** [parseInt] reads back what [toString] wrote, as a double. *)
Lemma parseInt_intToString (z : Z) : parseInt (intToString z) = roundDouble z.
Proof.
  destruct z as [|p|p]; cbn [intToString].
  - reflexivity.
  - destruct (parseUnsigned_natToString p) as (c & rest & -> & _ & Hparse & _).
    exact Hparse.
  - destruct (parseUnsigned_natToString p) as (c & rest & -> & _ & _ & Hun).
    change (parseInt ("-" ++ String c rest))
      with (match parseUnsigned (String c rest) with
            | Some n => roundDouble (- Z.of_N n)
            | None => NaN
            end).
    rewrite Hun; reflexivity.
Qed.

Lemma intToString_not_empty (z : Z) (d : string) :
  orElse (Some (intToString z)) d = intToString z.
Proof.
  destruct z as [|p|p]; cbn [intToString]; try reflexivity.
  destruct (parseUnsigned_natToString p) as (c & rest & -> & _); reflexivity.
Qed.

(** Up to 2^53 the integers are doubles, and they are printed in full. *)
Lemma roundDouble_safe (z : Z) : (Z.abs z <= maxSafe)%Z -> roundDouble z = Int z.
Proof.
  intros Hz; unfold roundDouble.
  destruct (Z.leb_spec (Z.abs z) maxSafe); [reflexivity|lia].
Qed.

Lemma numberToString_safe (z : Z) :
  (Z.abs z <= maxSafe)%Z -> numberToString (Int z) = intToString z.
Proof.
  intros Hz; unfold numberToString.
  destruct (Z.leb_spec (Z.abs z) maxSafe); [reflexivity|lia].
Qed.

(** The sum of two numbers, written and read back, when it is within
    2^53. *)
Lemma sum_read_back (x y : Z) (d : string) :
  (Z.abs (x + y) <= maxSafe)%Z ->
  parseInt (orElse (Some (numberToString (add (Int x) (Int y)))) d) = Int (x + y).
Proof.
  intros Hsafe; cbn [add].
  rewrite (roundDouble_safe _ Hsafe), (numberToString_safe _ Hsafe).
  rewrite intToString_not_empty, parseInt_intToString.
  apply roundDouble_safe, Hsafe.
Qed.

End NumberFacts.

(** ** Offset pagination *)

Module SearchParamsFacts.
Import SearchParams.

Lemma param_remove_other (name k : string) (ps : list (string * string)) :
  k <> name -> get k (remove name ps) = get k ps.
Proof.
  intros Hne; induction ps as [|[k0 v0] ps IH]; [reflexivity|].
  unfold remove in *; cbn [filter fst get].
  destruct (String.eqb_spec k0 name) as [->|Hk0]; cbn [negb get].
  - destruct (String.eqb_spec name k); [congruence|exact IH].
  - rewrite IH; reflexivity.
Qed.

Lemma param_set_same (name value : string) (ps : list (string * string)) :
  get name (set name value ps) = Some value.
Proof.
  induction ps as [|[k0 v0] ps IH]; cbn [set get].
  - rewrite String.eqb_refl; reflexivity.
  - destruct (String.eqb k0 name) eqn:E; cbn [get]; rewrite E; auto.
Qed.

Lemma param_set_other (name value k : string) (ps : list (string * string)) :
  k <> name -> get k (set name value ps) = get k ps.
Proof.
  intros Hne; induction ps as [|[k0 v0] ps IH]; cbn [set get].
  - destruct (String.eqb_spec name k); [congruence|reflexivity].
  - destruct (String.eqb_spec k0 name) as [->|Hk0]; cbn [get].
    + destruct (String.eqb_spec name k); [congruence|].
      apply param_remove_other, Hne.
    + rewrite IH; reflexivity.
Qed.

End SearchParamsFacts.

(** ** Runs in which no attempt fails *)

Section Unfailing.
Variable P : Platform.
Variable W : World.
Variable o : Options.
Variable Open : LoopState -> Prop.

Hypothesis Open_attempt :
  forall st st1 c,
    Open st -> guard o st = true -> Attempt P W o st st1 c ->
    Open st1 /\ forall e, c <> Abrupt e.

Lemma loop_unfailing (fuel : nat) :
  forall st st' c,
    Open st ->
    loop P W o fuel st = Some (st', c) ->
    c = Normal /\ Open st' /\ guard o st' = false.
Proof.
  induction fuel as [|fuel IH]; intros st st' c Hopen Hloop; simpl in Hloop.
  - destruct (guard o st) eqn:Hguard; [discriminate|].
    injection Hloop as <- <-; auto.
  - destruct (guard o st) eqn:Hguard; [|injection Hloop as <- <-; auto].
    destruct (Open_attempt _ _ _ Hopen Hguard (tryPage_attempt P W o st)) as [Hnext Hc].
    unfold iteration in Hloop.
    destruct (tryPage P W o st) as [st1 [| |e]]; cbn [fst snd] in Hnext, Hc.
    + exact (IH _ _ _ Hnext Hloop).
    + exact (IH _ _ _ Hnext Hloop).
    + destruct (Hc e eq_refl).
Qed.

(** Such a run leaves the loop by its guard and goes on to the rendering. *)
Lemma performApiExtraction_unfailing :
  Open (initialState o) ->
  exists st,
    performApiExtraction P W o = Some (st, finish o st)
    /\ Open st
    /\ guard o st = false.
Proof.
  intros Hinit.
  destruct (loop_terminates P W o _ _ (turnsLeft_initial o)) as [[st c] Hloop].
  destruct (loop_unfailing _ _ _ _ Hinit Hloop) as (-> & Hopen & Hguard).
  exists st; split; [|auto].
  rewrite (performApiExtraction_of_loop P W o st Normal Hloop); reflexivity.
Qed.

End Unfailing.

(** ** Pagination along a list of URLs *)

Section Chain.
Variable P : Platform.
Variable W : World.
Variable o : Options.
Variable urlOf : nat -> string.

Local Abbreviation pg := (pagination o).
Local Abbreviation M := (effectiveMaxPages (pagination o)).

Hypothesis Hfirst : urlOf 0%nat = url o.
Hypothesis Hstep :
  forall k hs data nextUrl,
    (Z.of_nat (S k) < M)%Z ->
    getNextPageUrl P hs data pg (urlOf k) = Some nextUrl ->
    nextUrl = urlOf (S k).

Lemma chainInvariant_initial : chainInvariant o urlOf (initialState o).
Proof.
  split; [intros n request result []|].
  intros _; exists 0%nat; split; [reflexivity|symmetry; exact Hfirst].
Qed.

Lemma callsFollow_call (st : LoopState) (tr : list Event) :
  chainInvariant o urlOf st ->
  guard o st = true ->
  (tr = (trace st ++ [thisFetch W o st])%list
   \/ tr = ((trace st ++ [thisFetch W o st]) ++ [EvSleep 2000])%list) ->
  callsFollow M urlOf tr.
Proof.
  intros [Hevents Hcurrent] Hguard Htr n request result Hin.
  assert (Hcases : In (EvFetch n request result) (trace st)
                   \/ EvFetch n request result = thisFetch W o st).
  { destruct Htr as [->| ->];
      repeat (apply in_app_or in Hin as [Hin|Hin]); auto;
      destruct Hin as [Hin|[]]; auto; discriminate. }
  destruct Hcases as [Hold|Hnew]; [exact (Hevents _ _ _ Hold)|].
  destruct (Hcurrent Hguard) as (k & Hk & Hurl).
  destruct (guard_true o st Hguard) as [_ Hlt].
  unfold thisFetch in Hnew; injection Hnew as -> -> _.
  split; [lia|].
  cbn [requestFor Fetch.url]; rewrite Hurl; f_equal; lia.
Qed.

Lemma chainInvariant_attempt (st st1 : LoopState) (c : Completion) :
  chainInvariant o urlOf st -> guard o st = true -> Attempt P W o st st1 c ->
  chainInvariant o urlOf st1.
Proof.
  intros Hinv Hguard Ha.
  pose proof (callsFollow_call st (trace st1) Hinv Hguard (attempt_trace P W o _ _ _ Ha))
    as Hevents.
  split; [exact Hevents|].
  destruct Hinv as [_ Hcurrent].
  destruct (Hcurrent Hguard) as (k & Hk & Hurl).
  destruct Ha as [m Ew|r Ew Eok N429|r Ew E429 Hretry|r Ew E429 Hex|r m Ew Eok Et|r t Ew Eok Et];
    try (intros _; exists k; split; [exact Hk|exact Hurl]).
  match goal with
  | |- guard o (paginate P o ?r ?d ?s) = true -> _ =>
      destruct (paginate_cases P o r d s) as [->|(nextUrl & -> & Hlt & Hmoved)]
  end.
  - discriminate.
  - intros _.
    cbn [processed received fetched pagesProcessed currentUrl] in Hlt, Hmoved.
    rewrite Hurl in Hmoved.
    apply (Hstep k) in Hmoved; [subst nextUrl|lia].
    exists (S k); cbn [movedTo processed received fetched pagesProcessed currentUrl].
    split; [lia|reflexivity].
Qed.

Lemma chainInvariant_warned (st : LoopState) (e : Exn) :
  chainInvariant o urlOf st -> chainInvariant o urlOf (stopped (warned e st)).
Proof.
  intros [Hevents _]; split; [|discriminate].
  cbn [trace stopped warned]; intros n request result Hin.
  apply in_app_or in Hin as [Hin|[Hin|[]]]; [eauto|discriminate].
Qed.

(** *** Progress, when every call brings a page *)

Hypothesis Henabled : enabled pg = true.
Hypothesis Hnext :
  forall k hs data,
    (Z.of_nat (S k) < M)%Z ->
    getNextPageUrl P hs data pg (urlOf k) = Some (urlOf (S k)).
Hypothesis Hdiffer :
  forall k, (Z.of_nat (S k) < M)%Z -> urlOf (S k) <> "" /\ urlOf (S k) <> urlOf k.
Hypothesis Hworld : everyCallBringsAPage W.

Lemma pagesAsked_snoc (tr : list Event) (ev : Event) :
  pagesAsked (tr ++ [ev])
  = (pagesAsked tr ++ match ev with EvFetch n _ _ => [n] | _ => [] end)%list.
Proof. unfold pagesAsked; rewrite flat_map_app; cbn; rewrite app_nil_r; reflexivity. Qed.

Lemma chainProgress_initial : chainProgress o urlOf (initialState o).
Proof.
  split; [exact chainInvariant_initial|].
  cbn [initialState pagesProcessed hasMorePages trace].
  split; [lia|]. split; [left; reflexivity|reflexivity].
Qed.

Lemma chainProgress_attempt (st st1 : LoopState) (c : Completion) :
  chainProgress o urlOf st -> guard o st = true -> Attempt P W o st st1 c ->
  chainProgress o urlOf st1 /\ forall e, c <> Abrupt e.
Proof.
  intros (Hinv & Hrange & _ & Hasked) Hguard Ha.
  pose proof (chainInvariant_attempt _ _ _ Hinv Hguard Ha) as Hinv1.
  destruct (guard_true o st Hguard) as [Hopen Hlt].
  destruct Hinv as [_ Hcurrent].
  destruct (Hcurrent Hguard) as (k & Hk & Hurl).
  destruct (Hworld (calls st) (requestFor o st)) as (r0 & t0 & Ew0 & Eok0 & Et0).
  destruct Ha as [m Ew|r Ew Eok N429|r Ew E429 Hretry|r Ew E429 Hex|r m Ew Eok Et|r t Ew Eok Et];
    try (rewrite Ew in Ew0; discriminate Ew0);
    try (rewrite Ew in Ew0; injection Ew0 as ->;
         try pose proof (ok_429 _ E429) as Eok; congruence).
  split; [|discriminate].
  split; [exact Hinv1|].
  match goal with
  | |- context [paginate P o ?r ?d ?s] =>
      destruct (paginate_keeps P o r d s) as (Hpages & _ & Htrace & _);
      set (after := paginate P o r d s) in *
  end.
  cbn [processed received fetched pagesProcessed trace] in Hpages, Htrace.
  rewrite Hpages, Htrace.
  split; [lia|]. split.
  - subst after; unfold paginate.
    cbn [processed received fetched pagesProcessed currentUrl].
    rewrite Henabled; cbn [andb].
    destruct (Z.ltb_spec (pagesProcessed st + 1) M) as [Hmore|Hlast];
      [|right; cbn [stopped pagesProcessed processed received fetched]; lia].
    rewrite Hurl, (Hnext k) by lia.
    destruct (Hdiffer k ltac:(lia)) as [Hne Hdiff].
    apply String.eqb_neq in Hne, Hdiff; rewrite Hne, Hdiff.
    left; cbn [negb andb movedTo hasMorePages processed received fetched]; exact Hopen.
  - rewrite pagesAsked_snoc, Hasked; unfold thisFetch.
    replace (Z.to_nat (pagesProcessed st + 1)) with (S (Z.to_nat (pagesProcessed st)))
      by lia.
    rewrite seq_S, map_app; cbn [map]; f_equal; f_equal; lia.
Qed.

(** Every page up to the limit is asked for, once, one after the other. *)
Lemma chain_progress :
  exists st,
    performApiExtraction P W o = Some (st, finish o st)
    /\ chainInvariant o urlOf st
    /\ pagesProcessed st = Z.max 0 M
    /\ pagesAsked (trace st) = map Z.of_nat (seq 1 (Z.to_nat M)).
Proof.
  destruct (performApiExtraction_unfailing P W o (chainProgress o urlOf)
              chainProgress_attempt chainProgress_initial)
    as (st & Hrun & (Hinv & Hrange & Hend & Hasked) & Hguard).
  exists st; split; [exact Hrun|]. split; [exact Hinv|].
  assert (Hpages : pagesProcessed st = Z.max 0 M).
  { unfold guard in Hguard.
    destruct Hend as [Hmore|Hlimit]; [|lia].
    rewrite Hmore in Hguard; cbn [andb] in Hguard.
    apply Z.ltb_ge in Hguard; lia. }
  split; [exact Hpages|].
  rewrite Hasked, Hpages; f_equal; f_equal; lia.
Qed.

End Chain.

(** ** Offset pagination *)

Section OffsetPagination.
Variable P : Platform.
Variable o : Options.
Variable u0 : Url.
Variable L : Z.

Local Abbreviation pg := (pagination o).
Local Abbreviation M := (effectiveMaxPages (pagination o)).

Hypothesis Htype : type pg = Some offset.
Hypothesis Hparse : URL_parse P (url o) = Some u0.
Hypothesis Hnames : offsetName pg <> limitName pg.
Hypothesis Hoffset : offsetOf pg u0 = Js.Int 0.
Hypothesis Hlimit : limitOf pg u0 = Js.Int L.
Hypothesis Hsafe : forall k, (0 < k < M)%Z -> (Z.abs (k * L) <= Js.maxSafe)%Z.
Hypothesis Hround :
  forall k, (0 < k)%nat -> (Z.of_nat k < M)%Z ->
            URL_parse P (URL_toString P (urlSeq pg u0 k)) = Some (urlSeq pg u0 k).

(** The readings of the URL of page [k + 1]. *)
Lemma urlSeq_readings (k : nat) :
  (Z.of_nat k < M)%Z ->
  offsetOf pg (urlSeq pg u0 k) = Js.Int (Z.of_nat k * L)
  /\ limitOf pg (urlSeq pg u0 k) = Js.Int L.
Proof.
  induction k as [|k IH]; intros Hk; [split; [exact Hoffset|exact Hlimit]|].
  destruct IH as [IHo IHl]; [lia|].
  cbn [urlSeq]; unfold nextOffsetUrl.
  fold (offsetName pg); fold (limitName pg).
  fold (offsetOf pg (urlSeq pg u0 k)); fold (limitOf pg (urlSeq pg u0 k)).
  rewrite IHo, IHl.
  unfold offsetOf, limitOf, withParam; cbn [searchParams].
  rewrite SearchParamsFacts.param_set_same.
  rewrite SearchParamsFacts.param_set_other by (apply not_eq_sym; exact Hnames).
  split; [|exact IHl].
  rewrite NumberFacts.sum_read_back.
  - f_equal; lia.
  - replace (Z.of_nat k * L + L)%Z with (Z.of_nat (S k) * L)%Z by lia.
    apply Hsafe; lia.
Qed.

Lemma getNextPageUrl_offset (hs : list (string * string)) (data : Value)
  (current : string) (u : Url) :
  enabled pg = true ->
  URL_parse P current = Some u ->
  getNextPageUrl P hs data pg current
  = Some (URL_toString P
            (withParam (offsetName pg)
               (Js.numberToString (Js.add (offsetOf pg u) (limitOf pg u))) u)).
Proof.
  intros Hen Hu; unfold getNextPageUrl; rewrite Hen, Hu, Htype; reflexivity.
Qed.

(** The URL of each page parses to the URL the code computed for it. *)
Lemma offsetUrlText_parse (k : nat) :
  (Z.of_nat k < M)%Z ->
  URL_parse P (offsetUrlText P o u0 k) = Some (urlSeq pg u0 k).
Proof.
  destruct k as [|k]; intros Hk; [exact Hparse|].
  apply Hround; lia.
Qed.

Lemma offsetUrlText_next (k : nat) (hs : list (string * string)) (data : Value) :
  enabled pg = true ->
  (Z.of_nat (S k) < M)%Z ->
  getNextPageUrl P hs data pg (offsetUrlText P o u0 k) = Some (offsetUrlText P o u0 (S k)).
Proof.
  intros Hen Hk.
  rewrite (getNextPageUrl_offset hs data _ _ Hen (offsetUrlText_parse k ltac:(lia))).
  reflexivity.
Qed.

(** The step of the invariant: pagination that is not enabled never
    computes a next URL. *)
Lemma offsetUrlText_step (k : nat) (hs : list (string * string)) (data : Value)
  (nextUrl : string) :
  (Z.of_nat (S k) < M)%Z ->
  getNextPageUrl P hs data pg (offsetUrlText P o u0 k) = Some nextUrl ->
  nextUrl = offsetUrlText P o u0 (S k).
Proof.
  intros Hk Hnext.
  destruct (enabled pg) eqn:Hen.
  - rewrite (offsetUrlText_next k hs data Hen Hk) in Hnext; congruence.
  - unfold getNextPageUrl in Hnext; rewrite Hen in Hnext; discriminate.
Qed.

Lemma offsetUrlText_differ (k : nat) :
  L <> 0%Z ->
  URL_parse P "" = None ->
  (Z.of_nat (S k) < M)%Z ->
  offsetUrlText P o u0 (S k) <> "" /\ offsetUrlText P o u0 (S k) <> offsetUrlText P o u0 k.
Proof.
  intros HL Hempty Hk.
  pose proof (offsetUrlText_parse (S k) Hk) as Hnew.
  pose proof (offsetUrlText_parse k ltac:(lia)) as Hold.
  split; intros Heq; rewrite Heq in Hnew; [congruence|].
  assert (Hsame : urlSeq pg u0 (S k) = urlSeq pg u0 k) by congruence.
  destruct (urlSeq_readings (S k) Hk) as [Ho1 _].
  destruct (urlSeq_readings k ltac:(lia)) as [Ho _].
  rewrite Hsame, Ho in Ho1.
  assert (Hmul : (Z.of_nat k * L = Z.of_nat (S k) * L)%Z) by congruence.
  rewrite Nat2Z.inj_succ, Z.mul_succ_l in Hmul; lia.
Qed.

(** Calls that follow the URLs of the pages follow the offsets. *)
Lemma callsFollow_offsets (tr : list Event) :
  callsFollow M (offsetUrlText P o u0) tr -> offsetsFollow P pg L tr.
Proof.
  intros Hcalls n request result Hin.
  destruct (Hcalls n request result Hin) as [[Hone Hlt] Hurl].
  exists (urlSeq pg u0 (Z.to_nat (n - 1))).
  rewrite Hurl; split; [apply offsetUrlText_parse; lia|].
  destruct (urlSeq_readings (Z.to_nat (n - 1)) ltac:(lia)) as [Ho Hl].
  split; [rewrite Ho, Z2Nat.id by lia; reflexivity|exact Hl].
Qed.

End OffsetPagination.

(** C7 (as amended).  Take offset pagination whose parameter names differ,
    a first URL whose offset reads 0 (it may be absent) and whose limit
    reads L (10 when it is absent), offsets (n - 1) * L that stay within
    2^53 for the pages of the run, and a platform that reads back the URLs
    it writes for those pages.  Then the run settles; the request for page
    1 goes to the URL of the options, and the request for each later page
    to the URL computed from the one before it, which is that URL with the
    offset parameter set to the sum of the offset and the limit read from
    it; so every request for page n goes to a URL whose offset reads
    (n - 1) * L and whose limit still reads L.  The requests are made: when
    pagination is enabled, L is not 0 and every call brings a page, the
    pages 1 to maxPages are asked for, once each and in order. *)
Theorem offset_of_the_nth_page_request
  (P : Platform) (W : World) (o : Options) (u0 : Url) (L : Z) :
  type (pagination o) = Some offset ->
  URL_parse P (url o) = Some u0 ->
  offsetName (pagination o) <> limitName (pagination o) ->
  offsetOf (pagination o) u0 = Js.Int 0 ->
  limitOf (pagination o) u0 = Js.Int L ->
  (forall k, (0 < k < effectiveMaxPages (pagination o))%Z ->
             (Z.abs (k * L) <= Js.maxSafe)%Z) ->
  (forall k, (0 < k)%nat -> (Z.of_nat k < effectiveMaxPages (pagination o))%Z ->
             URL_parse P (URL_toString P (urlSeq (pagination o) u0 k))
             = Some (urlSeq (pagination o) u0 k)) ->
  (exists st out,
      performApiExtraction P W o = Some (st, out)
      /\ callsFollow (effectiveMaxPages (pagination o)) (offsetUrlText P o u0) (trace st)
      /\ offsetsFollow P (pagination o) L (trace st)
      /\ (enabled (pagination o) = true ->
          L <> 0%Z ->
          URL_parse P "" = None ->
          everyCallBringsAPage W ->
          out = finish o st
          /\ pagesProcessed st = Z.max 0 (effectiveMaxPages (pagination o))
          /\ pagesAsked (trace st)
             = map Z.of_nat (seq 1 (Z.to_nat (effectiveMaxPages (pagination o))))))
  /\ (forall k,
         offsetUrlText P o u0 (S k)
         = URL_toString P
             (withParam (offsetName (pagination o))
                (Js.numberToString
                   (Js.add (offsetOf (pagination o) (urlSeq (pagination o) u0 k))
                           (limitOf (pagination o) (urlSeq (pagination o) u0 k))))
                (urlSeq (pagination o) u0 k)))
  /\ (forall hs data current u,
         enabled (pagination o) = true ->
         URL_parse P current = Some u ->
         getNextPageUrl P hs data (pagination o) current
         = Some (URL_toString P
                   (withParam (offsetName (pagination o))
                      (Js.numberToString
                         (Js.add (offsetOf (pagination o) u) (limitOf (pagination o) u)))
                      u)))
  /\ (SearchParams.get (limitName (pagination o)) (searchParams u0) = None -> L = 10%Z).
Proof.
  intros Htype Hparse Hnames Hoffset Hlimit Hsafe Hround.
  pose proof (offsetUrlText_step P o u0 Htype Hparse Hround) as Hstep.
  split; [|split; [|split]].
  - destruct (performApiExtraction_total P W o) as (st & out & Hrun).
    pose proof (performApiExtraction_invariant P W o
                  (chainInvariant o (offsetUrlText P o u0))
                  (chainInvariant_attempt P W o _ Hstep)
                  (chainInvariant_warned o _) st out
                  (chainInvariant_initial o _ eq_refl) Hrun) as [Hcalls _].
    exists st, out; split; [exact Hrun|].
    split; [exact Hcalls|].
    split; [exact (callsFollow_offsets P o u0 L Hparse Hnames Hoffset Hlimit Hsafe Hround
                     _ Hcalls)|].
    intros Hen HL Hempty Hworld.
    destruct (chain_progress P W o (offsetUrlText P o u0) eq_refl Hstep Hen
                (fun k hs data Hk =>
                   offsetUrlText_next P o u0 Htype Hparse Hround k hs data Hen Hk)
                (fun k Hk =>
                   offsetUrlText_differ P o u0 L Hparse Hnames Hoffset Hlimit Hsafe Hround
                     k HL Hempty Hk)
                Hworld)
      as (st' & Hrun' & _ & Hpages & Hasked).
    rewrite Hrun in Hrun'; injection Hrun' as <- ->; auto.
  - intros k; reflexivity.
  - intros hs data current u; apply (getNextPageUrl_offset P o Htype).
  - intros Hnone; unfold limitOf in Hlimit; rewrite Hnone in Hlimit.
    cbn in Hlimit; congruence.
Qed.

Lemma offset_of_the_nth_page_request_witness :
  exists st out,
    performApiExtraction Example.platform Example.alwaysOk Example.threePages
    = Some (st, out)
    /\ offsetsFollow Example.platform (pagination Example.threePages) 10 (trace st)
    /\ pagesProcessed st = 3%Z
    /\ pagesAsked (trace st) = [1; 2; 3]%Z.
Proof.
  destruct (offset_of_the_nth_page_request
              Example.platform Example.alwaysOk Example.threePages
              {| protocol := "http:"; location := "//api.test/items";
                 searchParams := []; hash := "" |} 10
              eq_refl eq_refl ltac:(vm_compute; discriminate) eq_refl eq_refl
              ltac:(intros k Hk; cbn in Hk; unfold Js.maxSafe; lia)
              ltac:(intros [|[|[|k]]] Hpos Hlt; try reflexivity; cbn in Hlt; lia))
    as ((st & out & Hrun & _ & Hoffsets & Hlive) & _).
  exists st, out; split; [exact Hrun|]. split; [exact Hoffsets|].
  destruct (Hlive eq_refl ltac:(discriminate) eq_refl) as (_ & Hpages & Hasked).
  - intros n request; do 2 eexists; repeat split; reflexivity.
  - split; [exact Hpages|exact Hasked].
Defined.

(** C7, as stated, fails above 2^53: with the limit 9007199254740993 the
    second request carries the offset 9007199254740992, the double next to
    the limit, while the limit parameter still carries 9007199254740993. *)
Lemma offset_is_rounded_above_2_53 :
  exists st out request result,
    performApiExtraction Example.platform Example.alwaysOk Example.bigLimitPages
    = Some (st, out)
    /\ In (EvFetch 2 request result) (trace st)
    /\ Fetch.url request
       = "http://api.test/items?limit=9007199254740993&offset=9007199254740992"
    /\ ((2 - 1) * 9007199254740993 <> 9007199254740992)%Z.
Proof.
  do 4 eexists; split; [vm_compute; reflexivity|].
  split; [right; left; reflexivity|].
  split; [reflexivity|lia].
Qed.

(* ================================================================= *)
(** * Further properties of the pipeline *)

(** ** Invariants that tell a thrown state from an open one *)

Section OpenInvariant.
Variable P : Platform.
Variable W : World.
Variable o : Options.
Variable Open : LoopState -> Prop.
Variable Final : LoopState -> Prop.

Hypothesis Open_final : forall st, Open st -> Final st.
Hypothesis Open_attempt :
  forall st st1 c,
    Open st -> guard o st = true -> Attempt P W o st st1 c ->
    match c with
    | Abrupt e => Final st1
                  /\ (pagesProcessed st1 <> 0%Z -> Open (stopped (warned e st1)))
    | _ => Open st1
    end.

Lemma loop_open_invariant (fuel : nat) :
  forall st st' c,
    Open st ->
    loop P W o fuel st = Some (st', c) ->
    Final st'
    /\ match c with
       | Abrupt _ => pagesProcessed st' = 0%Z
       | _ => Open st' /\ guard o st' = false
       end.
Proof.
  induction fuel as [|fuel IH]; intros st st' c Hopen Hloop; simpl in Hloop.
  - destruct (guard o st) eqn:Hguard; [discriminate|].
    injection Hloop as <- <-; auto.
  - destruct (guard o st) eqn:Hguard; [|injection Hloop as <- <-; auto].
    pose proof (Open_attempt _ _ _ Hopen Hguard (tryPage_attempt P W o st)) as Hatt.
    unfold iteration in Hloop.
    destruct (tryPage P W o st) as [st1 [| |e]]; cbn [fst snd] in Hatt.
    + exact (IH _ _ _ Hatt Hloop).
    + exact (IH _ _ _ Hatt Hloop).
    + destruct Hatt as [Hfin Hwarn].
      destruct (Z.eqb_spec (pagesProcessed st1) 0) as [Hzero|Hnz].
      * injection Hloop as <- <-; auto.
      * exact (IH _ _ _ (Hwarn Hnz) Hloop).
Qed.

(** A run settles in a final state; when it returns, the loop was left
    open-handed: by its guard, not by an exception. *)
Lemma performApiExtraction_open_invariant :
  Open (initialState o) ->
  exists st out,
    performApiExtraction P W o = Some (st, out)
    /\ Final st
    /\ ((exists e, out = Throws e /\ pagesProcessed st = 0%Z)
        \/ (out = finish o st /\ Open st /\ guard o st = false)).
Proof.
  intros Hinit.
  destruct (loop_terminates P W o _ _ (turnsLeft_initial o)) as [[st c] Hloop].
  destruct (loop_open_invariant _ _ _ _ Hinit Hloop) as [Hfin Hc].
  exists st, (match c with Abrupt e => Throws e | _ => finish o st end).
  split; [apply performApiExtraction_of_loop; exact Hloop|].
  split; [exact Hfin|].
  destruct c as [| |e]; [right; tauto|right; tauto|left; exists e; auto].
Qed.

End OpenInvariant.

(** ** Retries and calls *)

Section RetryFacts.
Variable P : Platform.
Variable W : World.
Variable o : Options.

Lemma waits_snoc (tr : list Event) (ev : Event) :
  waits (tr ++ [ev]) = match ev with EvSleep _ => (waits tr + 1)%Z | _ => waits tr end.
Proof. unfold waits; rewrite fold_left_app; reflexivity. Qed.

Lemma totalDelay_snoc (tr : list Event) (ev : Event) :
  totalDelay (tr ++ [ev])
  = match ev with EvSleep ms => (totalDelay tr + ms)%Z | _ => totalDelay tr end.
Proof. unfold totalDelay; rewrite fold_left_app; reflexivity. Qed.

Lemma fetchCalls_snoc (tr : list Event) (ev : Event) :
  fetchCalls (tr ++ [ev])
  = match ev with EvFetch _ _ _ => (fetchCalls tr + 1)%Z | _ => fetchCalls tr end.
Proof. unfold fetchCalls; rewrite fold_left_app; reflexivity. Qed.

Lemma paginate_calls (r : Fetch.Response) (parsedData : Value) (st : LoopState) :
  calls (paginate P o r parsedData st) = calls st.
Proof.
  destruct (paginate_cases P o r parsedData st) as [->|[nextUrl [-> _]]]; reflexivity.
Qed.

Lemma retriesBounded_warned (st : LoopState) (e : Exn) :
  retriesBounded st -> retriesOpen o (stopped (warned e st)).
Proof.
  intros (Hr & Hw & Hd & Hf & Hc & Hb); split; [|discriminate].
  unfold retriesBounded; cbn [stopped warned retryCount trace rateLimitHit calls pagesProcessed].
  rewrite waits_snoc, totalDelay_snoc, fetchCalls_snoc; auto 10.
Qed.

Lemma retriesOpen_attempt (st st1 : LoopState) (c : Completion) :
  retriesOpen o st -> guard o st = true -> Attempt P W o st st1 c ->
  match c with
  | Abrupt e => retriesBounded st1
                /\ (pagesProcessed st1 <> 0%Z -> retriesOpen o (stopped (warned e st1)))
  | _ => retriesOpen o st1
  end.
Proof.
  intros [(Hr & Hw & Hd & Hf & Hc & Hb) Hopen] Hguard Ha.
  destruct (Hopen Hguard) as [Hr2 Hcalls].
  assert (Hbounded : retriesBounded st1
                     /\ (c = Continue \/ c = Normal ->
                         (retryCount st1 <= 2)%Z
                         /\ Z.of_nat (calls st1) = (pagesProcessed st1 + retryCount st1)%Z)).
  { destruct Ha as [m Ew|r Ew Eok N429|r Ew E429 Hretry|r Ew E429 Hex|r m Ew Eok Et
                   |r t Ew Eok Et];
      try (destruct (paginate_keeps P o r
                       (parseApiResponse P t (responseFormat o) (dataMapping o))
                       (processed t (parseApiResponse P t (responseFormat o) (dataMapping o))
                          (received r (fetched (thisFetch W o st) st))))
             as (Hpp & _ & Htr & _ & Hrc & Hrl));
      unfold retriesBounded;
      rewrite ?Hpp, ?Htr, ?Hrc, ?Hrl, ?paginate_calls;
      cbn [retryCount trace rateLimitHit calls pagesProcessed
             rateLimited received fetched processed];
      unfold thisFetch;
      rewrite ?waits_snoc, ?totalDelay_snoc, ?fetchCalls_snoc,
        ?waits_snoc, ?totalDelay_snoc, ?fetchCalls_snoc;
      (split; [|intros [Hcc|Hcc]; try discriminate Hcc; split; lia]);
      repeat split; try lia; try assumption.
    all: symmetry; apply Z.ltb_lt; lia. }
  destruct Hbounded as [Hb1 Hgo].
  destruct c as [| |e].
  - split; [exact Hb1|intros _; apply Hgo; auto].
  - split; [exact Hb1|intros _; apply Hgo; auto].
  - split; [exact Hb1|intros _; apply retriesBounded_warned; exact Hb1].
Qed.

Lemma retriesOpen_initial : retriesOpen o (initialState o).
Proof. split; [repeat split; cbn; lia|intros _; cbn; lia]. Qed.

End RetryFacts.

(** X1.  Every run settles with a retry counter between 0 and 3 that is
    the number of waits of the run; each wait is of 2000 ms; rateLimitHit
    tells whether there was one; and the run makes at most three calls
    more than it fetches pages, hence at most the page limit plus three. *)
Theorem retries_and_calls_are_bounded (P : Platform) (W : World) (o : Options) :
  exists st out,
    performApiExtraction P W o = Some (st, out)
    /\ (0 <= retryCount st <= 3)%Z
    /\ waits (trace st) = retryCount st
    /\ totalDelay (trace st) = (2000 * retryCount st)%Z
    /\ rateLimitHit st = (0 <? retryCount st)%Z
    /\ (fetchCalls (trace st) <= pagesProcessed st + 3)%Z
    /\ (fetchCalls (trace st) <= Z.max 0 (effectiveMaxPages (pagination o)) + 3)%Z
    /\ (forall result,
           out = Returns result ->
           p_retryCount result = retryCount st /\ p_rateLimitHit result = rateLimitHit st).
Proof.
  destruct (performApiExtraction_open_invariant P W o (retriesOpen o) retriesBounded
              (fun st H => proj1 H) (retriesOpen_attempt P W o) (retriesOpen_initial o))
    as (st & out & Hrun & (Hr & Hw & Hd & Hf & Hc & Hb) & _).
  destruct (performApiExtraction_invariant P W o (withinPages o)
              (withinPages_attempt P W o) (withinPages_warned o) st out
              (withinPages_initial o) Hrun) as [Hpages _].
  exists st, out; split; [exact Hrun|].
  repeat split; try assumption; try lia.
  - destruct (performApiExtraction_returns P W o st result ltac:(subst out; exact Hrun))
      as (text & _ & ->); reflexivity.
  - destruct (performApiExtraction_returns P W o st result ltac:(subst out; exact Hrun))
      as (text & _ & ->); reflexivity.
Qed.

(** ** Runs of one page *)

Section OnePage.
Variable P : Platform.
Variable W : World.
Variable o : Options.

Hypothesis Hstop :
  forall st r responseText,
    W (calls st) (requestFor o st) = Fetch.Responded r ->
    Fetch.text r = Fetch.Text responseText ->
    enabled (pagination o) = false
    \/ getNextPageUrl P (Fetch.entries r)
         (parseApiResponse P responseText (responseFormat o) (dataMapping o))
         (pagination o) (currentUrl st) = None.

Lemma onePageOnly_attempt (st st1 : LoopState) (c : Completion) :
  onePageOnly st -> guard o st = true -> Attempt P W o st st1 c ->
  match c with
  | Abrupt e => (0 <= pagesProcessed st1 <= 1)%Z
                /\ (pagesProcessed st1 <> 0%Z -> onePageOnly (stopped (warned e st1)))
  | _ => onePageOnly st1
  end.
Proof.
  intros Hone Hguard Ha.
  destruct (guard_true o st Hguard) as [Hmore _].
  destruct Hone as [[Hzero _]|[_ Hclosed]]; [|congruence].
  destruct Ha as [m Ew|r Ew Eok N429|r Ew E429 Hretry|r Ew E429 Hex|r m Ew Eok Et
                 |r t Ew Eok Et];
    cbn [pagesProcessed hasMorePages rateLimited received fetched];
    try (split; [lia|intros Hnz; congruence]);
    try (left; split; assumption).
  right.
  assert (Hpag : paginate P o r (parseApiResponse P t (responseFormat o) (dataMapping o))
                   (processed t (parseApiResponse P t (responseFormat o) (dataMapping o))
                      (received r (fetched (thisFetch W o st) st)))
                 = stopped (processed t
                              (parseApiResponse P t (responseFormat o) (dataMapping o))
                              (received r (fetched (thisFetch W o st) st)))).
  { unfold paginate; cbn [currentUrl processed received fetched].
    destruct (Hstop st r t Ew Et) as [-> | ->]; [reflexivity|].
    destruct (enabled (pagination o) && _); reflexivity. }
  rewrite Hpag; cbn [pagesProcessed hasMorePages stopped processed received fetched].
  split; [lia|reflexivity].
Qed.

(** Where pagination never goes on, a run fetches one page at most, and
    exactly one when it returns under a positive page limit. *)
Lemma one_page_when_pagination_stops :
  exists st out,
    performApiExtraction P W o = Some (st, out)
    /\ (0 <= pagesProcessed st <= 1)%Z
    /\ forall result,
         out = Returns result ->
         (0 < effectiveMaxPages (pagination o))%Z ->
         m_pagesProcessed result = 1%Z.
Proof.
  destruct (performApiExtraction_open_invariant P W o onePageOnly
              (fun st => (0 <= pagesProcessed st <= 1)%Z)) as (st & out & Hrun & Hfin & Hout).
  - intros st [[-> _]|[-> _]]; lia.
  - exact onePageOnly_attempt.
  - left; split; reflexivity.
  - exists st, out; split; [exact Hrun|]. split; [exact Hfin|].
    intros result Hres Hmax.
    destruct (performApiExtraction_returns P W o st result ltac:(subst out; exact Hrun))
      as (text & _ & ->); cbn [buildResult m_pagesProcessed].
    destruct Hout as [(e & He & _)|(_ & Hone & Hguard)]; [congruence|].
    destruct Hone as [[Hzero Hmore]|[Hp _]]; [|exact Hp].
    unfold guard in Hguard; rewrite Hmore, Hzero in Hguard; cbn [andb] in Hguard.
    apply Z.ltb_ge in Hguard; lia.
Qed.

End OnePage.

(** X2.  Without pagination (pagination.enabled false) every run settles
    having fetched one page at most, whatever the page limit and the
    strategy say; a run that returns under a positive page limit (the
    default 10 is one) reports exactly one page. *)
Theorem without_pagination_one_page_is_fetched
  (P : Platform) (W : World) (o : Options) :
  enabled (pagination o) = false ->
  exists st out,
    performApiExtraction P W o = Some (st, out)
    /\ (0 <= pagesProcessed st <= 1)%Z
    /\ forall result,
         out = Returns result ->
         (0 < effectiveMaxPages (pagination o))%Z ->
         m_pagesProcessed result = 1%Z.
Proof.
  intros Hoff; apply one_page_when_pagination_stops.
  intros st r t _ _; left; exact Hoff.
Qed.

Lemma without_pagination_one_page_is_fetched_witness :
  exists st out,
    performApiExtraction Example.platform Example.alwaysOk Example.onePage = Some (st, out)
    /\ (0 <= pagesProcessed st <= 1)%Z
    /\ forall result,
         out = Returns result ->
         (0 < effectiveMaxPages (pagination Example.onePage))%Z ->
         m_pagesProcessed result = 1%Z.
Proof.
  exact (without_pagination_one_page_is_fetched
           Example.platform Example.alwaysOk Example.onePage eq_refl).
Defined.

(** ** Pagination by cursor *)

Lemma getNextPageUrl_cursor (P : Platform) (hs : list (string * string)) (data : Value)
  (p : Pagination) (current : string) (u : Url) :
  enabled p = true ->
  type p = Some cursor ->
  URL_parse P current = Some u ->
  getNextPageUrl P hs data p current
  = match
      match headersGet "Link" hs with
      | Some linkHeader => if negb (String.eqb linkHeader "") then linkNext linkHeader else None
      | None => None
      end
    with
    | Some next => Some next
    | None =>
        option_map
          (fun c => URL_toString P (withParam (Js.orElse (pageParam p) "cursor")
                                      (Json.toString c) u))
          (nextCursor data)
    end.
Proof.
  intros Hen Htype Hu; unfold getNextPageUrl, nextCursor; rewrite Hen, Hu, Htype.
  cbn [negb].
  destruct (match headersGet "Link" hs with
            | Some linkHeader =>
                if negb (String.eqb linkHeader "") then linkNext linkHeader else None
            | None => None
            end); [reflexivity|].
  destruct data as [| | | | |props]; try reflexivity.
  destruct (Obj.get "next_cursor" props) as [c|]; [|reflexivity].
  destruct (truthy c); reflexivity.
Qed.

(** X3.  Under pagination by cursor, in a run none of whose responses
    carries a Link header and none of whose pages, once parsed, has a
    truthy next_cursor field, one page at most is fetched, whatever the
    page limit; a run that returns under a positive page limit reports
    exactly one page. *)
Theorem cursor_without_link_or_cursor_stops_after_one_page
  (P : Platform) (W : World) (o : Options) :
  type (pagination o) = Some cursor ->
  (forall n request r, W n request = Fetch.Responded r ->
                       headersGet "Link" (Fetch.entries r) = None) ->
  (forall n request r responseText,
      W n request = Fetch.Responded r ->
      Fetch.text r = Fetch.Text responseText ->
      nextCursor (parseApiResponse P responseText (responseFormat o) (dataMapping o))
      = None) ->
  exists st out,
    performApiExtraction P W o = Some (st, out)
    /\ (0 <= pagesProcessed st <= 1)%Z
    /\ forall result,
         out = Returns result ->
         (0 < effectiveMaxPages (pagination o))%Z ->
         m_pagesProcessed result = 1%Z.
Proof.
  intros Htype Hlink Hcursor; apply one_page_when_pagination_stops.
  intros st r t Ew Et.
  destruct (enabled (pagination o)) eqn:Hen; [right|left; reflexivity].
  destruct (URL_parse P (currentUrl st)) as [u|] eqn:Hu.
  - rewrite (getNextPageUrl_cursor P _ _ _ _ u Hen Htype Hu).
    rewrite (Hlink _ _ _ Ew), (Hcursor _ _ _ _ Ew Et); reflexivity.
  - unfold getNextPageUrl; rewrite Hen, Hu; reflexivity.
Qed.

Lemma cursor_without_link_or_cursor_stops_after_one_page_witness :
  exists st out,
    performApiExtraction Example.platform Example.itemsWorld cursorJsonOptions
    = Some (st, out)
    /\ (0 <= pagesProcessed st <= 1)%Z
    /\ forall result,
         out = Returns result ->
         (0 < effectiveMaxPages (pagination cursorJsonOptions))%Z ->
         m_pagesProcessed result = 1%Z.
Proof.
  apply (cursor_without_link_or_cursor_stops_after_one_page
           Example.platform Example.itemsWorld cursorJsonOptions eq_refl).
  - intros n request r Hw; unfold Example.itemsWorld, Example.respond in Hw.
    injection Hw as <-; reflexivity.
  - intros n request r responseText Hw Ht.
    unfold Example.itemsWorld, Example.respond in Hw.
    injection Hw as <-; cbn [Fetch.text] in Ht; injection Ht as <-; reflexivity.
Defined.

Module LinkFacts.

Lemma upToGt_target (target s : string) :
  Js.occurs ">" target = false ->
  upToGt (target ++ String ">" s) = Some (target, s).
Proof.
  induction target as [|c target IH]; cbn [String.append upToGt Js.occurs]; intros H.
  - reflexivity.
  - apply orb_false_iff in H as [Hc Ht].
    rewrite Hc, (IH Ht); reflexivity.
Qed.

Lemma trimStart_space (space s : string) :
  allWhiteSpace space = true -> Js.trimStart (space ++ relNext ++ s) = relNext ++ s.
Proof.
  induction space as [|c space IH]; cbn [allWhiteSpace String.append]; intros H.
  - reflexivity.
  - apply andb_true_iff in H as [Hc Hs].
    cbn [Js.trimStart]; rewrite Hc; exact (IH Hs).
Qed.

Lemma prefix_append (a b : string) : String.prefix a (a ++ b) = true.
Proof.
  induction a as [|c a IH]; cbn [String.append String.prefix]; [destruct b; reflexivity|].
  destruct (ascii_dec c c); [exact IH|congruence].
Qed.

Lemma linkMatchAt_target (target space rest : string) :
  target <> "" ->
  Js.occurs ">" target = false ->
  allWhiteSpace space = true ->
  linkMatchAt (target ++ ">;" ++ space ++ relNext ++ rest) = Some target.
Proof.
  intros Hne Hgt Hws; unfold linkMatchAt.
  change (target ++ ">;" ++ space ++ relNext ++ rest)
    with (target ++ String ">" (String ";" (space ++ relNext ++ rest))).
  rewrite (upToGt_target _ _ Hgt).
  destruct target as [|c target]; [congruence|].
  rewrite (trimStart_space _ _ Hws), prefix_append; reflexivity.
Qed.

Lemma linkNext_target (before target space rest : string) :
  Js.occurs "<" before = false ->
  target <> "" ->
  Js.occurs ">" target = false ->
  allWhiteSpace space = true ->
  linkNext (linkHeaderFor before target space rest) = Some target.
Proof.
  intros Hlt Hne Hgt Hws; unfold linkHeaderFor.
  induction before as [|c before IH].
  - change (linkNext (String "<" (target ++ ">;" ++ space ++ relNext ++ rest))
            = Some target).
    unfold linkNext; fold linkNext.
    change (Ascii.eqb "<" "<") with true; cbv iota.
    rewrite (linkMatchAt_target _ _ _ Hne Hgt Hws); reflexivity.
  - cbn [Js.occurs] in Hlt; apply orb_false_iff in Hlt as [Hc Hb].
    change (linkNext (String c (before ++ "<" ++ target ++ ">;" ++ space ++ relNext ++ rest))
            = Some target).
    unfold linkNext; fold linkNext.
    rewrite Hc; exact (IH Hb).
Qed.

End LinkFacts.

(** X4.  Under pagination by cursor, when the Link header of the response
    has, as its first entry in angle brackets, one with the relation next,
    the next URL is the text between the brackets as it stands, whatever
    the parsed page holds (a next_cursor field is not looked at), provided
    the current URL parses. *)
Theorem link_header_next_is_followed
  (P : Platform) (hs : list (string * string)) (data : Value) (p : Pagination)
  (current : string) (u : Url) (before target space rest : string) :
  enabled p = true ->
  type p = Some cursor ->
  URL_parse P current = Some u ->
  headersGet "Link" hs = Some (linkHeaderFor before target space rest) ->
  Js.occurs "<" before = false ->
  target <> "" ->
  Js.occurs ">" target = false ->
  allWhiteSpace space = true ->
  getNextPageUrl P hs data p current = Some target.
Proof.
  intros Hen Htype Hu Hheader Hlt Hne Hgt Hws.
  rewrite (getNextPageUrl_cursor P hs data p current u Hen Htype Hu), Hheader.
  assert (Hnonempty : String.eqb (linkHeaderFor before target space rest) "" = false).
  { unfold linkHeaderFor; destruct before; reflexivity. }
  rewrite Hnonempty; cbn [negb].
  rewrite (LinkFacts.linkNext_target _ _ _ _ Hlt Hne Hgt Hws); reflexivity.
Qed.

Lemma link_header_next_is_followed_witness :
  getNextPageUrl Example.platform
    [("content-type", "text/plain");
     ("link", linkHeaderFor "" "http://api.test/items?cursor=abc" " " "")]
    (VObj [("next_cursor", VStr "zzz")]) cursorPages Example.itemsUrl
  = Some "http://api.test/items?cursor=abc".
Proof.
  apply (link_header_next_is_followed Example.platform _ _ cursorPages Example.itemsUrl
           {| protocol := "http:"; location := "//api.test/items";
              searchParams := []; hash := "" |}
           "" "http://api.test/items?cursor=abc" " " "");
    try reflexivity.
  discriminate.
Defined.

(** ** Pagination by page number *)

Section PagePagination.
Variable P : Platform.
Variable o : Options.
Variable u0 : Url.

Local Abbreviation pg := (pagination o).
Local Abbreviation M := (effectiveMaxPages (pagination o)).

Hypothesis Htype : type pg = Some page.
Hypothesis Hparse : URL_parse P (url o) = Some u0.
Hypothesis Hfirst : pageNumOf pg u0 = Js.Int 1.
Hypothesis Hsafe : (M <= Js.maxSafe)%Z.
Hypothesis Hround :
  forall k, (0 < k)%nat -> (Z.of_nat k < M)%Z ->
            URL_parse P (URL_toString P (pageSeq pg u0 k)) = Some (pageSeq pg u0 k).

Lemma pageSeq_reading (k : nat) :
  (Z.of_nat k < M)%Z ->
  pageNumOf pg (pageSeq pg u0 k) = Js.Int (Z.of_nat k + 1).
Proof.
  induction k as [|k IH]; intros Hk; [exact Hfirst|].
  cbn [pageSeq]; unfold nextPageNumUrl.
  fold (pageName pg); fold (pageNumOf pg (pageSeq pg u0 k)).
  rewrite IH by lia.
  unfold pageNumOf, withParam; cbn [searchParams].
  rewrite SearchParamsFacts.param_set_same.
  rewrite NumberFacts.sum_read_back by lia.
  f_equal; lia.
Qed.

Lemma getNextPageUrl_page (hs : list (string * string)) (data : Value)
  (current : string) (u : Url) :
  enabled pg = true ->
  URL_parse P current = Some u ->
  getNextPageUrl P hs data pg current = Some (URL_toString P (nextPageNumUrl pg u)).
Proof.
  intros Hen Hu; unfold getNextPageUrl; rewrite Hen, Hu, Htype; reflexivity.
Qed.

Lemma pageUrlText_parse (k : nat) :
  (Z.of_nat k < M)%Z ->
  URL_parse P (pageUrlText P o u0 k) = Some (pageSeq pg u0 k).
Proof.
  destruct k as [|k]; intros Hk; [exact Hparse|].
  apply Hround; lia.
Qed.

Lemma pageUrlText_next (k : nat) (hs : list (string * string)) (data : Value) :
  enabled pg = true ->
  (Z.of_nat (S k) < M)%Z ->
  getNextPageUrl P hs data pg (pageUrlText P o u0 k) = Some (pageUrlText P o u0 (S k)).
Proof.
  intros Hen Hk.
  rewrite (getNextPageUrl_page hs data _ _ Hen (pageUrlText_parse k ltac:(lia))).
  reflexivity.
Qed.

Lemma pageUrlText_step (k : nat) (hs : list (string * string)) (data : Value)
  (nextUrl : string) :
  (Z.of_nat (S k) < M)%Z ->
  getNextPageUrl P hs data pg (pageUrlText P o u0 k) = Some nextUrl ->
  nextUrl = pageUrlText P o u0 (S k).
Proof.
  intros Hk Hnext.
  destruct (enabled pg) eqn:Hen.
  - rewrite (pageUrlText_next k hs data Hen Hk) in Hnext; congruence.
  - unfold getNextPageUrl in Hnext; rewrite Hen in Hnext; discriminate.
Qed.

Lemma pageUrlText_differ (k : nat) :
  URL_parse P "" = None ->
  (Z.of_nat (S k) < M)%Z ->
  pageUrlText P o u0 (S k) <> "" /\ pageUrlText P o u0 (S k) <> pageUrlText P o u0 k.
Proof.
  intros Hempty Hk.
  pose proof (pageUrlText_parse (S k) Hk) as Hnew.
  pose proof (pageUrlText_parse k ltac:(lia)) as Hold.
  split; intros Heq; rewrite Heq in Hnew; [congruence|].
  assert (Hsame : pageSeq pg u0 (S k) = pageSeq pg u0 k) by congruence.
  pose proof (pageSeq_reading (S k) Hk) as Hn1.
  pose proof (pageSeq_reading k ltac:(lia)) as Hn.
  rewrite Hsame, Hn in Hn1.
  assert (Hnum : (Z.of_nat k + 1 = Z.of_nat (S k) + 1)%Z) by congruence.
  lia.
Qed.

Lemma callsFollow_pages (tr : list Event) :
  callsFollow M (pageUrlText P o u0) tr -> pageNumbersFollow P pg tr.
Proof.
  intros Hcalls n request result Hin.
  destruct (Hcalls n request result Hin) as [[Hone Hlt] Hurl].
  exists (pageSeq pg u0 (Z.to_nat (n - 1))).
  rewrite Hurl; split; [apply pageUrlText_parse; lia|].
  rewrite pageSeq_reading by lia; f_equal; lia.
Qed.

End PagePagination.

(** X5.  Take pagination by page number, a first URL whose page parameter
    reads 1 (it may be absent), a page limit within 2^53, and a platform
    that reads back the URLs it writes for the pages of the run.  Then the
    run settles; the request for page 1 goes to the URL of the options and
    the request for each later page to the URL computed from the one
    before it, which is that URL with the page parameter set to the page
    read from it plus one; so every request for page n goes to a URL whose
    page parameter reads n.  The requests are made: when pagination is
    enabled and every call brings a page, the pages 1 to maxPages are asked
    for, once each and in order. *)
Theorem page_number_of_the_nth_request
  (P : Platform) (W : World) (o : Options) (u0 : Url) :
  type (pagination o) = Some page ->
  URL_parse P (url o) = Some u0 ->
  pageNumOf (pagination o) u0 = Js.Int 1 ->
  (effectiveMaxPages (pagination o) <= Js.maxSafe)%Z ->
  (forall k, (0 < k)%nat -> (Z.of_nat k < effectiveMaxPages (pagination o))%Z ->
             URL_parse P (URL_toString P (pageSeq (pagination o) u0 k))
             = Some (pageSeq (pagination o) u0 k)) ->
  (exists st out,
      performApiExtraction P W o = Some (st, out)
      /\ callsFollow (effectiveMaxPages (pagination o)) (pageUrlText P o u0) (trace st)
      /\ pageNumbersFollow P (pagination o) (trace st)
      /\ (enabled (pagination o) = true ->
          URL_parse P "" = None ->
          everyCallBringsAPage W ->
          out = finish o st
          /\ pagesProcessed st = Z.max 0 (effectiveMaxPages (pagination o))
          /\ pagesAsked (trace st)
             = map Z.of_nat (seq 1 (Z.to_nat (effectiveMaxPages (pagination o))))))
  /\ (forall k,
         pageUrlText P o u0 (S k)
         = URL_toString P
             (withParam (pageName (pagination o))
                (Js.numberToString
                   (Js.add (pageNumOf (pagination o) (pageSeq (pagination o) u0 k))
                           (Js.Int 1)))
                (pageSeq (pagination o) u0 k)))
  /\ (forall hs data current u,
         enabled (pagination o) = true ->
         URL_parse P current = Some u ->
         getNextPageUrl P hs data (pagination o) current
         = Some (URL_toString P
                   (withParam (pageName (pagination o))
                      (Js.numberToString (Js.add (pageNumOf (pagination o) u) (Js.Int 1)))
                      u))).
Proof.
  intros Htype Hparse Hfirst Hsafe Hround.
  pose proof (pageUrlText_step P o u0 Htype Hparse Hround) as Hstep.
  split; [|split].
  - destruct (performApiExtraction_total P W o) as (st & out & Hrun).
    pose proof (performApiExtraction_invariant P W o
                  (chainInvariant o (pageUrlText P o u0))
                  (chainInvariant_attempt P W o _ Hstep)
                  (chainInvariant_warned o _) st out
                  (chainInvariant_initial o _ eq_refl) Hrun) as [Hcalls _].
    exists st, out; split; [exact Hrun|].
    split; [exact Hcalls|].
    split; [exact (callsFollow_pages P o u0 Hparse Hfirst Hsafe Hround _ Hcalls)|].
    intros Hen Hempty Hworld.
    destruct (chain_progress P W o (pageUrlText P o u0) eq_refl Hstep Hen
                (fun k hs data Hk =>
                   pageUrlText_next P o u0 Htype Hparse Hround k hs data Hen Hk)
                (fun k Hk =>
                   pageUrlText_differ P o u0 Hparse Hfirst Hsafe Hround k Hempty Hk)
                Hworld)
      as (st' & Hrun' & _ & Hpages & Hasked).
    rewrite Hrun in Hrun'; injection Hrun' as <- ->; auto.
  - intros k; reflexivity.
  - intros hs data current u; apply (getNextPageUrl_page P o Htype).
Qed.

Lemma page_number_of_the_nth_request_witness :
  exists st out,
    performApiExtraction Example.platform Example.alwaysOk numberedOptions = Some (st, out)
    /\ pageNumbersFollow Example.platform (pagination numberedOptions) (trace st)
    /\ pagesProcessed st = 3%Z
    /\ pagesAsked (trace st) = [1; 2; 3]%Z.
Proof.
  destruct (page_number_of_the_nth_request
              Example.platform Example.alwaysOk numberedOptions
              {| protocol := "http:"; location := "//api.test/items";
                 searchParams := []; hash := "" |}
              eq_refl eq_refl eq_refl ltac:(unfold Js.maxSafe; cbn; lia)
              ltac:(intros [|[|[|k]]] Hpos Hlt; try reflexivity; cbn in Hlt; lia))
    as ((st & out & Hrun & _ & Hpages & Hlive) & _).
  exists st, out; split; [exact Hrun|]. split; [exact Hpages|].
  destruct (Hlive eq_refl eq_refl) as (_ & Hcount & Hasked).
  - intros n request; do 2 eexists; repeat split; reflexivity.
  - split; [exact Hcount|exact Hasked].
Defined.

(** ** XML: children by name, attributes *)

Module XmlGroupFacts.

Lemma addChild_other (name childName : string) (converted : Value)
  (result r : list (string * Value)) :
  addChild childName converted result = Some r ->
  name <> childName ->
  Obj.get name r = Obj.get name result.
Proof.
  unfold addChild; intros Hadd Hne.
  destruct (Obj.get childName result) as [existing|];
    [destruct (truthy existing); [destruct existing|]
    |destruct (Obj.inherited childName); [discriminate|]];
    injection Hadd as <-; apply ObjFacts.get_set_other; exact Hne.
Qed.

Lemma addChild_same (name : string) (converted : Value) (seen : list Value)
  (result r : list (string * Value)) :
  (forall v, In v seen -> exists props, v = VObj props) ->
  Obj.get name result = groupValue seen ->
  addChild name converted result = Some r ->
  Obj.get name r = groupValue (seen ++ [converted]).
Proof.
  intros Hobj Hget; unfold addChild; rewrite Hget.
  destruct seen as [|x [|y rest]]; cbn [groupValue app].
  - destruct (Obj.inherited name); [discriminate|].
    intros H; injection H as <-; apply ObjFacts.get_set_same.
  - destruct (Hobj x (or_introl eq_refl)) as [props ->]; cbn [truthy].
    intros H; injection H as <-; apply ObjFacts.get_set_same.
  - cbn [truthy]; intros H; injection H as <-; apply ObjFacts.get_set_same.
Qed.

Lemma convertChildren_group (name : string) (children : list Element) :
  forall result seen r,
    (forall v, In v seen -> exists props, v = VObj props) ->
    Obj.get name result = groupValue seen ->
    convertChildren children (Some result) = Some r ->
    exists converted,
      Forall2 (fun c x => xmlToJson c = Some x) (childrenNamed name children) converted
      /\ Obj.get name r = groupValue (seen ++ converted).
Proof.
  induction children as [|child children IH]; intros result seen r Hobj Hget Hall.
  - injection Hall as <-; exists []; split; [constructor|].
    rewrite app_nil_r; exact Hget.
  - rewrite XmlFacts.convertChildren_cons in Hall.
    destruct (xmlToJson child) as [x|] eqn:Hx; [|discriminate].
    destruct (addChild (tagName child) x result) as [r1|] eqn:Hadd;
      [|rewrite XmlFacts.convertChildren_none in Hall; discriminate].
    cbn [childrenNamed filter].
    destruct (String.eqb_spec (tagName child) name) as [Heq|Hne].
    + destruct (IH r1 (seen ++ [x])%list r) as (converted & Hconv & Hgroup).
      * intros v Hin; apply in_app_or in Hin as [Hin|[<-|[]]];
          [auto|exact (XmlFacts.xmlToJson_object _ _ Hx)].
      * rewrite Heq in Hadd; exact (addChild_same _ _ _ _ _ Hobj Hget Hadd).
      * exact Hall.
      * exists (x :: converted); split; [constructor; assumption|].
        rewrite <- app_assoc in Hgroup; exact Hgroup.
    + apply (IH r1 seen r Hobj); [|exact Hall].
      rewrite (addChild_other _ _ _ _ _ Hadd) by (apply not_eq_sym; exact Hne).
      exact Hget.
Qed.

Lemma attributes_other (attrs : list (string * string)) :
  forall acc n,
    ~ In n (map fst attrs) ->
    Obj.get n (fold_left (fun o attr => Obj.assign (fst attr) (VStr (snd attr)) o) attrs acc)
    = Obj.get n acc.
Proof.
  induction attrs as [|[k v] attrs IH]; intros acc n Hn; cbn [fold_left]; [reflexivity|].
  cbn [map fst In] in Hn.
  rewrite IH by tauto.
  apply ObjFacts.get_assign_other; intros ->; tauto.
Qed.

Lemma attributes_last (attrs : list (string * string)) :
  forall acc i n v,
    n <> "__proto__" ->
    nth_error attrs i = Some (n, v) ->
    (forall j w, (i < j)%nat -> nth_error attrs j <> Some (n, w)) ->
    Obj.get n (fold_left (fun o attr => Obj.assign (fst attr) (VStr (snd attr)) o) attrs acc)
    = Some (VStr v).
Proof.
  induction attrs as [|[k x] attrs IH]; intros acc [|i] n v Hproto Hi Hlast;
    cbn [nth_error fold_left fst snd] in *; try discriminate.
  - injection Hi as -> ->.
    rewrite attributes_other; [apply ObjFacts.get_assign_same; exact Hproto|].
    intros Hin; apply in_map_iff in Hin as [[n' w] [Hn Hin]]; cbn [fst] in Hn; subst n'.
    apply In_nth_error in Hin as [j Hj].
    apply (Hlast (S j) w); [lia|exact Hj].
  - apply (IH _ i n v Hproto Hi).
    intros j w Hj; apply (Hlast (S j) w); lia.
Qed.

(** No attribute makes the key [__proto__]. *)
Lemma attributes_proto (attrs : list (string * string)) :
  forall acc,
    Obj.has "__proto__" acc = false ->
    Obj.has "__proto__"
      (fold_left (fun o attr => Obj.assign (fst attr) (VStr (snd attr)) o) attrs acc)
    = false.
Proof.
  induction attrs as [|[k v] attrs IH]; intros acc Hacc; cbn [fold_left]; [exact Hacc|].
  apply IH; rewrite ObjFacts.has_assign, Hacc; cbn [fst].
  destruct (String.eqb_spec "__proto__" k) as [<-|_]; reflexivity.
Qed.

Lemma convertChildren_keeps (name : string) (children : list Element) :
  forall result r,
    (forall c, In c children -> tagName c <> name) ->
    convertChildren children (Some result) = Some r ->
    Obj.get name r = Obj.get name result.
Proof.
  induction children as [|child children IH]; intros result r Hnames Hall.
  - injection Hall as <-; reflexivity.
  - rewrite XmlFacts.convertChildren_cons in Hall.
    destruct (xmlToJson child) as [x|]; [|discriminate].
    destruct (addChild (tagName child) x result) as [r1|] eqn:Hadd;
      [|rewrite XmlFacts.convertChildren_none in Hall; discriminate].
    rewrite (IH r1 r) by (auto using in_cons).
    apply (addChild_other _ _ _ _ _ Hadd), not_eq_sym, Hnames; left; reflexivity.
Qed.

End XmlGroupFacts.

(** X6.  Take an element that has children, in a tree none of whose
    elements has a child named as Object.prototype names a member.  The
    conversion is defined on it, and for every tag name other than the
    reserved @attributes the converted element holds nothing under a name
    no child has, the converted child under a name one child has, and the
    sequence of the converted children, in document order, under a name
    two or more children have.  In particular the text of an element that
    has children is dropped. *)
Theorem xml_children_are_grouped_by_name
  (tag text name : string) (attrs : list (string * string))
  (child : Element) (children : list Element) :
  plainTags (Elem tag attrs (child :: children) text) = true ->
  name <> "@attributes" ->
  exists v converted,
    xmlToJson (Elem tag attrs (child :: children) text) = Some v
    /\ Forall2 (fun c x => xmlToJson c = Some x)
         (childrenNamed name (child :: children)) converted
    /\ getIn name v = groupValue converted.
Proof.
  intros Hplain Hname.
  destruct (XmlFacts.xmlToJson_plain _ Hplain) as [v Hv].
  pose proof Hv as Hconv; rewrite XmlFacts.xmlToJson_children in Hconv.
  destruct (convertChildren _ _) as [r|] eqn:Hr; [|discriminate].
  injection Hconv as <-.
  assert (Hnone : Obj.get name
                    match attrs with
                    | [] => []
                    | _ :: _ => Obj.set "@attributes" (VObj (attributesObject attrs)) []
                    end = groupValue []).
  { destruct attrs as [|a attrs]; [reflexivity|].
    rewrite ObjFacts.get_set_other by exact Hname; reflexivity. }
  destruct (XmlGroupFacts.convertChildren_group name (child :: children) _ [] r
              (fun x H => match H with end) Hnone Hr)
    as (converted & Hall & Hgroup).
  exists (VObj r), converted; auto.
Qed.

Lemma xml_children_are_grouped_by_name_witness :
  exists v,
    xmlToJson xmlMixedTree = Some v
    /\ getIn "line" v = Some (VArr [VObj [("#text", VStr "a")]; VObj [("#text", VStr "b")]])
    /\ getIn "note" v
       = Some (VObj [("@attributes", VObj [("by", VStr "x")]); ("#text", VStr "n")]).
Proof.
  destruct (xml_children_are_grouped_by_name "order" "anb" "line"
              [("id", "7"); ("lang", "en")] (Elem "line" [] [] "a")
              [Elem "note" [("by", "x")] [] "n"; Elem "line" [] [] "b"]
              eq_refl ltac:(discriminate)) as (v & converted & Hv & _ & _).
  exists v; split; [exact Hv|].
  change (xmlToJson xmlMixedTree = Some v) in Hv.
  vm_compute in Hv; injection Hv as <-; split; reflexivity.
Defined.

(** X7.  In such a tree an element with attributes holds them under
    @attributes, whether it has children (none of them named @attributes)
    or not: each attribute name other than __proto__ is mapped to its
    value, and an attribute named __proto__ leaves no key.  A leaf with
    attributes is the object with the two keys @attributes and #text, in
    that order; and an element without attributes whose children are not
    named @attributes has no such key. *)
Theorem xml_attributes_are_kept
  (tag text : string) (attrs : list (string * string)) (children : list Element) :
  plainTags (Elem tag attrs children text) = true ->
  (forall c, In c children -> tagName c <> "@attributes") ->
  exists v,
    xmlToJson (Elem tag attrs children text) = Some v
    /\ getIn "@attributes" v
       = match attrs with
         | [] => None
         | _ :: _ => Some (VObj (attributesObject attrs))
         end
    /\ (forall i n x,
           n <> "__proto__" ->
           nth_error attrs i = Some (n, x) ->
           (forall j w, (i < j)%nat -> nth_error attrs j <> Some (n, w)) ->
           Obj.get n (attributesObject attrs) = Some (VStr x))
    /\ Obj.get "__proto__" (attributesObject attrs) = None
    /\ (attrs <> [] -> children = [] ->
        v = VObj [("@attributes", VObj (attributesObject attrs)); ("#text", VStr text)]).
Proof.
  intros Hplain Hchildren.
  destruct (XmlFacts.xmlToJson_plain _ Hplain) as [v Hv].
  exists v; split; [exact Hv|].
  split; [|split; [|split]].
  - destruct children as [|child children].
    + injection Hv as <-; destruct attrs; reflexivity.
    + rewrite XmlFacts.xmlToJson_children in Hv.
      destruct (convertChildren _ _) as [r|] eqn:Hr; [|discriminate].
      injection Hv as <-; cbn [getIn].
      rewrite (XmlGroupFacts.convertChildren_keeps _ _ _ _ Hchildren Hr).
      destruct attrs; reflexivity.
  - intros i n x Hproto Hi Hlast.
    apply (XmlGroupFacts.attributes_last attrs [] i n x Hproto Hi Hlast).
  - pose proof (XmlGroupFacts.attributes_proto attrs [] eq_refl) as Hnone.
    unfold Obj.has in Hnone; unfold attributesObject.
    destruct (Obj.get "__proto__" _); [discriminate|reflexivity].
  - intros Hne ->; injection Hv as <-.
    destruct attrs; [congruence|reflexivity].
Qed.

Lemma xml_attributes_are_kept_witness :
  exists v,
    xmlToJson xmlMixedTree = Some v
    /\ getIn "@attributes" v = Some (VObj [("id", VStr "7"); ("lang", VStr "en")]).
Proof.
  destruct (xml_attributes_are_kept "order" "anb"
              [("id", "7"); ("lang", "en")]
              [Elem "line" [] [] "a"; Elem "note" [("by", "x")] [] "n";
               Elem "line" [] [] "b"] eq_refl) as (v & Hv & Hattrs & _).
  - intros c [<-|[<-|[<-|[]]]]; discriminate.
  - exists v; split; [exact Hv|exact Hattrs].
Defined.

(** ** Field mapping *)

Module MappingFacts.

Lemma split_append (sep : ascii) (a b : string) :
  Js.split sep (a ++ String sep b) = (Js.split sep a ++ Js.split sep b)%list.
Proof.
  induction a as [|c a IH]; cbn [String.append Js.split].
  - rewrite Ascii.eqb_refl; reflexivity.
  - destruct (Ascii.eqb c sep); [rewrite IH; reflexivity|].
    rewrite IH.
    pose proof (JsFacts.split_not_nil sep a) as Hne.
    destruct (Js.split sep a) as [|cell rest]; [congruence|reflexivity].
Qed.

Lemma split_whole (sep : ascii) (a : string) :
  Js.occurs sep a = false -> Js.split sep a = [a].
Proof.
  induction a as [|c a IH]; cbn [Js.occurs Js.split]; [reflexivity|].
  intros H; apply orb_false_iff in H as [Hc Ha].
  rewrite Hc, (IH Ha); reflexivity.
Qed.

(** Splitting at the dots what was joined with dots. *)
Lemma split_join (keys : list string) :
  keys <> [] ->
  (forall k, In k keys -> Js.occurs "." k = false) ->
  Js.split "." (Js.join "." keys) = keys.
Proof.
  induction keys as [|k [|k' rest] IH]; intros Hne Hfree; [congruence| |].
  - apply split_whole, Hfree; left; reflexivity.
  - change (Js.join "." (k :: k' :: rest)) with (k ++ String "." (Js.join "." (k' :: rest))).
    rewrite split_append, split_whole by (apply Hfree; left; reflexivity).
    rewrite IH; [reflexivity|discriminate|intros x Hx; apply Hfree; right; exact Hx].
Qed.

(** The walk along the keys of a nest leads to what was nested. *)
Lemma walkPath_nest (keys : list string) (v : Value) :
  walkPath keys (nest keys v) = Some v.
Proof.
  induction keys as [|k keys IH]; [reflexivity|].
  cbn [nest walkPath truthy typeofObject hasIn getIn andb].
  unfold Obj.has; cbn [Obj.get]; rewrite String.eqb_refl; exact IH.
Qed.

Lemma extract_nest (keys : list string) (v : Value) (dm : DataMapping) :
  keys <> [] ->
  (forall k, In k keys -> Js.occurs "." k = false) ->
  Js.join "." keys <> "" ->
  rootPath dm = Some (Js.join "." keys) ->
  extractDataFromJson (nest keys v) (Some dm) = applyFields dm v.
Proof.
  intros Hne Hfree Hpath Hroot.
  unfold extractDataFromJson, applyFields; rewrite Hroot.
  destruct (Js.join "." keys) as [|c path] eqn:Hjoin; [congruence|].
  cbn [Js.present negb Js.orElse]; rewrite <- Hjoin.
  rewrite (split_join keys Hne Hfree), walkPath_nest; reflexivity.
Qed.

(** The fold of [mapItem], from any record built so far. *)
Lemma mapItem_fold (all : list (string * string)) (item : Value) (fs : list (string * string)) :
  forall mapped,
    (forall entry, In entry fs -> In entry all) ->
    Obj.has "__proto__" mapped = false
    /\ (forall k v, Obj.get k mapped = Some v ->
                    exists oldKey, In (k, oldKey) all /\ getIn oldKey item = Some v) ->
    Obj.has "__proto__" (mapFields fs item mapped) = false
    /\ forall k v,
         Obj.get k (mapFields fs item mapped) = Some v ->
         exists oldKey, In (k, oldKey) all /\ getIn oldKey item = Some v.
Proof.
  induction fs as [|[newKey oldKey] fs IH]; intros mapped Hsub Hmapped;
    cbn [mapFields fold_left]; [exact Hmapped|].
  apply IH; [intros entry Hin; apply Hsub; right; exact Hin|].
  destruct (truthy item && typeofObject item && hasIn oldKey item); [|exact Hmapped].
  destruct (getIn oldKey item) as [x|] eqn:Hx; [|exact Hmapped].
  destruct Hmapped as [Hproto Hkeys]; split.
  - rewrite ObjFacts.has_assign, Hproto.
    destruct (String.eqb_spec "__proto__" newKey) as [<-|_]; reflexivity.
  - intros k' v' Hget.
    destruct (string_dec k' newKey) as [->|Hne].
    + unfold Obj.assign in Hget.
      destruct (String.eqb newKey "__proto__" && negb (Obj.has newKey mapped));
        [apply Hkeys; exact Hget|].
      rewrite ObjFacts.get_set_same in Hget; injection Hget as <-.
      exists oldKey; split; [apply Hsub; left; reflexivity|exact Hx].
    + rewrite ObjFacts.get_assign_other in Hget by exact Hne; apply Hkeys; exact Hget.
Qed.

(** An item comes out as it is, or as a projection on the declared keys. *)
Lemma mapItem_cases (fs : list (string * string)) (item : Value) :
  mapItem fs item = item
  \/ exists mapped, mapItem fs item = VObj mapped /\ projectionOf fs item mapped.
Proof.
  unfold mapItem.
  assert (Hempty : Obj.has "__proto__" (@nil (string * Value)) = false
                   /\ (forall k v, Obj.get k (@nil (string * Value)) = Some v ->
                                   exists oldKey, In (k, oldKey) fs /\ getIn oldKey item = Some v))
    by (split; [reflexivity|intros k v H; discriminate H]).
  pose proof (mapItem_fold fs item fs [] (fun _ H => H) Hempty) as [Hproto Hfold].
  destruct (mapFields fs item []) as [|kv mapped]; [left; reflexivity|].
  right; eexists; split; [reflexivity|].
  split; [discriminate|]. split; [|exact Hfold].
  unfold Obj.has in Hproto.
  destruct (Obj.get "__proto__" (kv :: mapped)); [discriminate|reflexivity].
Qed.

(** An item none of whose declared source keys is there comes out as it is. *)
Lemma mapItem_unmapped (fs : list (string * string)) (item : Value) :
  (forall newKey oldKey, In (newKey, oldKey) fs ->
                         truthy item && typeofObject item && hasIn oldKey item = false) ->
  mapItem fs item = item.
Proof.
  intros Hnone; unfold mapItem.
  assert (Hfold : mapFields fs item [] = []).
  { unfold mapFields.
    induction fs as [|[newKey oldKey] fs IH]; cbn [fold_left]; [reflexivity|].
    rewrite (Hnone newKey oldKey (or_introl eq_refl)).
    apply IH; intros n k Hin; apply (Hnone n k); right; exact Hin. }
  rewrite Hfold; reflexivity.
Qed.

End MappingFacts.





(** ** Record count and response size *)

Section SizeFacts.
Variable P : Platform.
Variable W : World.
Variable o : Options.

Lemma sizeOfPages_snoc (tr : list Event) (ev : Event) :
  sizeOfPages (tr ++ [ev]) = (sizeOfPages tr + sizeOfEvent ev)%Z.
Proof. unfold sizeOfPages; rewrite fold_left_app; reflexivity. Qed.

Lemma sizeOfPages_nonneg (tr : list Event) : (0 <= sizeOfPages tr)%Z.
Proof.
  induction tr as [|ev tr IH] using rev_ind; [cbn; lia|].
  rewrite sizeOfPages_snoc.
  assert (0 <= sizeOfEvent ev)%Z; [|lia].
  destruct ev as [n request [r|m]|ms|n e]; cbn [sizeOfEvent]; try lia.
  destruct (Fetch.ok r); [destruct (Fetch.text r)|]; lia.
Qed.

Lemma paginate_size (r : Fetch.Response) (parsedData : Value) (st : LoopState) :
  totalResponseSize (paginate P o r parsedData st) = totalResponseSize st.
Proof.
  destruct (paginate_cases P o r parsedData st) as [->|[nextUrl [-> _]]]; reflexivity.
Qed.

Lemma tracksSize_attempt (st st1 : LoopState) (c : Completion) :
  tracksSize st -> guard o st = true -> Attempt P W o st st1 c -> tracksSize st1.
Proof.
  unfold tracksSize; intros Hsize _ Ha.
  destruct Ha as [m Ew|r Ew Eok _|r Ew E429 _|r Ew E429 _|r m Ew Eok Et|r t Ew Eok Et];
    try (pose proof (ok_429 r E429) as Eok);
    try (rewrite paginate_size;
         destruct (paginate_keeps P o r
                     (parseApiResponse P t (responseFormat o) (dataMapping o))
                     (processed t (parseApiResponse P t (responseFormat o) (dataMapping o))
                        (received r (fetched (thisFetch W o st) st))))
           as (_ & _ & -> & _));
    cbn [totalResponseSize trace rateLimited received fetched processed];
    rewrite ?sizeOfPages_snoc, ?sizeOfPages_snoc;
    unfold thisFetch; rewrite Ew; cbn [sizeOfEvent];
    rewrite ?Eok, ?Et; lia.
Qed.

Lemma tracksSize_warned (st : LoopState) (e : Exn) :
  tracksSize st -> tracksSize (stopped (warned e st)).
Proof.
  unfold tracksSize; cbn [totalResponseSize trace stopped warned].
  rewrite sizeOfPages_snoc; cbn [sizeOfEvent]; lia.
Qed.

(** In the text format every page is one record. *)
Lemma text_pages_are_single (tr : list Event) :
  responseFormat o = text ->
  List.length (List.concat (pagesOf P o tr)) = List.length (pagesOf P o tr).
Proof.
  intros Htext; induction tr as [|ev tr IH]; [reflexivity|].
  unfold pagesOf in *; cbn [flat_map].
  rewrite concat_app, !length_app, IH; f_equal.
  destruct ev as [n request [r|m]|ms|n e]; cbn [pageOfEvent]; try reflexivity.
  destruct (Fetch.ok r); [|reflexivity].
  destruct (Fetch.text r); [|reflexivity].
  rewrite Htext; reflexivity.
Qed.

End SizeFacts.

(** X10.  Every run settles, and a returned result reports as recordCount
    the number of records of all the pages fetched, taken in order, as
    pagesProcessed the number of those pages, and as responseSize the
    total length of their texts (never negative).  In the text format
    every page is one record, so recordCount equals pagesProcessed. *)
Theorem record_count_and_size_are_those_of_the_pages
  (P : Platform) (W : World) (o : Options) :
  exists st out,
    performApiExtraction P W o = Some (st, out)
    /\ allData st = List.concat (pagesOf P o (trace st))
    /\ forall result,
         out = Returns result ->
         recordCount result = Z.of_nat (List.length (List.concat (pagesOf P o (trace st))))
         /\ m_pagesProcessed result = Z.of_nat (List.length (pagesOf P o (trace st)))
         /\ responseSize result = sizeOfPages (trace st)
         /\ (0 <= responseSize result)%Z
         /\ (responseFormat o = text -> recordCount result = m_pagesProcessed result).
Proof.
  destruct (performApiExtraction_total P W o) as (st & out & Hrun).
  destruct (performApiExtraction_invariant P W o (tracksTrace P o)
              (tracksTrace_attempt P W o) (tracksTrace_warned P o) st out
              (tracksTrace_initial P o) Hrun) as (_ & Hdata & Hpages).
  pose proof (performApiExtraction_invariant P W o tracksSize
                (tracksSize_attempt P W o) tracksSize_warned st out eq_refl Hrun) as Hsize.
  exists st, out; split; [exact Hrun|]. split; [exact Hdata|].
  intros result ->.
  destruct (performApiExtraction_returns P W o st result Hrun) as (formatted & _ & ->).
  cbn [buildResult recordCount m_pagesProcessed responseSize].
  rewrite Hsize, Hpages, Hdata.
  repeat split.
  - apply sizeOfPages_nonneg.
  - intros Htext; rewrite (text_pages_are_single P o _ Htext); reflexivity.
Qed.

(** ** Rendering: bounds, truncation, failures *)

Module RenderFacts.

Lemma length_append (a b : string) :
  String.length (a ++ b) = (String.length a + String.length b)%nat.
Proof. induction a as [|c a IH]; cbn; [reflexivity|rewrite IH; reflexivity]. Qed.

Lemma length_substring (m : nat) :
  forall s, String.length (String.substring 0 m s) = Nat.min m (String.length s).
Proof.
  induction m as [|m IH]; intros [|c s]; cbn; try reflexivity.
  rewrite IH; reflexivity.
Qed.

Lemma length_clamp (s : string) :
  (Z.of_nat (String.length (clamp s)) <= 25066)%Z
  /\ ((Z.of_nat (String.length s) <= 25000)%Z -> clamp s = s).
Proof.
  unfold clamp.
  destruct (Z.ltb_spec 25000 (Z.of_nat (String.length s))) as [Hlong|Hshort].
  - split; [|lia].
    rewrite length_append, length_substring.
    change (String.length (nl ++ nl ++ "[Content truncated due to size - full data available for export]"))
      with 66%nat.
    lia.
  - split; [lia|reflexivity].
Qed.

Lemma userIds_throws (data : list Value) :
  throws (userIds data) = existsb isNull data.
Proof.
  induction data as [|item data IH]; [reflexivity|].
  cbn [userIds existsb].
  destruct item; cbn [userIdOf isNull orb throws]; try reflexivity;
    destruct (userIds data); cbn [throws] in *; exact IH.
Qed.

Lemma datasetSummary_throws (data : list Value) :
  throws (datasetSummary data) = summaryFails data.
Proof.
  unfold datasetSummary, summaryFails.
  destruct data as [|sampleRecord rest]; [reflexivity|].
  destruct sampleRecord as [| | | |items|props]; try reflexivity.
  cbn [typeofObject objectKeys].
  destruct (Obj.get "userId" props) as [c|]; [|reflexivity].
  cbn [option_map]; destruct (truthy c); [|reflexivity].
  cbn [andb]; rewrite <- userIds_throws.
  destruct (userIds (VObj props :: rest)); reflexivity.
Qed.

Lemma truncated_iff_more_than_five (data : list Value) :
  (maxRecordsToShow data <? List.length data)%nat = (5 <? List.length data)%nat.
Proof.
  unfold maxRecordsToShow.
  destruct (Nat.ltb_spec 20 (List.length data));
    destruct (Nat.ltb_spec 5 (List.length data));
    match goal with |- (?a <? ?b)%nat = _ => destruct (Nat.ltb_spec a b) end;
    try reflexivity; lia.
Qed.

End RenderFacts.

(** X11.  Whatever the data and the format, a rendering that the formatter
    returns has at most 25066 characters: 25000 of the text and the 66 of
    the truncation notice. *)
Theorem rendering_is_bounded (data : list Value) (format : ResponseFormat) (out : string) :
  formatExtractedData data format = Returns out ->
  (Z.of_nat (String.length out) <= 25066)%Z.
Proof.
  unfold formatExtractedData; intros Hout.
  destruct data as [|d data]; [apply FormatFacts.Returns_inj in Hout; subst out; cbn; lia|].
  destruct (isJson format).
  - destruct (maxRecordsToShow (d :: data) <? List.length (d :: data))%nat.
    + destruct (datasetSummary (d :: data)); [|discriminate].
      apply FormatFacts.Returns_inj in Hout; rewrite <- Hout; apply RenderFacts.length_clamp.
    + apply FormatFacts.Returns_inj in Hout; rewrite <- Hout; apply RenderFacts.length_clamp.
  - apply FormatFacts.Returns_inj in Hout; rewrite <- Hout; apply RenderFacts.length_clamp.
Qed.

Lemma rendering_is_bounded_witness :
  (Z.of_nat (String.length sixRecordsRendering) <= 25066)%Z.
Proof.
  apply (rendering_is_bounded sixRecords text sixRecordsRendering); reflexivity.
Defined.

(** X12.  For every dataset of more than 20 records the formatter samples
    the first 10.  Outside the JSON format it returns the header, one block
    per sampled record and the notice that tells how many records, the
    count minus 10, were left out; in the JSON format a rendering it
    returns has the sampled array, the same notice and then the summary. *)
Theorem formatter_samples_ten_of_a_large_dataset
  (data : list Value) (format : ResponseFormat) :
  (20 < List.length data)%nat ->
  sampleData data = firstn 10 data
  /\ List.length (recordBlocks 0 (sampleData data)) = 10%nat
  /\ truncationNotice data
     = nl ++ nl ++ "... and " ++ showNat (List.length data - 10)
       ++ " more records (truncated for display)"
  /\ (isJson format = false ->
      formatExtractedData data format
      = Returns
          (clamp (formatHeader data format ++ "EXTRACTED DATA - " ++ showingLine data
                  ++ appendAll (recordBlocks 0 (firstn 10 data))
                  ++ truncationNotice data)))
  /\ (isJson format = true ->
      forall out,
        formatExtractedData data format = Returns out ->
        exists summary,
          datasetSummary data = Returns summary
          /\ out = clamp (formatHeader data format ++ "EXTRACTED DATA (JSON) - "
                          ++ showingLine data
                          ++ Json.stringify (VArr (firstn 10 data))
                          ++ truncationNotice data ++ summary)).
Proof.
  intros Hlarge.
  pose proof (FormatFacts.maxRecordsToShow_large data Hlarge) as Hmax.
  assert (Hsample : sampleData data = firstn 10 data)
    by (unfold sampleData; rewrite Hmax; reflexivity).
  assert (Hlt : (maxRecordsToShow data <? List.length data)%nat = true)
    by (rewrite Hmax; apply Nat.ltb_lt; lia).
  split; [exact Hsample|].
  split; [rewrite FormatFacts.length_recordBlocks, FormatFacts.length_sampleData; exact Hmax|].
  split; [unfold truncationNotice; rewrite Hmax; reflexivity|].
  split.
  - intros Hfmt; unfold formatExtractedData.
    destruct data as [|d data']; [cbn in Hlarge; lia|].
    rewrite Hfmt, Hlt, FormatFacts.renderRecords_blocks, Hsample.
    rewrite !JsFacts.append_assoc; reflexivity.
  - intros Hfmt out Hout; unfold formatExtractedData in Hout.
    destruct data as [|d data']; [cbn in Hlarge; lia|].
    rewrite Hfmt, Hlt, Hsample in Hout.
    destruct (datasetSummary (d :: data')) as [summary|e]; [|discriminate].
    exists summary; split; [reflexivity|].
    apply FormatFacts.Returns_inj in Hout; rewrite <- Hout.
    rewrite !JsFacts.append_assoc; reflexivity.
Qed.

Lemma formatter_samples_ten_of_a_large_dataset_witness :
  sampleData twentyFiveRecords = repeat (VStr "r") 10
  /\ truncationNotice twentyFiveRecords
     = nl ++ nl ++ "... and 15 more records (truncated for display)".
Proof.
  destruct (formatter_samples_ten_of_a_large_dataset twentyFiveRecords text
              ltac:(cbn; lia)) as (Hsample & _ & Hnotice & _).
  split; [rewrite Hsample; reflexivity|rewrite Hnotice; reflexivity].
Defined.

(** X13.  The formatter throws exactly when the format is JSON, there are
    more than five records, and the first record is null or it has a truthy
    userId while some record is null; it returns in every other case, so
    always outside the JSON format.  A run that fetched a page fails only
    in this way: its outcome is that of the rendering of what it gathered. *)
Theorem rendering_fails_only_on_null_records :
  (forall (data : list Value) (format : ResponseFormat),
      throws (formatExtractedData data format)
      = isJson format && (5 <? List.length data)%nat && summaryFails data)
  /\ (forall (P : Platform) (W : World) (o : Options),
         exists st out,
           performApiExtraction P W o = Some (st, out)
           /\ ((0 < pagesProcessed st)%Z ->
               out = finish o st
               /\ throws out
                  = isJson (responseFormat o) && (5 <? List.length (allData st))%nat
                    && summaryFails (allData st)))
  /\ throws (formatExtractedData nullFirstRecords json) = true.
Proof.
  assert (Hfmt : forall data format,
             throws (formatExtractedData data format)
             = isJson format && (5 <? List.length data)%nat && summaryFails data).
  { intros data format; unfold formatExtractedData.
    destruct data as [|d data]; [destruct (isJson format); reflexivity|].
    destruct (isJson format); [|reflexivity].
    rewrite RenderFacts.truncated_iff_more_than_five; cbn [andb].
    destruct (5 <? List.length (d :: data))%nat; [|reflexivity].
    rewrite <- RenderFacts.datasetSummary_throws.
    destruct (datasetSummary (d :: data)); reflexivity. }
  split; [exact Hfmt|]. split; [|reflexivity].
  intros P W o.
  destruct (performApiExtraction_open_invariant P W o (fun _ => True) (fun _ => True))
    as (st & out & Hrun & _ & Hout); auto.
  { intros st st1 c _ _ _; destruct c; auto. }
  exists st, out; split; [exact Hrun|].
  intros Hpos.
  destruct Hout as [(e & _ & Hzero)|(-> & _)]; [lia|].
  split; [reflexivity|].
  unfold finish; rewrite <- Hfmt.
  destruct (formatExtractedData (allData st) (responseFormat o)); reflexivity.
Qed.

(** ** Request headers *)

Module HeaderFacts.

Lemma withContentType_other (m : Method.t) (b : option string)
  (hs : list (string * string)) (k : string) :
  k <> "Content-Type" ->
  Obj.get k (withContentType m b hs) = Obj.get k hs.
Proof.
  intros Hk; unfold withContentType.
  destruct (Method.hasBody m && Js.present b
            && negb (Js.present (Obj.get "Content-Type" hs))); [|reflexivity].
  apply ObjFacts.get_set_other; exact Hk.
Qed.

Lemma withContentType_kept (m : Method.t) (b : option string)
  (hs : list (string * string)) (k v : string) :
  Obj.get k hs = Some v -> v <> "" ->
  Obj.get k (withContentType m b hs) = Some v.
Proof.
  intros Hget Hv.
  destruct (string_dec k "Content-Type") as [->|Hk].
  - unfold withContentType; rewrite Hget.
    destruct v as [|c v]; [congruence|].
    cbn [Js.present negb]; rewrite andb_false_r; exact Hget.
  - rewrite withContentType_other by exact Hk; exact Hget.
Qed.

Lemma present_orElse (s : option string) (d : string) :
  Js.present s = true -> Js.orElse s d <> "" /\ s = Some (Js.orElse s d).
Proof. destruct s as [[|c s]|]; cbn; intros H; try discriminate; split; congruence. Qed.

End HeaderFacts.

(** X14.  In the object of headers handed to fetch, whose property names
    are told apart by case, the property of the authentication mode
    replaces the caller's property of exactly that name: with a bearer or
    an OAuth token Authorization is Bearer and the token, with a user name
    and a password it is Basic and the base-64 text of name:password, and
    with an API key the property of the configured name (X-API-Key unless
    set) is the key, unless that name is __proto__ and the caller gave no
    such property: then the assignment adds nothing.  Every other
    property of the caller, Content-Type apart, is handed over as the
    caller gave it, one named authorization in lower case included. *)
Theorem authentication_header_is_set_by_exact_name (o : Options) :
  (authType (authentication o) = bearer ->
   Js.present (credential (authentication o) token) = true ->
   Obj.get "Authorization" (buildRequestHeaders o)
   = Some ("Bearer " ++ Js.orElse (credential (authentication o) token) ""))
  /\ (authType (authentication o) = oauth ->
      Js.present (credential (authentication o) oauthToken) = true ->
      Obj.get "Authorization" (buildRequestHeaders o)
      = Some ("Bearer " ++ Js.orElse (credential (authentication o) oauthToken) ""))
  /\ (authType (authentication o) = basic ->
      Js.present (credential (authentication o) username) = true ->
      Js.present (credential (authentication o) password) = true ->
      Obj.get "Authorization" (buildRequestHeaders o)
      = Some ("Basic "
              ++ Js.btoa (Js.orElse (credential (authentication o) username) "" ++ ":"
                          ++ Js.orElse (credential (authentication o) password) "")))
  /\ (authType (authentication o) = api_key ->
      Js.present (credential (authentication o) apiKey) = true ->
      apiKeyHeaderName (authentication o) <> "__proto__"
      \/ Obj.has "__proto__" (headers o) = true ->
      Obj.get (apiKeyHeaderName (authentication o)) (buildRequestHeaders o)
      = credential (authentication o) apiKey)
  /\ (authType (authentication o) = api_key ->
      apiKeyHeaderName (authentication o) = "__proto__" ->
      Obj.has "__proto__" (headers o) = false ->
      buildRequestHeaders o = withContentType (method o) (body o) (headers o))
  /\ (forall k,
         k <> "Content-Type" ->
         k <> "Authorization" ->
         k <> apiKeyHeaderName (authentication o) ->
         Obj.get k (buildRequestHeaders o) = Obj.get k (headers o)).
Proof.
  unfold buildRequestHeaders, withAuthentication, apiKeyHeaderName.
  repeat split.
  - intros -> Hp; rewrite Hp.
    apply HeaderFacts.withContentType_kept; [apply ObjFacts.get_set_same|discriminate].
  - intros -> Hp; rewrite Hp.
    apply HeaderFacts.withContentType_kept; [apply ObjFacts.get_set_same|discriminate].
  - intros -> Hu Hp; rewrite Hu, Hp; cbn [andb].
    apply HeaderFacts.withContentType_kept; [apply ObjFacts.get_set_same|discriminate].
  - intros -> Hp Hname; rewrite Hp.
    destruct (HeaderFacts.present_orElse _ "" Hp) as [Hne Heq].
    rewrite Heq at 2.
    apply HeaderFacts.withContentType_kept; [|exact Hne].
    destruct Hname as [Hname|Hown].
    + apply ObjFacts.get_assign_same; exact Hname.
    + unfold Obj.assign.
      destruct (String.eqb_spec (Js.orElse (credential (authentication o) apiKeyHeader)
                                           "X-API-Key") "__proto__") as [->|_];
        [rewrite Hown|]; apply ObjFacts.get_set_same.
  - intros -> Hname Hown.
    destruct (Js.present (credential (authentication o) apiKey)); [|reflexivity].
    rewrite Hname, ObjFacts.assign_proto by exact Hown; reflexivity.
  - intros k Hct Hauth Hkey.
    rewrite HeaderFacts.withContentType_other by exact Hct.
    destruct (authType (authentication o)); try reflexivity;
      match goal with
      | |- context [if ?b then _ else _] => destruct b
      end; try reflexivity;
      [apply ObjFacts.get_assign_other|apply ObjFacts.get_set_other ..]; assumption.
Qed.

Lemma authentication_header_is_set_by_exact_name_witness :
  Obj.get "Authorization" (buildRequestHeaders bearerOverCaller) = Some "Bearer t0k"
  /\ Obj.get "authorization" (buildRequestHeaders bearerOverCaller) = Some "Basic low"
  /\ Obj.get "Accept" (buildRequestHeaders bearerOverCaller) = Some "text/csv"
  /\ buildRequestHeaders protoKeyHeader = [("Accept", "text/csv")].
Proof.
  destruct (authentication_header_is_set_by_exact_name bearerOverCaller)
    as (Hbearer & _ & _ & _ & _ & Hother).
  destruct (authentication_header_is_set_by_exact_name protoKeyHeader) as (_ & _ & _ & _ & Hproto & _).
  split; [exact (Hbearer eq_refl eq_refl)|].
  split; [rewrite Hother; [reflexivity|discriminate..]|].
  split; [rewrite Hother; [reflexivity|discriminate..]|].
  rewrite Hproto; reflexivity.
Defined.

(** ** The handler *)

(** The answer to a URL that fails a check. *)
Lemma POST_refused_message (P : Platform) (W : World) (r : Request.t) :
  acceptsUrl P (Request.url r) = false ->
  exists error,
    POST P W r = Some ([], badRequest error)
    /\ (error = "API endpoint URL is required"
        \/ error = "Invalid API endpoint URL format"
        \/ error = "Only HTTP and HTTPS URLs are allowed")
    /\ (Js.trim (Request.url r) = "" -> error = "API endpoint URL is required").
Proof.
  intros Hurl; unfold acceptsUrl in Hurl; unfold POST, handle.
  destruct (String.eqb (Request.url r) ""
            || (String.length (Js.trim (Request.url r)) =? 0)%nat) eqn:Hblank.
  - eexists; split; [reflexivity|]; split; auto.
  - assert (Hnonblank : Js.trim (Request.url r) <> "").
    { apply orb_false_iff in Hblank as [_ Hlen].
      intros Hempty; rewrite Hempty in Hlen; discriminate. }
    destruct (URL_parse P (Request.url r)) as [validUrl|].
    + cbn [negb andb] in Hurl; rewrite Hurl; cbn [negb].
      eexists; split; [reflexivity|]; split; [auto|intros; contradiction].
    + eexists; split; [reflexivity|]; split; [auto|intros; contradiction].
Qed.

(** A run whose first call fails: one call, and the failure is thrown. *)
Lemma first_call_rejected (P : Platform) (W : World) (o : Options) (m : string) :
  (0 < effectiveMaxPages (pagination o))%Z ->
  W 0%nat (requestFor o (initialState o)) = Fetch.Rejected m ->
  exists st,
    performApiExtraction P W o = Some (st, Throws (FetchRejected m))
    /\ trace st = [EvFetch 1 (requestFor o (initialState o)) (Fetch.Rejected m)].
Proof.
  intros Hmax Hw.
  eexists; split.
  - apply (performApiExtraction_of_loop P W o _ (Abrupt _)).
    apply (loop_from_after P W o 0 (initialState o) _ eq_refl).
    exists 1%nat; cbn [loop].
    assert (Hguard : guard o (initialState o) = true)
      by (unfold guard; cbn [initialState hasMorePages pagesProcessed andb];
          apply Z.ltb_lt; exact Hmax).
    rewrite Hguard.
    unfold iteration, tryPage; cbn [initialState calls]; rewrite Hw.
    cbn [fetched pagesProcessed Z.eqb]; reflexivity.
  - reflexivity.
Qed.

(** X15.  The handler always answers, with status 400, 200 or 500.  When
    the body cannot be read it answers 500 with the text of the outer
    catch, the message of the exception as details and no metadata,
    having made no call.  For a body that is read: it answers 400 exactly
    when the URL fails a check, and then it has made no call and the body
    is one of the three validation messages, the first of them for a URL
    that is empty or blank; otherwise it answers 500 with the text of the
    extraction failure, the message as details and a metadata block of
    zeros when the extraction throws, and 200 with the result when it
    returns.  Where calls with a negative time-out fail, a request with
    such a time-out and an accepted URL is answered 500 after one
    attempt, unless its page limit is negative. *)
Theorem handler_answers_400_200_or_500 (P : Platform) (W : World) (request : NextRequest) :
  exists tr resp,
    POST P W request = Some (tr, resp)
    /\ (httpStatus resp = 400%Z \/ httpStatus resp = 200%Z \/ httpStatus resp = 500%Z)
    /\ (forall error,
           request = Unreadable error ->
           tr = []
           /\ resp = {| httpStatus := 500;
                        json_body :=
                          ErrorBody "Failed to process API endpoint request"
                            (Some (message error)) None |})
    /\ (forall r,
           request = Readable r ->
           (httpStatus resp = 400%Z <-> acceptsUrl P (Request.url r) = false)
           /\ (httpStatus resp = 400%Z ->
               tr = []
               /\ exists error,
                    resp = badRequest error
                    /\ (error = "API endpoint URL is required"
                        \/ error = "Invalid API endpoint URL format"
                        \/ error = "Only HTTP and HTTPS URLs are allowed")
                    /\ (Js.trim (Request.url r) = "" ->
                        error = "API endpoint URL is required"))
           /\ (httpStatus resp <> 400%Z ->
               exists st out,
                 performApiExtraction P W (optionsOf r) = Some (st, out)
                 /\ tr = trace st
                 /\ match out with
                    | Returns result =>
                        resp = {| httpStatus := 200; json_body := ResultBody result |}
                    | Throws e =>
                        resp = {| httpStatus := 500;
                                  json_body :=
                                    ErrorBody "API extraction failed" (Some (message e))
                                      (Some {| f_url := Request.url r;
                                               f_method := method (optionsOf r);
                                               f_responseFormat :=
                                                 responseFormat (optionsOf r);
                                               f_statusCode := 0; f_responseSize := 0;
                                               f_pagesProcessed := 0 |}) |}
                    end)
           /\ (acceptsUrl P (Request.url r) = true ->
               refusesNegativeTimeouts W ->
               (timeout (optionsOf r) < 0)%Z ->
               (0 < effectiveMaxPages (pagination (optionsOf r)))%Z ->
               exists m,
                 tr = [EvFetch 1 (requestFor (optionsOf r) (initialState (optionsOf r)))
                         (Fetch.Rejected m)]
                 /\ resp = extractionFailed (optionsOf r) (FetchRejected m))).
Proof.
  destruct request as [r|error].
  2:{ exists [], (processingFailed error).
      split; [reflexivity|]. split; [right; right; reflexivity|].
      split; [intros e [= <-]; split; reflexivity|intros r H; discriminate H]. }
  cbn [POST].
  destruct (acceptsUrl P (Request.url r)) eqn:Hurl.
  - destruct (performApiExtraction_total P W (optionsOf r)) as (st & out & Hrun).
    pose proof (POST_accepted P W r Hurl) as Hpost; cbn [POST] in Hpost.
    rewrite Hrun in Hpost.
    assert (Hrefused :
             refusesNegativeTimeouts W ->
             (timeout (optionsOf r) < 0)%Z ->
             (0 < effectiveMaxPages (pagination (optionsOf r)))%Z ->
             exists m,
               trace st = [EvFetch 1 (requestFor (optionsOf r) (initialState (optionsOf r)))
                             (Fetch.Rejected m)]
               /\ out = Throws (FetchRejected m)).
    { intros Hworld Htimeout Hmax.
      destruct (Hworld 0%nat (requestFor (optionsOf r) (initialState (optionsOf r))) Htimeout)
        as [m Hw].
      destruct (first_call_rejected P W (optionsOf r) m Hmax Hw) as (st' & Hrun' & Htrace).
      rewrite Hrun in Hrun'; injection Hrun' as <- ->.
      exists m; split; [exact Htrace|reflexivity]. }
    destruct out as [result|e].
    + eexists; eexists; split; [exact Hpost|]; cbn [httpStatus].
      split; [right; left; reflexivity|].
      split; [intros error H; discriminate H|].
      intros r' [= <-].
      split; [rewrite Hurl; split; intros; discriminate|].
      split; [intros; discriminate|].
      split; [intros _; exists st, (Returns result); auto|].
      intros _ Hworld Htimeout Hmax.
      destruct (Hrefused Hworld Htimeout Hmax) as (m & _ & H); discriminate H.
    + eexists; eexists; split; [exact Hpost|]; cbn [httpStatus extractionFailed].
      split; [right; right; reflexivity|].
      split; [intros error H; discriminate H|].
      intros r' [= <-].
      split; [rewrite Hurl; split; intros; discriminate|].
      split; [intros; discriminate|].
      split; [intros _; exists st, (Throws e); auto|].
      intros _ Hworld Htimeout Hmax.
      destruct (Hrefused Hworld Htimeout Hmax) as (m & Htrace & [= ->]).
      exists m; split; [exact Htrace|reflexivity].
  - destruct (POST_refused_message P W r Hurl) as (error & Hpost & Herr & Hblank).
    cbn [POST] in Hpost.
    eexists; eexists; split; [exact Hpost|]; cbn [httpStatus badRequest].
    split; [left; reflexivity|].
    split; [intros e H; discriminate H|].
    intros r' [= <-].
    split; [rewrite Hurl; tauto|].
    split; [|split; [intros H; congruence|intros H; congruence]].
    intros _; split; [reflexivity|].
    exists error; auto.
Qed.

(** ** The requests of a run *)

Section UniformRequests.
Variable P : Platform.
Variable W : World.
Variable o : Options.

Lemma requestsUniform_attempt (st st1 : LoopState) (c : Completion) :
  requestsUniform o (trace st) -> guard o st = true -> Attempt P W o st st1 c ->
  requestsUniform o (trace st1).
Proof.
  intros Hold _ Ha n request result Hin.
  assert (Hcases : In (EvFetch n request result) (trace st)
                   \/ EvFetch n request result = thisFetch W o st).
  { destruct (attempt_trace P W o _ _ _ Ha) as [Ht|Ht]; rewrite Ht in Hin;
      repeat (apply in_app_or in Hin as [Hin|Hin]); auto;
      destruct Hin as [Hin|[]]; auto; discriminate. }
  destruct Hcases as [Hin'|Hnew]; [exact (Hold _ _ _ Hin')|].
  unfold thisFetch in Hnew; injection Hnew as _ -> _.
  repeat split.
Qed.

Lemma requestsUniform_warned (st : LoopState) (e : Exn) :
  requestsUniform o (trace st) -> requestsUniform o (trace (stopped (warned e st))).
Proof.
  intros Hold n request result Hin; cbn [trace stopped warned] in Hin.
  apply in_app_or in Hin as [Hin|[Hin|[]]]; [exact (Hold _ _ _ Hin)|discriminate].
Qed.

End UniformRequests.

(** X16.  Every call of a run carries the same method, the same headers
    (those built once before the loop), the same time-out and the same
    body, which is the body of the options for POST, PUT and PATCH and
    none for GET and DELETE: from page to page only the URL changes. *)
Theorem every_page_request_is_the_same_but_for_the_url
  (P : Platform) (W : World) (o : Options) :
  exists st out,
    performApiExtraction P W o = Some (st, out)
    /\ forall n request result,
         In (EvFetch n request result) (trace st) ->
         Fetch.method request = method o
         /\ Fetch.headers request = buildRequestHeaders o
         /\ Fetch.body request = (if Method.hasBody (method o) then body o else None)
         /\ Fetch.timeout request = timeout o.
Proof.
  destruct (performApiExtraction_total P W o) as (st & out & Hrun).
  exists st, out; split; [exact Hrun|].
  apply (performApiExtraction_invariant P W o (fun s => requestsUniform o (trace s))
           (requestsUniform_attempt P W o) (requestsUniform_warned o) st out
           (fun _ _ _ H => match H with end) Hrun).
Qed.

(** ** The dashboard *)

(** X17.  For the request the dashboard sends in its API endpoint mode,
    whatever the URL typed: the handler answers; when the answer is not ok
    the message the dashboard shows is one of the three validation
    messages or the fixed text API extraction failed, never the details
    of the failure; when it is ok the result reports one page and no
    authentication, and every call made was a GET without headers and
    without body. *)
Theorem dashboard_request_fetches_one_page (P : Platform) (W : World) (u : string) :
  exists tr resp,
    POST P W (dashboardRequest u) = Some (tr, resp)
    /\ (forall shown,
           dashboardError resp = Some shown ->
           shown = "API endpoint URL is required"
           \/ shown = "Invalid API endpoint URL format"
           \/ shown = "Only HTTP and HTTPS URLs are allowed"
           \/ shown = "API extraction failed")
    /\ (dashboardError resp = None ->
        exists result,
          json_body resp = ResultBody result
          /\ m_pagesProcessed result = 1%Z
          /\ hasAuthentication result = false)
    /\ (forall n request result,
           In (EvFetch n request result) tr ->
           Fetch.method request = Method.GET
           /\ Fetch.headers request = []
           /\ Fetch.body request = None).
Proof.
  destruct (acceptsUrl P u) eqn:Hurl.
  - destruct (one_page_when_pagination_stops P W (optionsOf (dashboardRequest u))
                (fun _ _ _ _ _ => or_introl eq_refl))
      as (st & out & Hrun & _ & Hone).
    pose proof (performApiExtraction_invariant P W (optionsOf (dashboardRequest u))
                  (fun s => requestsUniform (optionsOf (dashboardRequest u)) (trace s))
                  (requestsUniform_attempt P W _) (requestsUniform_warned _) st out
                  (fun _ _ _ H => match H with end) Hrun) as Hreq.
    pose proof (POST_accepted P W (dashboardRequest u) Hurl) as Hpost; rewrite Hrun in Hpost.
    assert (Hcalls : forall n request result,
               In (EvFetch n request result) (trace st) ->
               Fetch.method request = Method.GET
               /\ Fetch.headers request = []
               /\ Fetch.body request = None).
    { intros n request result Hin.
      destruct (Hreq n request result Hin) as (Hm & Hh & Hb & _).
      rewrite Hm, Hh, Hb; repeat split. }
    destruct out as [result|e]; eexists; eexists; (split; [exact Hpost|]).
    + split; [intros shown Hshown; discriminate|].
      split; [|exact Hcalls].
      intros _; exists result; split; [reflexivity|].
      split; [apply Hone; reflexivity|].
      destruct (performApiExtraction_returns P W _ st result Hrun) as (text & _ & ->).
      reflexivity.
    + split; [intros shown Hshown; injection Hshown as <-; auto|].
      split; [discriminate|exact Hcalls].
  - destruct (POST_refused_message P W (dashboardRequest u) Hurl)
      as (error & Hpost & Herr & _).
    eexists; eexists; split; [exact Hpost|].
    split; [|split; [discriminate|intros n request result []]].
    intros shown Hshown; cbn in Hshown.
    destruct Herr as [-> | [-> | ->]]; injection Hshown as <-; auto.
Qed.

(** ** Headers of the result *)

Section HeaderTracking.
Variable P : Platform.
Variable W : World.
Variable o : Options.

Lemma lastEntries_snoc (tr : list Event) (ev : Event) :
  lastEntries (tr ++ [ev])
  = match ev with
    | EvFetch _ _ (Fetch.Responded r) => Fetch.entries r
    | _ => lastEntries tr
    end.
Proof. unfold lastEntries; rewrite fold_left_app; reflexivity. Qed.

Lemma paginate_headers (r : Fetch.Response) (parsedData : Value) (st : LoopState) :
  finalResponseHeaders (paginate P o r parsedData st) = finalResponseHeaders st.
Proof.
  destruct (paginate_cases P o r parsedData st) as [->|[nextUrl [-> _]]]; reflexivity.
Qed.

Lemma tracksHeaders_attempt (st st1 : LoopState) (c : Completion) :
  tracksHeaders st -> guard o st = true -> Attempt P W o st st1 c -> tracksHeaders st1.
Proof.
  unfold tracksHeaders; intros Hh _ Ha.
  destruct Ha as [m Ew|r Ew Eok _|r Ew E429 _|r Ew E429 _|r m Ew Eok Et|r t Ew Eok Et];
    try (rewrite paginate_headers;
         destruct (paginate_keeps P o r
                     (parseApiResponse P t (responseFormat o) (dataMapping o))
                     (processed t (parseApiResponse P t (responseFormat o) (dataMapping o))
                        (received r (fetched (thisFetch W o st) st))))
           as (_ & _ & -> & _));
    cbn [finalResponseHeaders trace rateLimited received fetched processed];
    rewrite ?lastEntries_snoc, ?lastEntries_snoc;
    unfold thisFetch; rewrite Ew; auto.
Qed.

Lemma tracksHeaders_warned (st : LoopState) (e : Exn) :
  tracksHeaders st -> tracksHeaders (stopped (warned e st)).
Proof.
  unfold tracksHeaders; cbn [finalResponseHeaders trace stopped warned].
  rewrite lastEntries_snoc; auto.
Qed.

End HeaderTracking.

(** X18.  The headers a returned result reports are those of the last
    response received, that of a failed later page included, gathered into
    an object; contentType is its content-type entry, or the text unknown
    when that entry is absent or empty. *)
Theorem result_headers_are_those_of_the_last_response
  (P : Platform) (W : World) (o : Options) :
  exists st out,
    performApiExtraction P W o = Some (st, out)
    /\ forall result,
         out = Returns result ->
         responseHeaders result = fromEntries (lastEntries (trace st))
         /\ contentType result
            = Js.orElse (Obj.get "content-type" (fromEntries (lastEntries (trace st))))
                        "unknown".
Proof.
  destruct (performApiExtraction_total P W o) as (st & out & Hrun).
  pose proof (performApiExtraction_invariant P W o tracksHeaders
                (tracksHeaders_attempt P W o) tracksHeaders_warned st out eq_refl Hrun)
    as Hh.
  exists st, out; split; [exact Hrun|].
  intros result ->.
  destruct (performApiExtraction_returns P W o st result Hrun) as (text & _ & ->).
  cbn [buildResult responseHeaders contentType]; rewrite Hh; auto.
Qed.

(** ** The URLs of the pages *)

Section UrlsAdvance.
Variable P : Platform.
Variable W : World.
Variable o : Options.

Lemma pageUrls_snoc (tr : list Event) (ev : Event) :
  pageUrls (tr ++ [ev]) = (pageUrls tr ++ pageUrlOfEvent ev)%list.
Proof. unfold pageUrls; rewrite flat_map_app; simpl; rewrite app_nil_r; reflexivity. Qed.

Lemma noRepeat_snoc (urls : list string) (u : string) :
  noRepeat urls ->
  (forall before lastUrl, urls = (before ++ [lastUrl])%list -> u <> lastUrl) ->
  noRepeat (urls ++ [u]).
Proof.
  induction urls as [|a [|b rest] IH]; intros Hno Hlast.
  - exact I.
  - cbn; split; [|exact I].
    intros ->; apply (Hlast [] u); reflexivity.
  - destruct Hno as [Hab Hrest].
    change (a <> b /\ noRepeat ((b :: rest) ++ [u])); split; [exact Hab|].
    apply IH; [exact Hrest|].
    intros before lastUrl Heq; apply (Hlast (a :: before) lastUrl).
    cbn; rewrite Heq; reflexivity.
Qed.

Lemma urlsAdvance_attempt (st st1 : LoopState) (c : Completion) :
  urlsAdvance o st -> guard o st = true -> Attempt P W o st st1 c -> urlsAdvance o st1.
Proof.
  intros [Hno Hcur] Hguard Ha.
  destruct Ha as [m Ew|r Ew Eok _|r Ew E429 _|r Ew E429 _|r m Ew Eok Et|r t Ew Eok Et];
    try (pose proof (ok_429 r E429) as Eok).
  1-5: (split;
        [cbn [trace rateLimited received fetched];
         rewrite ?pageUrls_snoc, ?pageUrls_snoc; unfold thisFetch; rewrite Ew;
         cbn [pageUrlOfEvent]; rewrite ?Eok, ?Et, ?app_nil_r; exact Hno
        |intros _;
         cbn [trace currentUrl rateLimited received fetched];
         rewrite ?pageUrls_snoc, ?pageUrls_snoc; unfold thisFetch; rewrite Ew;
         cbn [pageUrlOfEvent]; rewrite ?Eok, ?Et, ?app_nil_r; exact (Hcur Hguard)]).
  assert (Hurls : pageUrls (trace st ++ [thisFetch W o st])
                  = (pageUrls (trace st) ++ [currentUrl st])%list).
  { rewrite pageUrls_snoc; unfold thisFetch; rewrite Ew; cbn [pageUrlOfEvent].
    rewrite Eok, Et; reflexivity. }
  match goal with
  | |- urlsAdvance o (paginate P o ?r ?d ?s) =>
      destruct (paginate_keeps P o r d s) as (_ & _ & Htr & _)
  end.
  split.
  - rewrite Htr; cbn [trace processed received fetched]; rewrite Hurls.
    apply noRepeat_snoc; [exact Hno|exact (Hcur Hguard)].
  - rewrite Htr; clear Htr; unfold paginate.
    cbn [trace currentUrl processed received fetched]; rewrite Hurls.
    destruct (enabled (pagination o) && _); [|discriminate].
    destruct (getNextPageUrl _ _ _ _ _) as [nextUrl|]; [|discriminate].
    destruct (String.eqb_spec nextUrl (currentUrl st)) as [Hsame|Hdiff];
      [rewrite andb_false_r; discriminate|].
    destruct (negb (nextUrl =? "") && negb false); [|discriminate].
    intros _ before lastUrl Heq; apply app_inj_tail in Heq as [_ <-].
    exact Hdiff.
Qed.

Lemma urlsAdvance_warned (st : LoopState) (e : Exn) :
  urlsAdvance o st -> urlsAdvance o (stopped (warned e st)).
Proof.
  intros [Hno _]; split; [|discriminate].
  cbn [trace stopped warned]; rewrite pageUrls_snoc, app_nil_r; exact Hno.
Qed.

End UrlsAdvance.

(** X19.  Whatever the strategy and the responses, the pages of a run come
    from URLs that change from each page to the next: a next URL equal to
    the current one ends the pagination instead of being fetched again. *)
Theorem successive_pages_have_different_urls (P : Platform) (W : World) (o : Options) :
  exists st out,
    performApiExtraction P W o = Some (st, out)
    /\ noRepeat (pageUrls (trace st)).
Proof.
  destruct (performApiExtraction_total P W o) as (st & out & Hrun).
  exists st, out; split; [exact Hrun|].
  apply (performApiExtraction_invariant P W o (urlsAdvance o)
           (urlsAdvance_attempt P W o) (urlsAdvance_warned o) st out).
  - split; [exact I|intros _ [|a before] lastUrl Heq; discriminate Heq].
  - exact Hrun.
Qed.
